(** * devicehub-api: the device command queue and the poll protocol

    A shallow embedding of the Express/PostgreSQL server of the repository
    and the properties of its command queue, device authentication and
    admin authentication.

    Two generations of [server.js] are embedded:
    - the server with auto-migrations, [/v1/devices/poll] and the admin
      command endpoint (plain [device_secret] column); its definitions are
      at top level;
    - the earlier "API + Admin UI" server (hashed [device_secret_hash]
      column, no command queue), in [Module Legacy].

    Conventions of the embedding.
    - A table is the list (or, for [devices], the finite map on its primary
      key) of its rows; a [pool.query] call is a function on tables. A
      statement that PostgreSQL rejects yields [None] and leaves the tables
      as they were, and the handler's [catch] turns it into a 500 reply.
      The rejections that are modelled: a constraint violation (primary
      key, foreign key, NOT NULL), text that does not read as the type of
      its column ([uuid], [inet], [jsonb]), and a text or JSON parameter
      that holds the code unit 0, which the database takes in no text
      ([text_in], [json_text_in]). Loss of the connection, resource limits
      and other storage outages are not modelled.
    - Text held in a table is text the database has accepted. A key
      parameter that equals the key of a stored row is therefore accepted
      ([key_in]); the check for the code unit 0 matters for a key that no
      row has.
    - [now()] is an argument of each statement.
    - JSON request fields that the handlers use as text are [option string]
      ([None]: the field is absent or [null]); a character of a [string]
      stands for one UTF-16 code unit below 256, so [String.length] is the
      JS [.length]. A request that gives such a field another JSON type (a
      number, an array, an object) is outside the embedding, and so are
      code units from 256 on. Fields used through [typeof] or truthiness
      only, and JSON that is stored as it comes, are [jsval]. *)

From Stdlib Require Import ZArith NArith List String Ascii Bool Lia.
From Stdlib Require Import Sorting.Permutation Sorting.Sorted.
From Stdlib Require Import Floats.PrimFloat.
From stdpp Require Import gmap strings.
Import ListNotations.

Local Open Scope string_scope.
Local Open Scope list_scope.

(** ** JavaScript values as they arrive in a parsed JSON body

    A number is a binary64 float, as in JavaScript. An object is the list
    of its members as the JSON text gives them; of two members with the
    same key the later one stands ([last_members]). The order in which an
    object lists its members afterwards is not modelled ([JSON.stringify],
    [jsonb] and [JSON.parse] each have an order of their own), and no
    property below depends on it. *)

#[local] Unset Elimination Schemes.
Inductive jsval : Type :=
| JUndefined
| JNull
| JBool (b : bool)
| JNum (n : float)
| JStr (s : string)
| JArr (items : list jsval)
| JObj (fields : list (string * jsval)).
#[local] Set Elimination Schemes.

(** [!!v]: among the numbers, the two zeros and NaN are falsy. *)
Definition truthy (v : jsval) : bool :=
  match v with
  | JUndefined | JNull => false
  | JBool b => b
  | JNum n => negb (is_zero n || is_nan n)
  | JStr s => negb (s =? "")
  | JArr _ | JObj _ => true
  end.

(** [typeof v === 'object'] *)
Definition typeof_object (v : jsval) : bool :=
  match v with
  | JNull | JArr _ | JObj _ => true
  | JUndefined | JBool _ | JNum _ | JStr _ => false
  end.

(** Truthiness of an optional text field: absent and [''] are falsy. *)
Definition truthy_str (o : option string) : bool :=
  match o with
  | Some s => negb (s =? "")
  | None => false
  end.

(** [a || d] on an optional text field. *)
Definition or_default (o : option string) (d : string) : string :=
  match o with
  | Some s => if s =? "" then d else s
  | None => d
  end.

(** ** Text and JSON as the database takes them

    PostgreSQL stores no text that holds the code unit 0: a text parameter
    with that code unit makes the statement fail (invalid byte sequence),
    and so does a [jsonb] parameter whose JSON text has the escape of that
    code unit in a string or in a key. *)

Definition text_in (s : string) : bool :=
  forallb (fun a => negb (Ascii.eqb a "000")) (list_ascii_of_string s).

(** A parameter that is [null] is sent as SQL NULL. *)
Definition opt_text_in (o : option string) : bool :=
  match o with
  | Some s => text_in s
  | None => true
  end.

(** A key parameter, compared with the primary key of a table: the key
    of a stored row, or text the database takes. *)
Definition key_in {A : Type} (k : string) (m : gmap string A) : bool :=
  match m !! k with
  | Some _ => true
  | None => text_in k
  end.

(** An object has one member for a key: of two members with the same
    key the later one stands. *)
Definition last_members {A : Type} (fields : list (string * A)) : list (string * A) :=
  fold_right
    (fun kx acc => if existsb (fun ky => fst ky =? fst kx) acc then acc else kx :: acc)
    [] fields.

(** What [JSON.stringify] writes, read back as a value: a number that is
    not finite becomes [null] and the negative zero becomes zero, an
    [undefined] item of an array becomes [null] and an [undefined] member
    of an object is left out. *)
Fixpoint json_wire (v : jsval) : jsval :=
  match v with
  | JUndefined => JNull
  | JNum n => if is_finite n then (if is_zero n then JNum zero else v) else JNull
  | JArr items => JArr (map json_wire items)
  | JObj fields =>
      JObj (last_members
              (flat_map (fun '(k, x) =>
                           match x with
                           | JUndefined => []
                           | _ => [(k, json_wire x)]
                           end) fields))
  | JNull | JBool _ | JStr _ => v
  end.

(** Whether [jsonb] takes a value that [json_wire] has written: every
    string and every key is text the database takes. *)
Fixpoint json_text_in (v : jsval) : bool :=
  match v with
  | JStr s => text_in s
  | JArr items => forallb json_text_in items
  | JObj fields => forallb (fun '(k, x) => text_in k && json_text_in x) fields
  | JUndefined | JNull | JBool _ | JNum _ => true
  end.

(** What a [JSONB NOT NULL] column makes of a parameter whose [typeof] is
    [object]: an object is sent as [JSON.stringify] writes it and stored
    if [jsonb] takes it; [null] is SQL NULL, which the column rejects; an
    array is sent as an array literal [{...}], which reads as JSON (the
    empty object) only when the array is empty. No handler passes a value
    of another type. *)
Definition jsonb_param (v : jsval) : option jsval :=
  match v with
  | JObj _ => if json_text_in (json_wire v) then Some (json_wire v) else None
  | JArr [] => Some (JObj [])
  | _ => None
  end.

(** ** The [uuid] column type

    [device_commands.id] is a [UUID]; a text parameter compared with it is
    read by the database's uuid input routine: 32 hexadecimal digits in
    either case, optionally wrapped in braces, with an optional hyphen
    after any group of four digits. Text that does not read as a uuid
    makes the statement fail. *)

Definition uuid := N.

Definition hex_digit (a : ascii) : option N :=
  let n := N_of_ascii a in
  if ((48 <=? n) && (n <=? 57))%N then Some (n - 48)%N
  else if ((65 <=? n) && (n <=? 70))%N then Some (n - 55)%N
  else if ((97 <=? n) && (n <=? 102))%N then Some (n - 87)%N
  else None.

(** Reads [todo] more bytes (two digits each); byte [i] is the
    [16 - todo]-th. *)
Fixpoint uuid_bytes (todo : nat) (s : string) (acc : N) : option (N * string) :=
  match todo with
  | O => Some (acc, s)
  | S todo' =>
      match s with
      | String a (String b rest) =>
          match hex_digit a, hex_digit b with
          | Some x, Some y =>
              let i := (15 - todo')%nat in
              let rest' :=
                match rest with
                | String "-" r => if Nat.odd i && (i <? 15)%nat then r else rest
                | _ => rest
                end in
              uuid_bytes todo' rest' (acc * 256 + x * 16 + y)%N
          | _, _ => None
          end
      | _ => None
      end
  end.

Definition uuid_in (s : string) : option uuid :=
  let '(braces, body) :=
    match s with
    | String "{" r => (true, r)
    | _ => (false, s)
    end in
  match uuid_bytes 16 body 0%N with
  | Some (u, rest) =>
      if braces
      then match rest with String "}" EmptyString => Some u | _ => None end
      else match rest with EmptyString => Some u | _ => None end
  | None => None
  end.

(** ** Tables *)

(** [device_commands.status]; the server writes these four texts only. *)
Inductive CmdStatus : Type := queued | sent | done | failed.

Definition cmd_status_eqb (a b : CmdStatus) : bool :=
  match a, b with
  | queued, queued | sent, sent | done, done | failed, failed => true
  | _, _ => false
  end.

(** A row of [device_commands]. *)
Record Command : Type := mkCommand {
  cmd_id : uuid;
  cmd_device_id : string;
  cmd_kind : string;
  cmd_payload : jsval;
  cmd_status : CmdStatus;
  cmd_created_at : Z;
  cmd_sent_at : option Z;
  cmd_done_at : option Z;
  cmd_error : option string
}.

(** A row of [devices]. The descriptive columns stay together in
    [DeviceInfo]. *)
Record DeviceInfo : Type := mkDeviceInfo {
  app_version : option string;
  tauri_version : option string;
  os_name : option string;
  os_version : option string;
  arch : option string;
  hostname : option string;
  username : option string
}.

Record Device : Type := mkDevice {
  device_id : string;
  info : DeviceInfo;
  device_secret : option string;
  status : string;
  first_seen_at : option Z;
  last_seen_at : option Z;
  updated_at : option Z;
  ip_last : option string
}.

(** Rows of [device_events] and [device_notes] (their generated ids and
    JSON payloads are left out). *)
Record Event : Type := mkEvent {
  ev_device_id : string;
  ev_type : string;
  ev_created_at : Z
}.

Record Note : Type := mkNote {
  note_device_id : string;
  note_text : string;
  note_created_by : string;
  note_created_at : Z
}.

Record Db : Type := mkDb {
  devices : gmap string Device;
  device_commands : list Command;
  device_events : list Event;
  device_notes : list Note
}.

Definition set_devices (m : gmap string Device) (db : Db) : Db :=
  mkDb m (device_commands db) (device_events db) (device_notes db).

Definition set_commands (l : list Command) (db : Db) : Db :=
  mkDb (devices db) l (device_events db) (device_notes db).

Definition add_event (e : Event) (db : Db) : Db :=
  mkDb (devices db) (device_commands db) (device_events db ++ [e]) (device_notes db).

Definition add_note (n : Note) (db : Db) : Db :=
  mkDb (devices db) (device_commands db) (device_events db) (device_notes db ++ [n]).

(** ** HTTP replies *)

Inductive reply (A : Type) : Type :=
| Json200 (body : A)
| JsonError (code : nat) (error : string).
Arguments Json200 {A} body.
Arguments JsonError {A} code error.

Inductive error_kind : Type :=
| InvalidArgument | Unauthorized | Forbidden | NotFound | ServerError
| ServiceUnavailable | OtherError.

Definition kind_of_code (code : nat) : error_kind :=
  if (code =? 400)%nat then InvalidArgument
  else if (code =? 401)%nat then Unauthorized
  else if (code =? 403)%nat then Forbidden
  else if (code =? 404)%nat then NotFound
  else if (code =? 500)%nat then ServerError
  else if (code =? 503)%nat then ServiceUnavailable
  else OtherError.

(** ** The result-recording statement of the poll handler

    [UPDATE device_commands SET status=$2, done_at=now(), error=$3
      WHERE id=$1 AND device_id=$4]
    with [$1 = r.id], [$2 = ok ? 'done' : 'failed'],
    [$3 = ok ? null : (r.error || 'error')], [$4 = deviceId]. *)

Record ResultEntry : Type := mkResult {
  r_id : option string;
  r_ok : jsval;
  r_error : option string
}.

(** The parameter [$3]: [ok ? null : (r.error || 'error')]. *)
Definition result_error (ok : bool) (err : option string) : option string :=
  if ok then None else Some (or_default err "error").

Definition finish (now : Z) (ok : bool) (err : option string) (c : Command) : Command :=
  mkCommand (cmd_id c) (cmd_device_id c) (cmd_kind c) (cmd_payload c)
    (if ok then done else failed)
    (cmd_created_at c) (cmd_sent_at c) (Some now)
    (result_error ok err).

Definition result_matches (u : uuid) (deviceId : string) (c : Command) : bool :=
  (cmd_id c =? u)%N && (cmd_device_id c =? deviceId).

(** The statement fails when [$1] does not read as a uuid and when the
    error text holds the code unit 0. [deviceId] is the key of the row
    that [findDeviceForAuth] has found. *)
Definition recordResult (now : Z) (commandId deviceId : string) (ok : bool)
    (err : option string) (cmds : list Command) : option (list Command) :=
  match uuid_in commandId with
  | None => None
  | Some u =>
      if opt_text_in (result_error ok err)
      then Some (map (fun c => if result_matches u deviceId c
                               then finish now ok err c else c) cmds)
      else None
  end.

(** ** The dispatch statement of the poll handler

    [UPDATE device_commands SET status='sent', sent_at=now()
      WHERE id IN (SELECT id FROM device_commands
                   WHERE device_id=$1 AND status='queued'
                   ORDER BY created_at ASC LIMIT $2)
      RETURNING id, kind, payload]

    [ORDER BY created_at] is a stable insertion sort of the rows in the
    order the table yields them (rows of equal [created_at] keep that
    order): the statement names no second sort key. The rows of the
    [RETURNING] clause are listed here in the order of the table;
    PostgreSQL lists them in the order in which its plan updates them, and
    the properties below do not depend on that order. [deviceId] is the
    key of the row that [findDeviceForAuth] has found. *)

Definition is_queued_for (deviceId : string) (c : Command) : bool :=
  (cmd_device_id c =? deviceId) && cmd_status_eqb (cmd_status c) queued.

Fixpoint insert_by_created_at (c : Command) (l : list Command) : list Command :=
  match l with
  | [] => [c]
  | d :: l' =>
      if (cmd_created_at c <=? cmd_created_at d)%Z then c :: l
      else d :: insert_by_created_at c l'
  end.

Definition order_by_created_at (l : list Command) : list Command :=
  fold_right insert_by_created_at [] l.

Definition select_queued_ids (deviceId : string) (limit : Z) (cmds : list Command)
    : list uuid :=
  map cmd_id
    (firstn (Z.to_nat limit)
       (order_by_created_at (List.filter (is_queued_for deviceId) cmds))).

Definition mark_sent (now : Z) (c : Command) : Command :=
  mkCommand (cmd_id c) (cmd_device_id c) (cmd_kind c) (cmd_payload c)
    sent (cmd_created_at c) (Some now) (cmd_done_at c) (cmd_error c).

Definition id_in (ids : list uuid) (c : Command) : bool :=
  existsb (N.eqb (cmd_id c)) ids.

(** The rows the [RETURNING] clause sends back. *)
Record Delivered : Type := mkDelivered {
  d_id : uuid;
  d_kind : string;
  d_payload : jsval
}.

Definition returning (c : Command) : Delivered :=
  mkDelivered (cmd_id c) (cmd_kind c) (cmd_payload c).

(** [takeNextBatch]: the rows returned and the table after the update. *)
Definition takeNextBatch (now : Z) (deviceId : string) (limit : Z)
    (cmds : list Command) : list Delivered * list Command :=
  let ids := select_queued_ids deviceId limit cmds in
  (map returning (List.filter (id_in ids) cmds),
   map (fun c => if id_in ids c then mark_sent now c else c) cmds).

(** [Math.max(1, Math.min(20, max))] *)
Definition clamp_max (max : Z) : Z := Z.max 1 (Z.min 20 max).

(** ** Device authentication for poll: [findDeviceForAuth] *)

Definition set_device_secret (s : option string) (d : Device) : Device :=
  mkDevice (device_id d) (info d) s (status d) (first_seen_at d)
    (last_seen_at d) (updated_at d) (ip_last d).

Definition opt_str_eqb (a : option string) (b : string) : bool :=
  match a with
  | Some s => s =? b
  | None => false
  end.

(** [SELECT ... FROM devices WHERE device_id=$1 LIMIT 1]: the row if
    there is one; [None] when the statement is refused. *)
Definition select_device (id : string) (devs : gmap string Device)
    : option (option Device) :=
  if key_in id devs then Some (devs !! id) else None.

(** The outer [None] is an exception thrown by a refused statement: the
    [SELECT], or the [UPDATE] that stores the secret of a row that has
    none. Otherwise the value returned is the [{device_id, device_secret}]
    object, or [None] for JavaScript's [null], with the table as the call
    leaves it. *)
Definition findDeviceForAuth (deviceId deviceSecret : string)
    (devs : gmap string Device)
    : option (option (string * option string) * gmap string Device) :=
  match select_device deviceId devs with
  | None => None
  | Some None => Some (None, devs)
  | Some (Some d) =>
      if truthy_str (device_secret d) && opt_str_eqb (device_secret d) deviceSecret
      then Some (Some (device_id d, device_secret d), devs)
      else if negb (truthy_str (device_secret d))
              && negb (deviceSecret =? "")
              && (8 <? String.length deviceSecret)%nat
      then if text_in deviceSecret
           then Some (Some (deviceId, Some deviceSecret),
                      <[deviceId := set_device_secret (Some deviceSecret) d]> devs)
           else None
      else Some (None, devs)
  end.

(** ** [POST /v1/devices/poll]

    The body of the request: [deviceId], [deviceSecret] and the [id] and
    [error] of a result entry as text, [max] as an integer ([None]: the
    member is absent, and the default applies), [results] as an array
    whose entries are objects or [null]. *)

Record PollRequest : Type := mkPoll {
  p_deviceId : option string;
  p_deviceSecret : option string;
  p_max : option Z;
  p_results : list (option ResultEntry)
}.

(** The loop over [results]. [clock i] is the database time at which the
    [i]-th entry is handled. An entry that is [null] or has no [id] is
    skipped; a statement that fails ends the loop with the rows recorded
    so far. *)
Fixpoint record_results (clock : nat -> Z) (i : nat) (deviceId : string)
    (results : list (option ResultEntry)) (cmds : list Command)
    : bool * list Command :=
  match results with
  | [] => (true, cmds)
  | r :: rest =>
      match r with
      | None => record_results clock (S i) deviceId rest cmds
      | Some e =>
          if negb (truthy_str (r_id e))
          then record_results clock (S i) deviceId rest cmds
          else
            match recordResult (clock i) (or_default (r_id e) "") deviceId
                    (truthy (r_ok e)) (r_error e) cmds with
            | None => (false, cmds)
            | Some cmds' => record_results clock (S i) deviceId rest cmds'
            end
      end
  end.

Definition poll (clock : nat -> Z) (req : PollRequest) (db : Db)
    : reply (list Delivered) * Db :=
  if negb (truthy_str (p_deviceId req)) || negb (truthy_str (p_deviceSecret req))
  then (JsonError 400 "missing deviceId/deviceSecret", db)
  else
    let deviceId := or_default (p_deviceId req) "" in
    let deviceSecret := or_default (p_deviceSecret req) "" in
    let max := match p_max req with Some m => m | None => 5%Z end in
    match findDeviceForAuth deviceId deviceSecret (devices db) with
    | None => (JsonError 500 "server", db)
    | Some (None, devs) => (JsonError 401 "unauthorized", set_devices devs db)
    | Some (Some _, devs) =>
        let db1 := set_devices devs db in
        match record_results clock 0 deviceId (p_results req) (device_commands db1) with
        | (false, cmds) => (JsonError 500 "server", set_commands cmds db1)
        | (true, cmds) =>
            let '(rows, cmds') :=
              takeNextBatch (clock (List.length (p_results req))) deviceId
                (clamp_max max) cmds in
            (Json200 rows, set_commands cmds' db1)
        end
    end.

(** ** [POST /v1/devices/register]

    [INSERT INTO devices ... ON CONFLICT (device_id) DO UPDATE SET ...]
    followed by the insertion of a [register] event whose payload is the
    whole body of the request. [g_others] are the members of the body
    that the handler does not name. *)

Record RegisterRequest : Type := mkRegister {
  g_deviceId : option string;
  g_deviceSecret : option string;
  g_info : DeviceInfo;
  g_others : list (string * jsval)
}.

Definition info_text_in (i : DeviceInfo) : bool :=
  opt_text_in (app_version i) && opt_text_in (tauri_version i)
  && opt_text_in (os_name i) && opt_text_in (os_version i) && opt_text_in (arch i)
  && opt_text_in (hostname i) && opt_text_in (username i).

(** Whether the database takes the ten parameters of the upsert. *)
Definition upsert_accepted (ip : option string) (req : RegisterRequest) : bool :=
  opt_text_in (g_deviceId req) && info_text_in (g_info req)
  && opt_text_in (g_deviceSecret req) && opt_text_in ip.

Definition member (k : string) (o : option string) : list (string * jsval) :=
  match o with
  | Some s => [(k, JStr s)]
  | None => []
  end.

(** [req.body] *)
Definition register_body (req : RegisterRequest) : jsval :=
  let i := g_info req in
  JObj (member "deviceId" (g_deviceId req) ++ member "deviceSecret" (g_deviceSecret req)
        ++ member "appVersion" (app_version i) ++ member "tauriVersion" (tauri_version i)
        ++ member "osName" (os_name i) ++ member "osVersion" (os_version i)
        ++ member "arch" (arch i) ++ member "hostname" (hostname i)
        ++ member "username" (username i) ++ g_others req).

(** SQL [COALESCE(a, b)] *)
Definition coalesce {A : Type} (a b : option A) : option A :=
  match a with
  | Some _ => a
  | None => b
  end.

Definition upsert_device (now : Z) (ip : option string) (deviceId : string)
    (i : DeviceInfo) (deviceSecret : option string) (devs : gmap string Device)
    : gmap string Device :=
  match devs !! deviceId with
  | None =>
      <[deviceId := mkDevice deviceId i deviceSecret "active"
                      (Some now) (Some now) (Some now) ip]> devs
  | Some d =>
      <[deviceId := mkDevice deviceId i (coalesce deviceSecret (device_secret d))
                      (status d) (first_seen_at d) (Some now) (Some now) ip]> devs
  end.

(** The two statements run one after the other, outside a transaction:
    when the second is refused the row that the first has written stays. *)
Definition register (now : Z) (ip : option string) (req : RegisterRequest) (db : Db)
    : reply unit * Db :=
  if negb (truthy_str (g_deviceId req)) || negb (truthy_str (g_deviceSecret req))
  then (JsonError 400 "missing deviceId/deviceSecret", db)
  else
    let deviceId := or_default (g_deviceId req) "" in
    if negb (upsert_accepted ip req)
    then (JsonError 500 "server", db)
    else
      let db1 :=
        set_devices
          (upsert_device now ip deviceId (g_info req) (g_deviceSecret req) (devices db))
          db in
      match jsonb_param (register_body req) with
      | None => (JsonError 500 "server", db1)
      | Some _ => (Json200 tt, add_event (mkEvent deviceId "register" now) db1)
      end.

(** ** Admin authentication: [adminAuth] *)

Inductive gate : Type :=
| Next
| Reject (code : nat) (error : string).

(** The characters of [\s] and of [String.prototype.trim] among the code
    units below 256. *)
Definition is_space (a : ascii) : bool :=
  let n := N_of_ascii a in
  (((9 <=? n) && (n <=? 13)) || (n =? 32) || (n =? 160))%N.

Fixpoint trim_start (s : string) : string :=
  match s with
  | String a r => if is_space a then trim_start r else s
  | EmptyString => s
  end.

Fixpoint trim_end (s : string) : string :=
  match s with
  | String a r =>
      match trim_end r with
      | EmptyString => if is_space a then EmptyString else String a EmptyString
      | r' => String a r'
      end
  | EmptyString => EmptyString
  end.

Definition trim (s : string) : string := trim_end (trim_start s).

Definition lower (a : ascii) : ascii :=
  let n := N_of_ascii a in
  if ((65 <=? n) && (n <=? 90))%N then ascii_of_N (n + 32) else a.

Definition lower_eqb (a b : ascii) : bool := Ascii.eqb (lower a) (lower b).

(** [s.replace(/^Bearer\s+/i, '')] *)
Definition strip_bearer (s : string) : string :=
  match s with
  | String c1 (String c2 (String c3 (String c4 (String c5 (String c6 (String w r)))))) =>
      if lower_eqb c1 "B" && lower_eqb c2 "e" && lower_eqb c3 "a"
         && lower_eqb c4 "r" && lower_eqb c5 "e" && lower_eqb c6 "r"
         && is_space w
      then trim_start r
      else s
  | _ => s
  end.

(** [ADMIN_TOKEN] is [process.env.ADMIN_TOKEN] ([None]: not set);
    [authorization] is [req.headers.authorization]. *)
Definition adminAuth (ADMIN_TOKEN authorization : option string) : gate :=
  let token := trim (strip_bearer (or_default authorization "")) in
  if negb (truthy_str ADMIN_TOKEN) || opt_str_eqb ADMIN_TOKEN token
  then Next
  else Reject 401 "unauthorized".

(** [app.METHOD(path, adminAuth, handler)]: the handler runs only when the
    middleware calls [next()]. *)
Definition guarded {A : Type} (g : gate) (handler : Db -> reply A * Db) (db : Db)
    : reply A * Db :=
  match g with
  | Next => handler db
  | Reject code error => (JsonError code error, db)
  end.

(** ** Admin endpoints that write *)

(** [INSERT INTO device_commands (device_id, kind, payload) VALUES ($1,$2,$3)];
    [fresh] is the value of [uuid_generate_v4()]. The statement fails on the
    foreign key to [devices], on a kind or a payload that the database does
    not take, and on the primary key. *)
Definition insert_command (now : Z) (fresh : uuid) (deviceId kind : string)
    (payload : jsval) (db : Db) : option Db :=
  match devices db !! deviceId with
  | None => None
  | Some _ =>
      if negb (text_in kind) then None
      else
        match jsonb_param payload with
        | None => None
        | Some j =>
            if existsb (fun c => (cmd_id c =? fresh)%N) (device_commands db)
            then None
            else Some (set_commands
                         (device_commands db ++
                            [mkCommand fresh deviceId kind j queued now None None None])
                         db)
        end
  end.

(** [POST /admin/api/devices/:id/commands] (after [adminAuth]) *)
Definition enqueue (now : Z) (fresh : uuid) (id : string) (kind : option string)
    (payload : jsval) (db : Db) : reply unit * Db :=
  if negb (truthy_str kind) || negb (typeof_object payload)
  then (JsonError 400 "kind/payload required", db)
  else
    match insert_command now fresh id (or_default kind "") payload db with
    | Some db' => (Json200 tt, db')
    | None => (JsonError 500 "server", db)
    end.

(** [POST /admin/api/devices/:id/status]: the [UPDATE] is refused when
    the database does not take the status or the key. *)
Definition set_status (now : Z) (id : string) (st : option string) (db : Db)
    : reply unit * Db :=
  if negb (truthy_str st)
  then (JsonError 400 "status required", db)
  else if negb (key_in id (devices db) && text_in (or_default st ""))
  then (JsonError 500 "server", db)
  else
    (Json200 tt,
     set_devices
       (alter (fun d => mkDevice (device_id d) (info d) (device_secret d)
                          (or_default st "") (first_seen_at d) (last_seen_at d)
                          (Some now) (ip_last d))
              id (devices db))
       db).

(** [POST /admin/api/devices/:id/notes]: the [INSERT] fails on the foreign
    key to [devices] and on a note or an author that the database does
    not take. *)
Definition post_note (now : Z) (id : string) (note createdBy : option string) (db : Db)
    : reply unit * Db :=
  if negb (truthy_str note) || (trim (or_default note "") =? "")
  then (JsonError 400 "note required", db)
  else
    match devices db !! id with
    | None => (JsonError 500 "server", db)
    | Some _ =>
        if text_in (trim (or_default note "")) && text_in (or_default createdBy "admin")
        then
          (Json200 tt,
           add_note (mkNote id (trim (or_default note "")) (or_default createdBy "admin") now)
             db)
        else (JsonError 500 "server", db)
    end.

(** [GET /admin/api/devices/:id] *)
Definition get_device (id : string) (db : Db) : reply Device * Db :=
  match select_device id (devices db) with
  | None => (JsonError 500 "server", db)
  | Some None => (JsonError 404 "not found", db)
  | Some (Some d) => (Json200 d, db)
  end.

(** ** What the admin API shows of a device: [mapDevice] *)

Record DeviceView : Type := mkDeviceView {
  v_deviceId : string;
  v_appVersion : option string;
  v_tauriVersion : option string;
  v_osName : option string;
  v_osVersion : option string;
  v_arch : option string;
  v_hostname : option string;
  v_username : option string;
  v_ipLast : option string;
  v_status : string;
  v_firstSeenAt : option Z;
  v_lastSeenAt : option Z;
  v_updatedAt : option Z
}.

Definition mapDevice (r : Device) : DeviceView :=
  mkDeviceView (device_id r) (app_version (info r)) (tauri_version (info r))
    (os_name (info r)) (os_version (info r)) (arch (info r)) (hostname (info r))
    (username (info r)) (ip_last r) (status r) (first_seen_at r) (last_seen_at r)
    (updated_at r).

(** The body of [GET /admin/api/devices/:id]: [get_device] with the row
    passed through [mapDevice]. *)
Definition device_detail (id : string) (db : Db) : reply DeviceView :=
  match fst (get_device id db) with
  | Json200 d => Json200 (mapDevice d)
  | JsonError code error => JsonError code error
  end.

(** ** Query parameters of the listings: [parseInt] and the clamps

    The numbers met here are results of [parseInt], of [Math.max] and
    [Math.min] with an integer, of a subtraction of 1 and of a product:
    NaN, an infinity, or an integer that a binary64 float holds (the two
    zeros are one [Int 0]: nothing here tells them apart). A query
    parameter is text ([None]: absent); one given twice, which Express
    hands over as an array, is outside the embedding. *)

Inductive jsnum : Type :=
| NaN
| Inf (negative : bool)
| Int (z : Z).

(** The float nearest to an integer, ties to the even mantissa: exact
    below 2^53 in absolute value, infinite when the rounded value does not
    fit the exponent range. *)
Definition to_double (z : Z) : jsnum :=
  let a := Z.abs z in
  if (a <? 2 ^ 53)%Z then Int z
  else
    let e := (Z.log2 a - 52)%Z in
    let q := (a / 2 ^ e)%Z in
    let r := (a mod 2 ^ e)%Z in
    let half := (2 ^ (e - 1))%Z in
    let q' :=
      if (r <? half)%Z then q
      else if (half <? r)%Z then (q + 1)%Z
      else if Z.even q then q else (q + 1)%Z in
    let v := (q' * 2 ^ e)%Z in
    if (2 ^ 1024 <=? v)%Z then Inf (z <? 0)%Z else Int (Z.sgn z * v)%Z.

Definition digit_of (a : ascii) : option N :=
  let n := N_of_ascii a in
  if ((48 <=? n) && (n <=? 57))%N then Some (n - 48)%N
  else if ((65 <=? n) && (n <=? 90))%N then Some (n - 55)%N
  else if ((97 <=? n) && (n <=? 122))%N then Some (n - 87)%N
  else None.

(** The value of the longest prefix of digits of the radix; [acc] is
    [None] until a digit has been read. *)
Fixpoint digits_prefix (radix : N) (s : string) (acc : option N) : option N :=
  match s with
  | String a r =>
      match digit_of a with
      | Some d =>
          if (d <? radix)%N
          then digits_prefix radix r
                 (Some (match acc with Some v => v * radix + d | None => d end)%N)
          else acc
      | None => acc
      end
  | EmptyString => acc
  end.

(** The number for the digits read: NaN when there is none. *)
Definition signed (neg : bool) (v : option N) : jsnum :=
  match v with
  | Some n => to_double (if neg then (- Z.of_N n)%Z else Z.of_N n)
  | None => NaN
  end.

Definition strip_sign (s : string) : bool * string :=
  match s with
  | String "-" r => (true, r)
  | String "+" r => (false, r)
  | _ => (false, s)
  end.

(** [parseInt(s, 10)] *)
Definition parseInt10 (s : string) : jsnum :=
  let '(neg, body) := strip_sign (trim_start s) in
  signed neg (digits_prefix 10 body None).

(** [parseInt(s)]: a [0x] or [0X] prefix selects radix 16. An absent
    argument is the text [undefined]. *)
Definition parseInt (o : option string) : jsnum :=
  match o with
  | None => NaN
  | Some s =>
      let '(neg, body) := strip_sign (trim_start s) in
      match body with
      | String "0" (String x r) =>
          if lower_eqb x "x"
          then signed neg (digits_prefix 16 r None)
          else signed neg (digits_prefix 10 body None)
      | _ => signed neg (digits_prefix 10 body None)
      end
  end.

(** [Math.max(a, x)] and [Math.min(a, x)] for an integer [a] below 2^53. *)
Definition math_max (a : Z) (x : jsnum) : jsnum :=
  match x with
  | NaN => NaN
  | Inf true => Int a
  | Inf false => x
  | Int z => Int (Z.max a z)
  end.

Definition math_min (a : Z) (x : jsnum) : jsnum :=
  match x with
  | NaN => NaN
  | Inf true => x
  | Inf false => Int a
  | Int z => Int (Z.min a z)
  end.

(** [x || d] on numbers: [NaN] and [0] are falsy. *)
Definition num_or (x : jsnum) (d : Z) : jsnum :=
  match x with
  | NaN => Int d
  | Int v => if (v =? 0)%Z then Int d else x
  | Inf _ => x
  end.

(** [x - 1] *)
Definition minus_one (x : jsnum) : jsnum :=
  match x with
  | Int z => to_double (z - 1)
  | NaN | Inf _ => x
  end.

(** [x * y] *)
Definition times (x y : jsnum) : jsnum :=
  match x, y with
  | NaN, _ | _, NaN => NaN
  | Int a, Int b => to_double (a * b)
  | Inf s, Int b => if (b =? 0)%Z then NaN else Inf (xorb s (b <? 0)%Z)
  | Int a, Inf s => if (a =? 0)%Z then NaN else Inf (xorb s (a <? 0)%Z)
  | Inf s, Inf t => Inf (xorb s t)
  end.

Record ListParams : Type := mkListParams {
  lp_page : jsnum;
  lp_limit : jsnum;
  lp_offset : jsnum
}.

(** [GET /admin/api/devices] of the server with the command queue:
    [page], [limit] and [offset] as they reach the query. *)
Definition admin_list_params (page limit : option string) : ListParams :=
  let page := math_max 1 (parseInt10 (or_default page "1")) in
  let limit := math_max 1 (math_min 200 (parseInt10 (or_default limit "25"))) in
  mkListParams page limit (times (minus_one page) limit).

(** [GET /admin/api/devices/:id/events] of the same server. *)
Definition events_limit (limit : option string) : jsnum :=
  math_max 1 (math_min 200 (parseInt10 (or_default limit "50"))).

(** ** The earlier server: hashed secrets, heartbeat, admin backend *)

Module Legacy.

(** A row of [devices] as the statements of this server write it; the
    table definition is not part of the repository. *)
Record Device : Type := mkDevice {
  device_id : string;
  device_secret_hash : option string;
  info : DeviceInfo;
  ip_last : option string;
  status : string;
  last_seen_at : option Z;
  updated_at : option Z
}.

Record Db : Type := mkDb {
  devices : gmap string Device;
  device_events : list Event
}.

(** [x || null] *)
Definition or_null (o : option string) : option string :=
  if truthy_str o then o else None.

Section Server.

(** [crypto.createHash('sha256').update(String(s)).digest('hex')] *)
Variable sha256 : string -> string.

(** Whether the database reads a text as an [inet] value ([$10::inet]). *)
Variable inet_in : string -> bool.

Definition inet_ok (ip : option string) : bool :=
  match ip with
  | Some s => inet_in s
  | None => true
  end.

Definition upsert_device (now : Z) (ip : option string) (deviceId hash : string)
    (i : DeviceInfo) (devs : gmap string Device) : gmap string Device :=
  match devs !! deviceId with
  | None =>
      <[deviceId := mkDevice deviceId (Some hash) i ip "active" None None]> devs
  | Some d =>
      <[deviceId := mkDevice deviceId (Some hash) i ip "active" (Some now) (Some now)]> devs
  end.

(** [POST /v1/devices/register]; [ip] is [getClientIp(req)]. The [error]
    of a 500 reply of this server is the message of the database,
    shortened here: its quotation marks and the input it cites are left
    out. The parameters are read in their order, so a text that holds the
    code unit 0 is reported before an address that does not read as
    [inet]; the digest is hexadecimal text. The event that follows the
    upsert carries texts that the upsert has bound, and is taken with
    them. *)
Definition register (now : Z) (ip : string) (req : RegisterRequest) (db : Db)
    : reply string * Db :=
  let i := g_info req in
  if negb (truthy_str (g_deviceId req)) || negb (truthy_str (g_deviceSecret req))
     || negb (truthy_str (app_version i)) || negb (truthy_str (os_name i))
     || negb (truthy_str (os_version i)) || negb (truthy_str (arch i))
     || negb (truthy_str (hostname i))
  then (JsonError 400 "missing_required_fields", db)
  else
    let deviceId := or_default (g_deviceId req) "" in
    let hash := sha256 (or_default (g_deviceSecret req) "") in
    let ip' := or_null (Some ip) in
    let i' := mkDeviceInfo (app_version i) (or_null (tauri_version i)) (os_name i)
                (os_version i) (arch i) (hostname i) (or_null (username i)) in
    if negb (text_in deviceId && info_text_in i')
    then (JsonError 500 "invalid byte sequence for encoding UTF8: 0x00", db)
    else if negb (inet_ok ip')
    then (JsonError 500 "invalid input syntax for type inet", db)
    else
      (Json200 deviceId,
       mkDb (upsert_device now ip' deviceId hash i' (devices db))
            (device_events db ++ [mkEvent deviceId "register" now])).

(** [POST /v1/devices/heartbeat] *)
Definition heartbeat (now : Z) (ip : string) (deviceId deviceSecret : option string)
    (db : Db) : reply unit * Db :=
  if negb (truthy_str deviceId) || negb (truthy_str deviceSecret)
  then (JsonError 400 "missing_required_fields", db)
  else
    let id := or_default deviceId "" in
    let hash := sha256 (or_default deviceSecret "") in
    let ip' := or_null (Some ip) in
    if negb (key_in id (devices db))
    then (JsonError 500 "invalid byte sequence for encoding UTF8: 0x00", db)
    else if negb (inet_ok ip')
    then (JsonError 500 "invalid input syntax for type inet", db)
    else
      match devices db !! id with
      | Some d =>
          if opt_str_eqb (device_secret_hash d) hash
          then
            (Json200 tt,
             mkDb (<[id := mkDevice (device_id d) (device_secret_hash d) (info d) ip'
                             "active" (Some now) (Some now)]> (devices db))
                  (device_events db ++ [mkEvent id "heartbeat" now]))
          else (JsonError 403 "invalid_device_or_secret", db)
      | None => (JsonError 403 "invalid_device_or_secret", db)
      end.

End Server.

(** [const ADMIN_TOKEN = process.env.ADMIN_TOKEN || ''] and the
    [adminAuth] middleware. *)
Definition adminAuth (env_ADMIN_TOKEN authorization : option string) : gate :=
  let ADMIN_TOKEN := or_default env_ADMIN_TOKEN "" in
  if ADMIN_TOKEN =? ""
  then Reject 503 "admin_not_configured"
  else
    let h := or_default authorization "" in
    if h =? ("Bearer " ++ ADMIN_TOKEN) then Next else Reject 401 "unauthorized".

Definition guarded {A : Type} (g : gate) (handler : Db -> reply A * Db) (db : Db)
    : reply A * Db :=
  match g with
  | Next => handler db
  | Reject code error => (JsonError code error, db)
  end.

(** [POST /admin/api/devices/:id/status] *)
Definition set_status (now : Z) (id : string) (st : option string) (db : Db)
    : reply unit * Db :=
  let s := trim (or_default st "") in
  if negb ((s =? "active") || (s =? "disabled") || (s =? "retired"))
  then (JsonError 400 "invalid_status", db)
  else if negb (key_in id (devices db))
  then (JsonError 500 "invalid byte sequence for encoding UTF8: 0x00", db)
  else
    (Json200 tt,
     mkDb (alter (fun d => mkDevice (device_id d) (device_secret_hash d) (info d)
                             (ip_last d) s (last_seen_at d) (Some now))
                 id (devices db))
          (device_events db)).

(** [GET /admin/api/devices]: page, limit, offset. *)
Definition admin_list_params (page limit : option string) : ListParams :=
  let page := math_max 1 (num_or (parseInt page) 1) in
  let limit := math_max 1 (math_min 100 (num_or (parseInt limit) 25)) in
  mkListParams page limit (times (minus_one page) limit).

(** [GET /v1/devices]: limit, offset. *)
Definition public_list_params (limit offset : option string) : jsnum * jsnum :=
  (math_max 1 (math_min 200 (num_or (parseInt limit) 50)),
   math_max 0 (num_or (parseInt offset) 0)).

(** [GET /admin/api/devices/:id/events] *)
Definition events_limit (limit : option string) : jsnum :=
  math_max 1 (math_min 500 (num_or (parseInt limit) 100)).

(** [xf.split(',')[0]] *)
Fixpoint before_comma (s : string) : string :=
  match s with
  | String a r => if Ascii.eqb a "," then EmptyString else String a (before_comma r)
  | EmptyString => EmptyString
  end.

Fixpoint strip_prefix (pat s : string) : option string :=
  match pat with
  | EmptyString => Some s
  | String p pat' =>
      match s with
      | String a r => if Ascii.eqb a p then strip_prefix pat' r else None
      | EmptyString => None
      end
  end.

(** [s.replace(pat, '')] for a text pattern: the first occurrence goes. *)
Fixpoint remove_first (pat s : string) : string :=
  match strip_prefix pat s with
  | Some rest => rest
  | None =>
      match s with
      | String a r => String a (remove_first pat r)
      | EmptyString => EmptyString
      end
  end.

(** [getClientIp(req)]; [xf] is the [x-forwarded-for] header and
    [remoteAddress] is [req.socket?.remoteAddress]. *)
Definition getClientIp (xf remoteAddress : option string) : string :=
  if truthy_str xf
  then trim (before_comma (or_default xf ""))
  else remove_first "::ffff:" (or_default remoteAddress "").

End Legacy.

(** ** The server as a transition system

    A request served to completion is one step. [ADMIN_TOKEN] is the
    environment variable of the process; the admin requests carry the
    [Authorization] header they present. *)

Inductive Request : Type :=
| DeviceRegister (now : Z) (ip : option string) (req : RegisterRequest)
| DevicePoll (clock : nat -> Z) (req : PollRequest)
| AdminEnqueue (authorization : option string) (now : Z) (fresh : uuid)
    (id : string) (kind : option string) (payload : jsval)
| AdminSetStatus (authorization : option string) (now : Z) (id : string)
    (st : option string)
| AdminPostNote (authorization : option string) (now : Z) (id : string)
    (note createdBy : option string)
| AdminGetDevice (authorization : option string) (id : string).

Definition handle (ADMIN_TOKEN : option string) (r : Request) (db : Db) : Db :=
  match r with
  | DeviceRegister now ip req => snd (register now ip req db)
  | DevicePoll clock req => snd (poll clock req db)
  | AdminEnqueue auth now fresh id kind payload =>
      snd (guarded (adminAuth ADMIN_TOKEN auth) (enqueue now fresh id kind payload) db)
  | AdminSetStatus auth now id st =>
      snd (guarded (adminAuth ADMIN_TOKEN auth) (set_status now id st) db)
  | AdminPostNote auth now id note createdBy =>
      snd (guarded (adminAuth ADMIN_TOKEN auth) (post_note now id note createdBy) db)
  | AdminGetDevice auth id =>
      snd (guarded (adminAuth ADMIN_TOKEN auth) (get_device id) db)
  end.

Definition find_command (u : uuid) (cmds : list Command) : option Command :=
  List.find (fun c => (cmd_id c =? u)%N) cmds.

Definition status_of (u : uuid) (db : Db) : option CmdStatus :=
  option_map cmd_status (find_command u (device_commands db)).

Definition seen (o : option CmdStatus) : list CmdStatus :=
  match o with
  | Some s => [s]
  | None => []
  end.

(** The statuses of command [u] observed before the first request and
    after each request of a run. *)
Fixpoint status_history (ADMIN_TOKEN : option string) (u : uuid)
    (reqs : list Request) (db : Db) : list CmdStatus :=
  seen (status_of u db) ++
  match reqs with
  | [] => []
  | r :: rest => status_history ADMIN_TOKEN u rest (handle ADMIN_TOKEN r db)
  end.

(** The history with repeated observations of one status merged. *)
Fixpoint changes (l : list CmdStatus) : list CmdStatus :=
  match l with
  | a :: (b :: _) as rest => if cmd_status_eqb a b then changes rest else a :: changes rest
  | _ => l
  end.

Fixpoint is_prefix (l1 l2 : list CmdStatus) : bool :=
  match l1, l2 with
  | [], _ => true
  | a :: l1', b :: l2' => cmd_status_eqb a b && is_prefix l1' l2'
  | _ :: _, [] => false
  end.

Definition rank (s : CmdStatus) : nat :=
  match s with
  | queued => 0
  | sent => 1
  | done | failed => 2
  end.

(** ** The admin dashboard script *)

(** The replacement of one character in [escapeHtml]; the double quote
    is character 34. *)
Definition escape_char (c : ascii) : string :=
  if Ascii.eqb c "&" then "&amp;"
  else if Ascii.eqb c "<" then "&lt;"
  else if Ascii.eqb c ">" then "&gt;"
  else if Ascii.eqb c "034" then "&quot;"
  else if Ascii.eqb c "'" then "&#39;"
  else String c EmptyString.

(** [escapeHtml(s)]: a global replace over the class of the ampersand,
    the angle brackets and the two quotes. *)
Fixpoint escapeHtml (s : string) : string :=
  match s with
  | String c r => escape_char c ++ escapeHtml r
  | EmptyString => EmptyString
  end.

(** The handlers of the [refresh], [prev] and [next] buttons, as they act
    on the variable [page]. *)
Inductive PagerClick : Type := ClickRefresh | ClickPrev | ClickNext.

Definition pager_click (page : Z) (c : PagerClick) : Z :=
  match c with
  | ClickRefresh => 1%Z
  | ClickPrev => if (1 <? page)%Z then (page - 1)%Z else page
  | ClickNext => (page + 1)%Z
  end.

(** ** Runs and counts *)

Definition run (ADMIN_TOKEN : option string) (reqs : list Request) (db : Db) : Db :=
  fold_left (fun db r => handle ADMIN_TOKEN r db) reqs db.

Definition count_queued (deviceId : string) (cmds : list Command) : nat :=
  List.length (List.filter (is_queued_for deviceId) cmds).

(** Every command and every note belongs to a device that has a row. *)
Definition references_ok (db : Db) : Prop :=
  (forall c, In c (device_commands db) -> is_Some (devices db !! cmd_device_id c))
  /\ (forall n, In n (device_notes db) -> is_Some (devices db !! note_device_id n)).

(** ** Predicates of the statements *)

Definition le_created (a b : Command) : Prop :=
  (cmd_created_at a <= cmd_created_at b)%Z.

(** The primary key of [device_commands]. *)
Definition unique_ids (cmds : list Command) : Prop := List.NoDup (map cmd_id cmds).

(** [c'] is [c] with the status, done_at and error of a report, and
    nothing else changed. *)
Definition reported (now : Z) (ok : bool) (err : option string) (c c' : Command) : Prop :=
  cmd_id c' = cmd_id c /\ cmd_device_id c' = cmd_device_id c
  /\ cmd_kind c' = cmd_kind c /\ cmd_payload c' = cmd_payload c
  /\ cmd_created_at c' = cmd_created_at c /\ cmd_sent_at c' = cmd_sent_at c
  /\ cmd_status c' = (if ok then done else failed)
  /\ cmd_done_at c' = Some now
  /\ cmd_error c' = (if ok then None else Some (or_default err "error")).

(** No command with this id and device is still queued. *)
Definition not_queued (u : uuid) (deviceId : string) (cmds : list Command) : Prop :=
  forall c, In c cmds -> cmd_id c = u -> cmd_device_id c = deviceId ->
            cmd_status c <> queued.

Definition rank_le (a b : CmdStatus) : Prop := rank a <= rank b.

(** One or more updates: every command stays, with a status of the same
    or a higher rank; no command appears. *)
Definition advances (cmds cmds' : list Command) : Prop :=
  forall u,
    match find_command u cmds with
    | Some c =>
        exists c', find_command u cmds' = Some c'
                   /\ rank (cmd_status c) <= rank (cmd_status c')
    | None => find_command u cmds' = None
    end.

(** One request: as [advances], but a command may appear, queued. *)
Definition steps (cmds cmds' : list Command) : Prop :=
  forall u,
    match find_command u cmds with
    | Some c =>
        exists c', find_command u cmds' = Some c'
                   /\ rank (cmd_status c) <= rank (cmd_status c')
    | None =>
        find_command u cmds' = None
        \/ exists c', find_command u cmds' = Some c' /\ cmd_status c' = queued
    end.


(** A number that is an integer from [a] on, or plus infinity. *)
Definition num_from (a : Z) (x : jsnum) : Prop :=
  x = Inf false \/ exists z, x = Int z /\ (a <= z)%Z.

(** A number that is an integer between [a] and [b]. *)
Definition num_within (a b : Z) (x : jsnum) : Prop :=
  exists z, x = Int z /\ (a <= z <= b)%Z.

(** The three statuses the dashboard offers. *)
Definition known_status (s : string) : Prop :=
  s = "active" \/ s = "disabled" \/ s = "retired".

Definition legacy_statuses_known (ldb : Legacy.Db) : Prop :=
  forall k d, Legacy.devices ldb !! k = Some d -> known_status (Legacy.status d).

(** ** Scenario data *)

(** The uuid used in the examples: [...000a] is command A, [...000b] is
    command B. *)
Definition uuid_A : string := "00000000-0000-0000-0000-00000000000a".
Definition uuid_B : string := "00000000-0000-0000-0000-00000000000b".

Definition no_info : DeviceInfo := mkDeviceInfo None None None None None None None.

Definition command_A (st : CmdStatus) (sent_at done_at : option Z) (err : option string)
    : Command :=
  mkCommand 10%N "dev-1" "ping" (JObj []) st 100 sent_at done_at err.

Definition device_1 : Device :=
  mkDevice "dev-1" no_info (Some "secret-one-123") "active" None None None None.

Definition db_1 : Db := mkDb {[ "dev-1" := device_1 ]} [] [] [].

Definition auth_1 (max : Z) (results : list (option ResultEntry)) : PollRequest :=
  mkPoll (Some "dev-1") (Some "secret-one-123") (Some max) results.

Definition report (commandId : string) (ok : bool) (err : option string)
    : option ResultEntry :=
  Some (mkResult (Some commandId) (JBool ok) err).

Definition secret_16 : string := "0123456789abcdef".

(** A row created before the [device_secret] column existed. *)
Definition device_2 : Device :=
  mkDevice "dev-2" no_info None "active" None None None None.

(** * Properties *)

(** ** Basic facts about the statements *)

Lemma result_matches_true u deviceId c :
  result_matches u deviceId c = true <-> cmd_id c = u /\ cmd_device_id c = deviceId.
Proof.
  unfold result_matches.
  rewrite andb_true_iff, N.eqb_eq, String.eqb_eq. reflexivity.
Qed.

Lemma map_if_none {A : Type} (p : A -> bool) (g : A -> A) (l : list A) :
  (forall x, In x l -> p x = false) ->
  map (fun x => if p x then g x else x) l = l.
Proof.
  induction l as [|x l IH]; intros H; simpl; [reflexivity|].
  rewrite (H x (or_introl eq_refl)), IH; [reflexivity|].
  intros y Hy. apply H. right. exact Hy.
Qed.

Lemma truthy_str_some s : truthy_str (Some s) = true -> or_default (Some s) "" = s.
Proof.
  simpl. destruct (s =? "") eqn:E; [discriminate|reflexivity].
Qed.

Lemma opt_str_eqb_true o s : opt_str_eqb o s = true <-> o = Some s.
Proof.
  destruct o as [t|]; simpl; [|split; discriminate].
  rewrite String.eqb_eq. split; congruence.
Qed.

Lemma truthy_str_true o : truthy_str o = true <-> exists s, o = Some s /\ s <> "".
Proof.
  destruct o as [s|]; simpl.
  - destruct (s =? "") eqn:E; simpl.
    + apply String.eqb_eq in E. split; [discriminate|].
      intros [t [Ht Hne]]. congruence.
    + apply String.eqb_neq in E. split; [|reflexivity].
      intros _. exists s. tauto.
  - split; [discriminate|]. intros [t [Ht _]]. discriminate.
Qed.

Lemma or_default_nonempty s : s <> "" -> or_default (Some s) "" = s.
Proof.
  intros H. apply truthy_str_some, truthy_str_true. eauto.
Qed.

Lemma set_devices_same db : set_devices (devices db) db = db.
Proof. destruct db. reflexivity. Qed.

Lemma key_in_row {A : Type} (k : string) (m : gmap string A) x :
  m !! k = Some x -> key_in k m = true.
Proof. unfold key_in. intros ->. reflexivity. Qed.


(** *** What a call that returns has done *)

Lemma findDeviceForAuth_some deviceId s devs res devs' :
  findDeviceForAuth deviceId s devs = Some (res, devs') ->
  (devs' = devs
   /\ (res = None
       \/ exists d, devs !! deviceId = Some d /\ truthy_str (device_secret d) = true
                    /\ device_secret d = Some s
                    /\ res = Some (device_id d, device_secret d)))
  \/ (exists d,
        devs !! deviceId = Some d /\ truthy_str (device_secret d) = false
        /\ s <> "" /\ 8 < String.length s /\ text_in s = true
        /\ res = Some (deviceId, Some s)
        /\ devs' = <[deviceId := set_device_secret (Some s) d]> devs).
Proof.
  unfold findDeviceForAuth, select_device, key_in.
  destruct (devs !! deviceId) as [d|] eqn:Hd.
  - destruct (truthy_str (device_secret d)) eqn:Ht; cbn [andb negb].
    + destruct (opt_str_eqb (device_secret d) s) eqn:E; intros H; injection H as <- <-.
      * apply opt_str_eqb_true in E. left. split; [reflexivity|]. right. exists d. tauto.
      * left. tauto.
    + destruct (s =? "") eqn:Es; cbn [andb negb].
      * intros H. injection H as <- <-. left. tauto.
      * destruct (8 <? String.length s)%nat eqn:El.
        -- destruct (text_in s) eqn:Et; [|discriminate].
           intros H. injection H as <- <-. right. exists d.
           apply String.eqb_neq in Es. apply Nat.ltb_lt in El. tauto.
        -- intros H. injection H as <- <-. left. tauto.
  - destruct (text_in deviceId); [|discriminate].
    intros H. injection H as <- <-. left. tauto.
Qed.

Lemma insert_command_some now fresh deviceId kind payload db db' :
  insert_command now fresh deviceId kind payload db = Some db' ->
  exists d j,
    devices db !! deviceId = Some d /\ text_in kind = true
    /\ jsonb_param payload = Some j
    /\ existsb (fun c => (cmd_id c =? fresh)%N) (device_commands db) = false
    /\ db' = set_commands
               (device_commands db
                  ++ [mkCommand fresh deviceId kind j queued now None None None])
               db.
Proof.
  unfold insert_command. destruct (devices db !! deviceId) as [d|]; [|discriminate].
  destruct (text_in kind); [|discriminate]. cbn [negb].
  destruct (jsonb_param payload) as [j|]; [|discriminate].
  destruct (existsb _ _) eqn:E; [discriminate|].
  intros H. injection H as <-. exists d, j. tauto.
Qed.

Lemma enqueue_cases now fresh id kind payload db :
  (snd (enqueue now fresh id kind payload db) = db
   /\ exists code error, fst (enqueue now fresh id kind payload db) = JsonError code error)
  \/ (fst (enqueue now fresh id kind payload db) = Json200 tt
      /\ truthy_str kind = true /\ typeof_object payload = true
      /\ insert_command now fresh id (or_default kind "") payload db
         = Some (snd (enqueue now fresh id kind payload db))).
Proof.
  unfold enqueue. destruct (truthy_str kind); cbn [negb orb]; [|left; eauto].
  destruct (typeof_object payload); cbn [negb]; [|left; eauto].
  destruct (insert_command _ _ _ _ _ _) as [db'|]; [right; tauto|left; eauto].
Qed.

Lemma register_cases now ip req db :
  (snd (register now ip req db) = db
   /\ exists code error, fst (register now ip req db) = JsonError code error)
  \/ exists id s,
       g_deviceId req = Some id /\ id <> "" /\ g_deviceSecret req = Some s /\ s <> ""
       /\ upsert_accepted ip req = true
       /\ ((jsonb_param (register_body req) = None
            /\ register now ip req db
               = (JsonError 500 "server",
                  set_devices
                    (upsert_device now ip id (g_info req) (Some s) (devices db)) db))
           \/ (jsonb_param (register_body req) <> None
               /\ register now ip req db
                  = (Json200 tt,
                     add_event (mkEvent id "register" now)
                       (set_devices
                          (upsert_device now ip id (g_info req) (Some s) (devices db))
                          db)))).
Proof.
  unfold register.
  destruct (truthy_str (g_deviceId req)) eqn:Eid; cbn [negb orb]; [|left; eauto].
  destruct (truthy_str (g_deviceSecret req)) eqn:Es; cbn [negb]; [|left; eauto].
  destruct (upsert_accepted ip req); cbn [negb]; [|left; eauto].
  apply truthy_str_true in Eid. destruct Eid as [id [Hid Hne]].
  apply truthy_str_true in Es. destruct Es as [s [Hs Hns]].
  right. exists id, s. rewrite Hid, Hs, (or_default_nonempty id Hne).
  repeat (split; [first [reflexivity|assumption]|]).
  destruct (jsonb_param (register_body req)); [right|left]; split;
    first [reflexivity|discriminate].
Qed.

Lemma set_status_cases now id st db :
  (snd (set_status now id st db) = db
   /\ exists code error, fst (set_status now id st db) = JsonError code error)
  \/ exists s,
       st = Some s /\ s <> "" /\ text_in s = true /\ key_in id (devices db) = true
       /\ set_status now id st db
          = (Json200 tt,
             set_devices
               (alter (fun d => mkDevice (device_id d) (info d) (device_secret d) s
                                  (first_seen_at d) (last_seen_at d) (Some now)
                                  (ip_last d))
                      id (devices db))
               db).
Proof.
  unfold set_status. destruct (truthy_str st) eqn:Et; cbn [negb]; [|left; eauto].
  apply truthy_str_true in Et. destruct Et as [s [-> Hs]].
  rewrite (or_default_nonempty s Hs).
  destruct (key_in id (devices db)); cbn [andb negb]; [|left; eauto].
  destruct (text_in s) eqn:Ets; cbn [negb]; [|left; eauto].
  right. exists s. repeat (split; [first [reflexivity|assumption]|]). reflexivity.
Qed.

Lemma post_note_cases now id note createdBy db :
  (snd (post_note now id note createdBy db) = db
   /\ exists code error, fst (post_note now id note createdBy db) = JsonError code error)
  \/ exists d,
       devices db !! id = Some d
       /\ trim (or_default note "") <> ""
       /\ post_note now id note createdBy db
          = (Json200 tt,
             add_note (mkNote id (trim (or_default note ""))
                         (or_default createdBy "admin") now) db).
Proof.
  unfold post_note.
  destruct (truthy_str note); cbn [negb orb]; [|left; eauto].
  destruct (String.eqb_spec (trim (or_default note "")) "") as [E|E]; [left; eauto|].
  destruct (devices db !! id) as [d|]; [|left; eauto].
  destruct (text_in _ && text_in _); [|left; eauto].
  right. exists d. repeat (split; [first [reflexivity|assumption]|]). reflexivity.
Qed.

Lemma get_device_same id db : snd (get_device id db) = db.
Proof.
  unfold get_device. destruct (select_device id (devices db)) as [[d|]|]; reflexivity.
Qed.

Lemma recordResult_some now commandId deviceId ok err cmds cmds' :
  recordResult now commandId deviceId ok err cmds = Some cmds' ->
  exists u,
    uuid_in commandId = Some u
    /\ cmds' = map (fun c => if result_matches u deviceId c
                             then finish now ok err c else c) cmds.
Proof.
  unfold recordResult. destruct (uuid_in commandId) as [u|]; [|discriminate].
  destruct (opt_text_in (result_error ok err)); [|discriminate].
  intros H. injection H as <-. exists u. split; reflexivity.
Qed.

(** ** C1: recording a result *)

(** C1, as stated, fails: a second report for a command that the first
    report already finished is not a no-op. Command A of device dev-1 is
    in status sent; the first report (succeeded, at time 300) makes it
    done, and no command is in status sent any more; the second report
    (failed with text boom, at time 400) changes the row again: status,
    done_at and error are those of the second report. *)
Lemma recordResult_second_report_overwrites :
  exists c1 c2,
    recordResult 300 uuid_A "dev-1" true None [command_A sent (Some 200%Z) None None]
      = Some [c1]
    /\ cmd_status c1 = done
    /\ recordResult 400 uuid_A "dev-1" false (Some "boom") [c1] = Some [c2]
    /\ [c2] <> [c1]
    /\ cmd_done_at c1 = Some 300%Z /\ cmd_done_at c2 = Some 400%Z
    /\ cmd_error c1 = None /\ cmd_error c2 = Some "boom"
    /\ cmd_status c2 = failed.
Proof.
  eexists. eexists.
  split; [vm_compute; reflexivity|].
  split; [reflexivity|].
  split; [vm_compute; reflexivity|].
  split; [discriminate|].
  repeat split; reflexivity.
Qed.

(** C1, amended: an id that does not read as a uuid makes the statement
    fail, and so does, for a failed command, an error text that holds the
    code unit 0. Otherwise the statement succeeds and the table keeps its
    rows, in their places:
    - every command with that id and the given deviceId carries,
      afterwards, the status, done_at and error of this call, whatever its
      status was, and keeps the rest;
    - every other command, of another id or another device, is unchanged;
    - so the table is left as it was when no command has that id and
      deviceId. *)
Theorem recordResult_by_id_and_device now commandId deviceId ok err cmds :
  match uuid_in commandId with
  | None => recordResult now commandId deviceId ok err cmds = None
  | Some u =>
      (ok = false /\ text_in (or_default err "error") = false ->
       recordResult now commandId deviceId ok err cmds = None)
      /\ (ok = true \/ text_in (or_default err "error") = true ->
          exists cmds',
            recordResult now commandId deviceId ok err cmds = Some cmds'
            /\ Forall2
                 (fun c c' =>
                    (cmd_id c = u /\ cmd_device_id c = deviceId ->
                     reported now ok err c c')
                    /\ (~ (cmd_id c = u /\ cmd_device_id c = deviceId) -> c' = c))
                 cmds cmds'
            /\ ((forall c, In c cmds ->
                            ~ (cmd_id c = u /\ cmd_device_id c = deviceId)) ->
                cmds' = cmds))
  end.
Proof.
  unfold recordResult. destruct (uuid_in commandId) as [u|]; [|reflexivity].
  split.
  - intros [-> Ht]. simpl. rewrite Ht. reflexivity.
  - intros Hok.
    assert (opt_text_in (result_error ok err) = true) as ->.
    { destruct ok; [reflexivity|]. destruct Hok as [H|H]; [discriminate H|exact H]. }
    eexists. split; [reflexivity|]. split.
    + induction cmds as [|c l IH]; simpl; constructor; [|exact IH].
      destruct (result_matches u deviceId c) eqn:E.
      * split; [|intros Hno; apply result_matches_true in E; destruct (Hno E)].
        intros _. unfold reported, finish, result_error. simpl.
        destruct ok; repeat split.
      * split; [|reflexivity].
        intros Hm. apply result_matches_true in Hm. congruence.
    + intros Hno. apply map_if_none. intros c Hc.
      destruct (result_matches u deviceId c) eqn:E; [|reflexivity].
      apply result_matches_true in E. destruct (Hno c Hc E).
Qed.

Lemma recordResult_by_id_and_device_witness :
  uuid_in uuid_A = Some 10%N
  /\ exists c',
       recordResult 400 uuid_A "dev-1" false (Some "boom")
         [command_A done (Some 200%Z) (Some 300%Z) None] = Some [c']
       /\ cmd_status c' = failed /\ cmd_done_at c' = Some 400%Z
       /\ cmd_error c' = Some "boom" /\ cmd_sent_at c' = Some 200%Z.
Proof.
  split; [reflexivity|].
  generalize (recordResult_by_id_and_device 400 uuid_A "dev-1" false (Some "boom")
                [command_A done (Some 200%Z) (Some 300%Z) None]).
  change (uuid_in uuid_A) with (Some 10%N).
  intros [_ H]. destruct (H (or_intror eq_refl)) as [cmds' [Hr [HF _]]].
  inversion HF as [|c c' l l' [Hup _] HF' E1 E2]. subst.
  inversion HF'. subst.
  exists c'. split; [exact Hr|].
  destruct (Hup (conj eq_refl eq_refl)) as [_ [_ [_ [_ [_ [Hs [Hst [Hd He]]]]]]]].
  repeat split; assumption.
Defined.

(** ** The dispatch statement: ordering and selection *)

Lemma insert_by_created_at_perm c l :
  Permutation (c :: l) (insert_by_created_at c l).
Proof.
  induction l as [|d l IH]; simpl; [apply Permutation_refl|].
  destruct (cmd_created_at c <=? cmd_created_at d)%Z; [apply Permutation_refl|].
  eapply perm_trans; [apply perm_swap|]. apply perm_skip. exact IH.
Qed.

Lemma order_by_created_at_perm l : Permutation l (order_by_created_at l).
Proof.
  induction l as [|c l IH]; simpl; [apply perm_nil|].
  eapply perm_trans; [apply perm_skip; exact IH|].
  apply insert_by_created_at_perm.
Qed.

Lemma insert_by_created_at_sorted c l :
  StronglySorted le_created l -> StronglySorted le_created (insert_by_created_at c l).
Proof.
  induction l as [|d l IH]; intros Hs; simpl.
  - constructor; constructor.
  - destruct (cmd_created_at c <=? cmd_created_at d)%Z eqn:E.
    + apply Z.leb_le in E. inversion Hs as [|? ? Hs' Hall]; subst.
      constructor; [exact Hs|]. constructor; [unfold le_created; lia|].
      eapply List.Forall_impl; [|exact Hall].
      intros a Ha. unfold le_created in *. lia.
    + apply Z.leb_gt in E. inversion Hs as [|? ? Hs' Hall]; subst.
      constructor; [apply IH; exact Hs'|].
      eapply Permutation_Forall; [apply insert_by_created_at_perm|].
      constructor; [unfold le_created; lia | exact Hall].
Qed.

Lemma order_by_created_at_sorted l : StronglySorted le_created (order_by_created_at l).
Proof.
  induction l as [|c l IH]; simpl; [constructor|].
  apply insert_by_created_at_sorted. exact IH.
Qed.

Lemma sorted_app_le (l1 l2 : list Command) :
  StronglySorted le_created (l1 ++ l2) ->
  forall a b, In a l1 -> In b l2 -> le_created a b.
Proof.
  induction l1 as [|x l1 IH]; intros Hs a b Ha Hb; [destruct Ha|].
  simpl in Hs. inversion Hs as [|? ? Hs' Hall]; subst.
  destruct Ha as [<-|Ha].
  - rewrite List.Forall_forall in Hall. apply Hall. apply in_or_app. right. exact Hb.
  - apply (IH Hs' a b Ha Hb).
Qed.

Lemma id_in_true ids c : id_in ids c = true <-> In (cmd_id c) ids.
Proof.
  unfold id_in. rewrite existsb_exists. split.
  - intros [u [Hu E]]. apply N.eqb_eq in E. rewrite E. exact Hu.
  - intros H. exists (cmd_id c). split; [exact H | apply N.eqb_refl].
Qed.

Lemma is_queued_for_true deviceId c :
  is_queued_for deviceId c = true <->
  cmd_device_id c = deviceId /\ cmd_status c = queued.
Proof.
  unfold is_queued_for. rewrite andb_true_iff, String.eqb_eq.
  destruct (cmd_status c); simpl; intuition congruence.
Qed.

Lemma unique_ids_inj cmds c1 c2 :
  unique_ids cmds -> In c1 cmds -> In c2 cmds -> cmd_id c1 = cmd_id c2 -> c1 = c2.
Proof.
  unfold unique_ids. induction cmds as [|c l IH]; intros Hnd H1 H2 E; [destruct H1|].
  simpl in Hnd. inversion Hnd as [|? ? Hnotin Hnd']; subst.
  destruct H1 as [<-|H1], H2 as [<-|H2].
  - reflexivity.
  - exfalso. apply Hnotin. rewrite E. apply in_map. exact H2.
  - exfalso. apply Hnotin. rewrite <- E. apply in_map. exact H1.
  - apply IH; assumption.
Qed.

Lemma NoDup_map_filter {A B : Type} (f : A -> B) (p : A -> bool) (l : list A) :
  List.NoDup (map f l) -> List.NoDup (map f (List.filter p l)).
Proof.
  induction l as [|x l IH]; intros H; simpl; [constructor|].
  simpl in H. inversion H as [|? ? Hnotin Hnd]; subst.
  destruct (p x); simpl; [|apply IH; exact Hnd].
  constructor; [|apply IH; exact Hnd].
  intros Hin. apply Hnotin. apply in_map_iff in Hin. destruct Hin as [y [Ey Hy]].
  apply filter_In in Hy. apply in_map_iff. exists y. tauto.
Qed.

Lemma NoDup_firstn {A : Type} (n : nat) (l : list A) :
  List.NoDup l -> List.NoDup (firstn n l).
Proof.
  intros H. rewrite <- (firstn_skipn n l) in H.
  apply NoDup_app_remove_r in H. exact H.
Qed.

Section Dispatch.

Variables (now : Z) (deviceId : string) (limit : Z) (cmds : list Command).

Let sorted := order_by_created_at (List.filter (is_queued_for deviceId) cmds).
Let chosen := firstn (Z.to_nat limit) sorted.
Let ids := select_queued_ids deviceId limit cmds.

Lemma in_sorted c :
  In c sorted <-> In c cmds /\ is_queued_for deviceId c = true.
Proof.
  unfold sorted. rewrite <- filter_In. split; intros H.
  - eapply Permutation_in; [apply Permutation_sym, order_by_created_at_perm|exact H].
  - eapply Permutation_in; [apply order_by_created_at_perm|exact H].
Qed.

Lemma ids_chosen u : In u ids <-> exists c, In c chosen /\ cmd_id c = u.
Proof.
  unfold ids, select_queued_ids. fold sorted. fold chosen.
  rewrite in_map_iff. split; intros [c [H1 H2]]; exists c; tauto.
Qed.

Lemma chosen_in_sorted c : In c chosen -> In c sorted.
Proof.
  intros H. rewrite <- (firstn_skipn (Z.to_nat limit) sorted).
  apply in_or_app. left. exact H.
Qed.

Lemma length_ids :
  List.length ids
  = Nat.min (Z.to_nat limit) (List.length (List.filter (is_queued_for deviceId) cmds)).
Proof.
  unfold ids, select_queued_ids. rewrite length_map, length_firstn.
  f_equal. symmetry. apply Permutation_length, order_by_created_at_perm.
Qed.

Hypothesis Hkey : unique_ids cmds.

Lemma ids_nodup : List.NoDup ids.
Proof.
  unfold ids, select_queued_ids. rewrite <- firstn_map. apply NoDup_firstn.
  eapply Permutation.Permutation_NoDup;
    [apply Permutation_map, order_by_created_at_perm|].
  apply NoDup_map_filter. exact Hkey.
Qed.

(** A selected id belongs to one row only, which is queued for the device. *)
Lemma selected_row c :
  In c cmds -> In (cmd_id c) ids -> In c chosen.
Proof.
  intros Hc Hin. apply ids_chosen in Hin. destruct Hin as [c0 [H0 E]].
  assert (c0 = c) as <-; [|exact H0].
  apply (unique_ids_inj cmds); [exact Hkey| |exact Hc|exact E].
  apply chosen_in_sorted in H0. apply in_sorted in H0. tauto.
Qed.

Lemma returned_ids :
  Permutation (map cmd_id (List.filter (id_in ids) cmds)) ids.
Proof.
  apply Permutation.NoDup_Permutation.
  - apply NoDup_map_filter. exact Hkey.
  - exact ids_nodup.
  - intros u. rewrite in_map_iff. split.
    + intros [c [E Hc]]. apply filter_In in Hc. destruct Hc as [_ Hc].
      apply id_in_true in Hc. rewrite <- E. exact Hc.
    + intros Hu. generalize Hu. intros Hu'. apply ids_chosen in Hu'.
      destruct Hu' as [c [Hc E]]. exists c. split; [exact E|].
      apply filter_In. split.
      * apply chosen_in_sorted in Hc. apply in_sorted in Hc. tauto.
      * apply id_in_true. rewrite E. exact Hu.
Qed.

Lemma earliest_first c c2 :
  In c chosen -> In c2 cmds -> is_queued_for deviceId c2 = true ->
  ~ In (cmd_id c2) ids -> le_created c c2.
Proof.
  intros Hc Hc2 Hq Hnot.
  assert (In c2 sorted) as Hs by (apply in_sorted; tauto).
  rewrite <- (firstn_skipn (Z.to_nat limit) sorted) in Hs.
  apply in_app_or in Hs. destruct Hs as [Hs|Hs].
  - exfalso. apply Hnot. apply ids_chosen. exists c2. split; [exact Hs|reflexivity].
  - apply (sorted_app_le chosen (skipn (Z.to_nat limit) sorted)); [|exact Hc|exact Hs].
    unfold chosen. rewrite firstn_skipn. apply order_by_created_at_sorted.
Qed.

End Dispatch.

Lemma clamp_max_spec max :
  clamp_max max = Z.min (Z.max max 1) 20 /\ (1 <= clamp_max max <= 20)%Z.
Proof. unfold clamp_max. lia. Qed.

Lemma returned_id_iff now deviceId limit cmds u :
  unique_ids cmds ->
  In u (map d_id (fst (takeNextBatch now deviceId limit cmds)))
  <-> In u (select_queued_ids deviceId limit cmds).
Proof.
  intros Hkey. unfold takeNextBatch. simpl. rewrite map_map. simpl.
  fold (map cmd_id (List.filter (id_in (select_queued_ids deviceId limit cmds)) cmds)).
  split; intros H.
  - eapply Permutation_in; [apply returned_ids; exact Hkey|exact H].
  - eapply Permutation_in; [apply Permutation_sym, returned_ids; exact Hkey|exact H].
Qed.

(** ** C6: taking the next batch *)

(** C6, as stated, fails in its tie-breaking clause. Commands B (id
    ...0b) and A (id ...0a) are queued for dev-1 with the same created_at,
    B first in the table. A batch of one delivers B, the command with the
    greater id, and leaves A queued: the statement orders by created_at
    only. *)
Lemma takeNextBatch_tie_not_broken_by_id :
  let cB := mkCommand 11%N "dev-1" "update" (JObj []) queued 100 None None None in
  let cA := mkCommand 10%N "dev-1" "ping" (JObj []) queued 100 None None None in
  cmd_created_at cA = cmd_created_at cB
  /\ (cmd_id cA < cmd_id cB)%N
  /\ takeNextBatch 200 "dev-1" (clamp_max 1) [cB; cA]
     = ([returning cB], [mark_sent 200 cB; cA]).
Proof.
  split; [reflexivity|]. split; [reflexivity|]. vm_compute. reflexivity.
Qed.

(** C6, amended: with unique command ids, the batch has exactly
    min(clamp(max), number of commands queued for the device) rows, hence
    at most min(max(max,1),20); every returned row is a command that was
    queued for this device and is afterwards in status sent with sent_at
    set to the time of the call and nothing else changed; no queued command
    of the device that was left behind was created before a returned one;
    every command that is not returned, and so every command of another
    device, is unchanged. Nothing orders commands of equal created_at by
    id. *)
Theorem takeNextBatch_earliest_queued now deviceId max cmds rows cmds' :
  unique_ids cmds ->
  takeNextBatch now deviceId (clamp_max max) cmds = (rows, cmds') ->
  (List.length rows <= Z.to_nat (Z.min (Z.max max 1) 20))%nat
  /\ List.length rows
     = Nat.min (Z.to_nat (clamp_max max))
         (List.length (List.filter (is_queued_for deviceId) cmds))
  /\ (forall d, In d rows ->
      exists c c',
        In c cmds /\ d = returning c
        /\ cmd_device_id c = deviceId /\ cmd_status c = queued
        /\ In c' cmds' /\ c' = mark_sent now c
        /\ cmd_status c' = sent /\ cmd_sent_at c' = Some now)
  /\ (forall c c2,
      In c cmds -> In (cmd_id c) (map d_id rows) ->
      In c2 cmds -> cmd_device_id c2 = deviceId -> cmd_status c2 = queued ->
      ~ In (cmd_id c2) (map d_id rows) ->
      (cmd_created_at c <= cmd_created_at c2)%Z)
  /\ (forall c, In c cmds -> ~ In (cmd_id c) (map d_id rows) -> In c cmds')
  /\ (forall c, In c cmds -> cmd_device_id c <> deviceId ->
      In c cmds' /\ ~ In (cmd_id c) (map d_id rows))
  /\ map cmd_id cmds' = map cmd_id cmds.
Proof.
  intros Hkey Hrun.
  pose proof (returned_id_iff now deviceId (clamp_max max) cmds) as Hret.
  rewrite Hrun in Hret. simpl in Hret.
  unfold takeNextBatch in Hrun. injection Hrun as Hrows Hcmds.
  set (ids := select_queued_ids deviceId (clamp_max max) cmds) in *.
  assert (forall c, In c cmds -> In (cmd_id c) ids ->
                    cmd_device_id c = deviceId /\ cmd_status c = queued) as Hsel.
  { intros c Hc Hin. apply is_queued_for_true.
    pose proof (selected_row deviceId (clamp_max max) cmds Hkey c Hc Hin) as Hch.
    apply chosen_in_sorted, in_sorted in Hch. tauto. }
  assert (forall c, In c cmds -> ~ In (cmd_id c) ids -> In c cmds') as Hrest.
  { intros c Hc Hnot. rewrite <- Hcmds. apply in_map_iff. exists c.
    split; [|exact Hc].
    destruct (id_in ids c) eqn:E; [|reflexivity].
    apply id_in_true in E. destruct (Hnot E). }
  assert (List.length rows = List.length ids) as Hlen.
  { rewrite <- Hrows, length_map.
    rewrite <- (length_map cmd_id).
    apply Permutation_length, returned_ids. exact Hkey. }
  split; [|split; [|split; [|split; [|split; [|split]]]]].
  - rewrite Hlen. unfold ids. rewrite length_ids.
    destruct (clamp_max_spec max) as [-> _]. apply Nat.le_min_l.
  - rewrite Hlen. apply length_ids.
  - intros d Hd. rewrite <- Hrows in Hd. apply in_map_iff in Hd.
    destruct Hd as [c [Ed Hc]]. apply filter_In in Hc. destruct Hc as [Hc Hin].
    exists c, (mark_sent now c).
    destruct (Hsel c Hc (proj1 (id_in_true ids c) Hin)) as [Hdev Hst].
    repeat split; try assumption; try (symmetry; assumption).
    rewrite <- Hcmds. apply in_map_iff. exists c. rewrite Hin. tauto.
  - intros c c2 Hc Hin Hc2 Hdev2 Hq2 Hnot.
    apply (earliest_first deviceId (clamp_max max) cmds c c2).
    + apply selected_row; [exact Hkey|exact Hc|]. apply Hret; [exact Hkey|exact Hin].
    + exact Hc2.
    + apply is_queued_for_true. tauto.
    + intros Hin2. apply Hnot. apply Hret; [exact Hkey|exact Hin2].
  - intros c Hc Hnot. apply Hrest; [exact Hc|].
    intros Hin. apply Hnot. apply Hret; [exact Hkey|exact Hin].
  - intros c Hc Hdev.
    assert (~ In (cmd_id c) ids) as Hnot.
    { intros Hin. destruct (Hsel c Hc Hin) as [E _]. contradiction. }
    split; [apply Hrest; assumption|].
    intros Hin. apply Hnot. apply Hret; [exact Hkey|exact Hin].
  - rewrite <- Hcmds, map_map. apply map_ext. intros c.
    destruct (id_in ids c); reflexivity.
Qed.

Lemma takeNextBatch_earliest_queued_witness :
  let cA := mkCommand 10%N "dev-1" "ping" (JObj []) queued 100 None None None in
  let cB := mkCommand 11%N "dev-1" "update" (JObj []) queued 101 None None None in
  unique_ids [cA; cB]
  /\ takeNextBatch 200 "dev-1" (clamp_max 1) [cA; cB]
     = ([returning cA], [mark_sent 200 cA; cB])
  /\ (List.length [returning cA] <= Z.to_nat (Z.min (Z.max 1 1) 20))%nat.
Proof.
  intros cA cB.
  assert (unique_ids [cA; cB]) as Hkey.
  { unfold unique_ids. simpl. constructor.
    - intros [H|[]]. discriminate H.
    - constructor; [intros []|constructor]. }
  assert (takeNextBatch 200 "dev-1" (clamp_max 1) [cA; cB]
          = ([returning cA], [mark_sent 200 cA; cB])) as Hrun
    by (vm_compute; reflexivity).
  split; [exact Hkey|]. split; [exact Hrun|].
  exact (proj1 (takeNextBatch_earliest_queued 200 "dev-1" 1 [cA; cB]
                  [returning cA] [mark_sent 200 cA; cB] Hkey Hrun)).
Defined.

(** ** C3: results are recorded before the next batch is taken *)

Lemma recordResult_in now commandId deviceId ok err cmds cmds' c' :
  recordResult now commandId deviceId ok err cmds = Some cmds' ->
  In c' cmds' ->
  exists u c, uuid_in commandId = Some u /\ In c cmds
    /\ ((result_matches u deviceId c = true /\ c' = finish now ok err c)
        \/ (result_matches u deviceId c = false /\ c' = c)).
Proof.
  intros H Hin. apply recordResult_some in H. destruct H as [u [Hu ->]].
  apply in_map_iff in Hin.
  destruct Hin as [c [E Hc]]. exists u, c. split; [exact Hu|]. split; [exact Hc|].
  destruct (result_matches u deviceId c); [left|right]; split; congruence.
Qed.

Lemma recordResult_keeps_not_queued now commandId deviceId ok err cmds cmds' u dev :
  recordResult now commandId deviceId ok err cmds = Some cmds' ->
  not_queued u dev cmds -> not_queued u dev cmds'.
Proof.
  intros H Hnq c' Hin Hid Hdev.
  destruct (recordResult_in _ _ _ _ _ _ _ _ H Hin) as [u0 [c [_ [Hc [[_ E]|[_ E]]]]]].
  - subst c'. simpl. destruct ok; discriminate.
  - subst c'. apply (Hnq c Hc Hid Hdev).
Qed.

Lemma recordResult_makes_not_queued now commandId deviceId ok err cmds cmds' u :
  recordResult now commandId deviceId ok err cmds = Some cmds' ->
  uuid_in commandId = Some u ->
  not_queued u deviceId cmds'.
Proof.
  intros H Hu c' Hin Hid Hdev.
  destruct (recordResult_in _ _ _ _ _ _ _ _ H Hin) as [u0 [c [Hu0 [Hc [[_ E]|[Hm E]]]]]].
  - subst c'. simpl. destruct ok; discriminate.
  - subst c'. rewrite Hu in Hu0. injection Hu0 as <-.
    assert (result_matches u deviceId c = true) as Hm'
      by (apply result_matches_true; split; assumption).
    congruence.
Qed.

Lemma record_results_reported clock i deviceId results cmds cmds' :
  record_results clock i deviceId results cmds = (true, cmds') ->
  (forall u, not_queued u deviceId cmds -> not_queued u deviceId cmds')
  /\ (forall e s, In (Some e) results -> r_id e = Some s -> s <> "" ->
      exists u, uuid_in s = Some u /\ not_queued u deviceId cmds').
Proof.
  revert i cmds. induction results as [|r rest IH]; intros i cmds H; simpl in H.
  - injection H as <-. split; [tauto|]. intros e s [].
  - destruct r as [e0|].
    + destruct (negb (truthy_str (r_id e0))) eqn:Et.
      * destruct (IH _ _ H) as [IH1 IH2]. split; [exact IH1|].
        intros e s [He|He] Hs Hne; [|apply (IH2 e s He Hs Hne)].
        injection He as <-. rewrite Hs in Et. simpl in Et.
        destruct (s =? "") eqn:E; [|discriminate].
        apply String.eqb_eq in E. contradiction.
      * destruct (recordResult (clock i) (or_default (r_id e0) "") deviceId
                    (truthy (r_ok e0)) (r_error e0) cmds) as [cmds1|] eqn:Hrec;
          [|discriminate].
        destruct (IH _ _ H) as [IH1 IH2]. split.
        -- intros u Hnq. apply IH1.
           apply (recordResult_keeps_not_queued _ _ _ _ _ _ _ _ _ Hrec Hnq).
        -- intros e s [He|He] Hs Hne; [|apply (IH2 e s He Hs Hne)].
           injection He as <-. rewrite Hs in Hrec.
           assert (or_default (Some s) "" = s) as Es.
           { simpl. destruct (s =? "") eqn:E; [|reflexivity].
             apply String.eqb_eq in E. contradiction. }
           rewrite Es in Hrec.
           destruct (recordResult_some _ _ _ _ _ _ _ Hrec) as [u [Hu _]].
           exists u. split; [exact Hu|]. apply IH1.
           apply (recordResult_makes_not_queued (clock i) s deviceId
                    (truthy (r_ok e0)) (r_error e0) cmds cmds1 u); [exact Hrec|exact Hu].
    + destruct (IH _ _ H) as [IH1 IH2]. split; [exact IH1|].
      intros e s [He|He] Hs Hne; [discriminate He|apply (IH2 e s He Hs Hne)].
Qed.

Lemma takeNextBatch_returns_queued now deviceId limit cmds d :
  In d (fst (takeNextBatch now deviceId limit cmds)) ->
  exists c, In c cmds /\ cmd_id c = d_id d
            /\ cmd_device_id c = deviceId /\ cmd_status c = queued.
Proof.
  unfold takeNextBatch. simpl. intros H. apply in_map_iff in H.
  destruct H as [c0 [Ed Hc0]]. apply filter_In in Hc0. destruct Hc0 as [_ Hin].
  apply id_in_true in Hin. apply ids_chosen in Hin. destruct Hin as [c [Hc E]].
  apply chosen_in_sorted, in_sorted in Hc. destruct Hc as [Hc Hq].
  apply is_queued_for_true in Hq. exists c. subst d. simpl. tauto.
Qed.

Lemma uuid_in_empty : uuid_in "" = None.
Proof. reflexivity. Qed.

(** C3: when a poll call answers with a batch, the results loop has run
    over the whole results list first and the batch is taken from the
    table that the loop has left; therefore no entry of the results list
    names a command of that batch: the loop has taken every command it
    names, for this device, out of status queued. *)
Theorem poll_never_returns_reported clock req db rows db' :
  poll clock req db = (Json200 rows, db') ->
  (exists cmds1,
     record_results clock 0 (or_default (p_deviceId req) "") (p_results req)
       (device_commands db) = (true, cmds1)
     /\ takeNextBatch (clock (List.length (p_results req)))
          (or_default (p_deviceId req) "")
          (clamp_max match p_max req with Some m => m | None => 5%Z end) cmds1
        = (rows, device_commands db'))
  /\ (forall e s d,
        In (Some e) (p_results req) -> r_id e = Some s -> In d rows ->
        uuid_in s <> Some (d_id d)).
Proof.
  unfold poll. intros H.
  destruct (negb (truthy_str (p_deviceId req)) || negb (truthy_str (p_deviceSecret req)));
    [discriminate|].
  destruct (findDeviceForAuth _ _ _) as [[[dev|] devs]|]; [|discriminate|discriminate].
  change (device_commands (set_devices devs db)) with (device_commands db) in H.
  destruct (record_results _ _ _ _ _) as [[|] cmds] eqn:Hrec; [|discriminate].
  destruct (takeNextBatch _ _ _ _) as [rows0 cmds0] eqn:Htake.
  injection H as <- <-. split.
  - exists cmds. split; [reflexivity|exact Htake].
  - intros e s d He Hs Hd Hu.
    assert (s <> "") as Hne by (intros ->; rewrite uuid_in_empty in Hu; discriminate).
    apply record_results_reported in Hrec. destruct Hrec as [_ Hrep].
    destruct (Hrep e s He Hs Hne) as [u [Hu' Hnq]].
    rewrite Hu in Hu'. injection Hu' as <-.
    pose proof (takeNextBatch_returns_queued
                  (clock (List.length (p_results req)))
                  (or_default (p_deviceId req) "")
                  (clamp_max match p_max req with Some m => m | None => 5%Z end)
                  cmds d) as Hq.
    rewrite Htake in Hq. destruct (Hq Hd) as [c [Hc [Eid [Edev Est]]]].
    apply (Hnq c Hc Eid Edev Est).
Qed.

(** ** C2: the status of a command over a run *)

Lemma advances_refl cmds : advances cmds cmds.
Proof.
  intros u. destruct (find_command u cmds) as [c|] eqn:E; [|reflexivity].
  exists c. split; [reflexivity|lia].
Qed.

Lemma advances_trans a b c : advances a b -> advances b c -> advances a c.
Proof.
  intros Hab Hbc u. specialize (Hab u). specialize (Hbc u).
  destruct (find_command u a) as [x|].
  - destruct Hab as [y [Ey Hxy]]. rewrite Ey in Hbc.
    destruct Hbc as [z [Ez Hyz]]. exists z. split; [exact Ez|lia].
  - rewrite Hab in Hbc. exact Hbc.
Qed.

Lemma advances_steps a b : advances a b -> steps a b.
Proof.
  intros H u. specialize (H u). destruct (find_command u a); [exact H|].
  left. exact H.
Qed.

Lemma find_command_map (f : Command -> Command) cmds u :
  (forall c, cmd_id (f c) = cmd_id c) ->
  find_command u (map f cmds) = option_map f (find_command u cmds).
Proof.
  intros Hf. unfold find_command. induction cmds as [|c l IH]; simpl; [reflexivity|].
  rewrite Hf. destruct (cmd_id c =? u)%N; [reflexivity|exact IH].
Qed.

Lemma find_command_in u cmds c :
  find_command u cmds = Some c -> In c cmds /\ cmd_id c = u.
Proof.
  intros H. apply find_some in H. destruct H as [H E].
  apply N.eqb_eq in E. tauto.
Qed.

Lemma find_command_absent u cmds :
  find_command u cmds = None <-> existsb (fun c => (cmd_id c =? u)%N) cmds = false.
Proof.
  unfold find_command. induction cmds as [|c l IH]; simpl; [tauto|].
  destruct (cmd_id c =? u)%N; simpl; [split; discriminate|exact IH].
Qed.

Lemma map_updates_advance (p : Command -> bool) (g : Command -> Command) cmds :
  (forall c, cmd_id (g c) = cmd_id c) ->
  (forall c, In c cmds -> p c = true -> rank (cmd_status c) <= rank (cmd_status (g c))) ->
  advances cmds (map (fun c => if p c then g c else c) cmds).
Proof.
  intros Hid Hrank u.
  rewrite find_command_map by (intros c; destruct (p c); [apply Hid|reflexivity]).
  destruct (find_command u cmds) as [c|] eqn:E; [|reflexivity].
  simpl. eexists. split; [reflexivity|].
  destruct (p c) eqn:Ep; [|lia].
  apply Hrank; [|exact Ep]. apply find_command_in in E. tauto.
Qed.

Lemma map_updates_ids (p : Command -> bool) (g : Command -> Command) cmds :
  (forall c, cmd_id (g c) = cmd_id c) ->
  map cmd_id (map (fun c => if p c then g c else c) cmds) = map cmd_id cmds.
Proof.
  intros Hid. rewrite map_map. apply map_ext. intros c.
  destruct (p c); [apply Hid|reflexivity].
Qed.

Lemma recordResult_advances now commandId deviceId ok err cmds cmds' :
  recordResult now commandId deviceId ok err cmds = Some cmds' ->
  advances cmds cmds' /\ map cmd_id cmds' = map cmd_id cmds.
Proof.
  intros H. apply recordResult_some in H. destruct H as [u [_ ->]]. split.
  - apply map_updates_advance; [reflexivity|].
    intros c _ _. simpl. destruct ok, (cmd_status c); simpl; lia.
  - apply map_updates_ids. reflexivity.
Qed.

Lemma record_results_advances clock i deviceId results cmds b cmds' :
  record_results clock i deviceId results cmds = (b, cmds') ->
  advances cmds cmds' /\ map cmd_id cmds' = map cmd_id cmds.
Proof.
  revert i cmds. induction results as [|r rest IH]; intros i cmds H; simpl in H.
  - injection H as _ <-. split; [apply advances_refl|reflexivity].
  - destruct r as [e|]; [|apply (IH _ _ H)].
    destruct (negb (truthy_str (r_id e))); [apply (IH _ _ H)|].
    destruct (recordResult _ _ _ _ _ _) as [cmds1|] eqn:Hrec.
    + apply recordResult_advances in Hrec. destruct Hrec as [Ha Hi].
      destruct (IH _ _ H) as [Ha' Hi']. split.
      * eapply advances_trans; eassumption.
      * congruence.
    + injection H as _ <-. split; [apply advances_refl|reflexivity].
Qed.

Lemma selected_is_queued deviceId limit cmds c :
  unique_ids cmds -> In c cmds ->
  In (cmd_id c) (select_queued_ids deviceId limit cmds) ->
  is_queued_for deviceId c = true.
Proof.
  intros Hkey Hc Hin.
  pose proof (selected_row deviceId limit cmds Hkey c Hc Hin) as Hch.
  apply chosen_in_sorted, in_sorted in Hch. tauto.
Qed.

Lemma takeNextBatch_advances now deviceId limit cmds :
  unique_ids cmds ->
  advances cmds (snd (takeNextBatch now deviceId limit cmds))
  /\ map cmd_id (snd (takeNextBatch now deviceId limit cmds)) = map cmd_id cmds.
Proof.
  intros Hkey. unfold takeNextBatch. simpl. split.
  - apply map_updates_advance; [reflexivity|].
    intros c Hc Hin. apply id_in_true in Hin.
    apply (selected_is_queued _ _ _ _ Hkey Hc) in Hin.
    apply is_queued_for_true in Hin. destruct Hin as [_ ->]. simpl. lia.
  - apply map_updates_ids. reflexivity.
Qed.

Lemma poll_commands clock req db :
  unique_ids (device_commands db) ->
  advances (device_commands db) (device_commands (snd (poll clock req db)))
  /\ map cmd_id (device_commands (snd (poll clock req db)))
     = map cmd_id (device_commands db).
Proof.
  intros Hkey. unfold poll.
  destruct (negb (truthy_str (p_deviceId req)) || negb (truthy_str (p_deviceSecret req)));
    [split; [apply advances_refl|reflexivity]|].
  destruct (findDeviceForAuth _ _ _) as [[[dev|] devs]|];
    [|simpl; split; [apply advances_refl|reflexivity]
     |simpl; split; [apply advances_refl|reflexivity]].
  destruct (record_results _ _ _ _ _) as [b cmds] eqn:Hrec.
  apply record_results_advances in Hrec. destruct Hrec as [Ha Hi].
  simpl in Ha, Hi. destruct b; [|simpl; tauto].
  assert (unique_ids cmds) as Hkey' by (unfold unique_ids; rewrite Hi; exact Hkey).
  pose proof (takeNextBatch_advances
                (clock (List.length (p_results req)))
                (or_default (p_deviceId req) "")
                (clamp_max match p_max req with Some m => m | None => 5%Z end)
                cmds Hkey') as [Ht Hti].
  destruct (takeNextBatch _ _ _ _) as [rows cmds0]. simpl in *. split.
  - eapply advances_trans; eassumption.
  - congruence.
Qed.

Lemma find_command_app u l1 l2 :
  find_command u (l1 ++ l2)
  = match find_command u l1 with
    | Some c => Some c
    | None => find_command u l2
    end.
Proof.
  unfold find_command. induction l1 as [|c l IH]; simpl; [reflexivity|].
  destruct (cmd_id c =? u)%N; [reflexivity|exact IH].
Qed.

Lemma enqueue_commands now fresh id kind payload db :
  unique_ids (device_commands db) ->
  steps (device_commands db) (device_commands (snd (enqueue now fresh id kind payload db)))
  /\ unique_ids (device_commands (snd (enqueue now fresh id kind payload db))).
Proof.
  intros Hkey.
  destruct (enqueue_cases now fresh id kind payload db) as [[-> _]|[_ [_ [_ Hins]]]];
    [split; [apply advances_steps, advances_refl|exact Hkey]|].
  apply insert_command_some in Hins.
  destruct Hins as [d [j [_ [_ [_ [Efresh ->]]]]]].
  simpl. split.
  - intros u. rewrite find_command_app.
    destruct (find_command u (device_commands db)) as [c|] eqn:E.
    + exists c. split; [reflexivity|lia].
    + unfold find_command at 1. simpl. destruct (fresh =? u)%N; [|left; reflexivity].
      right. eexists. split; reflexivity.
  - unfold unique_ids. rewrite map_app. simpl.
    apply List.NoDup_app; [exact Hkey|repeat constructor; intros []|].
    intros x Hx [<-|[]]. apply in_map_iff in Hx. destruct Hx as [c [Ec Hc]].
    assert (existsb (fun c => (cmd_id c =? fresh)%N) (device_commands db) = true) as Hex.
    { apply existsb_exists. exists c. split; [exact Hc|]. apply N.eqb_eq. exact Ec. }
    congruence.
Qed.

(** The requests that leave [device_commands] and [device_notes] alone. *)
Lemma register_tables now ip req db :
  device_commands (snd (register now ip req db)) = device_commands db
  /\ device_notes (snd (register now ip req db)) = device_notes db.
Proof.
  destruct (register_cases now ip req db)
    as [[-> _]|[id [s [_ [_ [_ [_ [_ [[_ ->]|[_ ->]]]]]]]]]]; split; reflexivity.
Qed.

Lemma set_status_tables now id st db :
  device_commands (snd (set_status now id st db)) = device_commands db
  /\ device_notes (snd (set_status now id st db)) = device_notes db.
Proof.
  destruct (set_status_cases now id st db) as [[-> _]|[s [_ [_ [_ [_ ->]]]]]];
    split; reflexivity.
Qed.

Lemma post_note_commands now id note createdBy db :
  device_commands (snd (post_note now id note createdBy db)) = device_commands db.
Proof.
  destruct (post_note_cases now id note createdBy db) as [[-> _]|[d [_ [_ ->]]]];
    reflexivity.
Qed.

Lemma handle_commands tok r db :
  unique_ids (device_commands db) ->
  steps (device_commands db) (device_commands (handle tok r db))
  /\ unique_ids (device_commands (handle tok r db)).
Proof.
  intros Hkey.
  assert (forall db', device_commands db' = device_commands db ->
            steps (device_commands db) (device_commands db')
            /\ unique_ids (device_commands db')) as Hsame.
  { intros db' ->. split; [apply advances_steps, advances_refl|exact Hkey]. }
  destruct r as [now ip req|clock req|auth now fresh id kind payload
                |auth now id st|auth now id note createdBy|auth id]; simpl.
  - apply Hsame. apply register_tables.
  - destruct (poll_commands clock req db Hkey) as [Ha Hi]. split.
    + apply advances_steps. exact Ha.
    + unfold unique_ids. rewrite Hi. exact Hkey.
  - destruct (adminAuth tok auth); simpl; [|apply Hsame; reflexivity].
    apply enqueue_commands. exact Hkey.
  - apply Hsame. destruct (adminAuth tok auth); simpl; [|reflexivity].
    apply set_status_tables.
  - apply Hsame. destruct (adminAuth tok auth); simpl; [|reflexivity].
    apply post_note_commands.
  - apply Hsame. destruct (adminAuth tok auth); simpl; [|reflexivity].
    rewrite get_device_same. reflexivity.
Qed.

Lemma status_history_bound tok u reqs db s0 :
  unique_ids (device_commands db) ->
  status_of u db = Some s0 ->
  Forall (rank_le s0) (status_history tok u reqs db).
Proof.
  revert db s0. induction reqs as [|r rest IH]; intros db s0 Hkey Hs; simpl; rewrite Hs.
  - simpl. constructor; [unfold rank_le; lia|constructor].
  - simpl. constructor; [unfold rank_le; lia|].
    destruct (handle_commands tok r db Hkey) as [Hstep Hkey'].
    specialize (Hstep u). unfold status_of in Hs.
    destruct (find_command u (device_commands db)) as [c|]; [|discriminate].
    injection Hs as <-. destruct Hstep as [c' [Ec' Hr]].
    assert (status_of u (handle tok r db) = Some (cmd_status c')) as Hs'
      by (unfold status_of; rewrite Ec'; reflexivity).
    eapply List.Forall_impl; [|apply (IH _ _ Hkey' Hs')].
    intros s Hle. unfold rank_le in *. lia.
Qed.

(** C2, as stated, fails. With command A (id ...0a) enqueued for dev-1
    and a poll of dev-1 that reports A as succeeded before A was ever
    delivered, the statuses of A are queued, then done: sent is skipped.
    With a poll that takes A, one that reports it succeeded and one that
    reports it failed, they are queued, sent, done, failed. Neither is a
    prefix of queued, sent, done or of queued, sent, failed. *)
Lemma status_history_not_a_prefix :
  let enqueue_A :=
    AdminEnqueue (Some "Bearer t0ken") 100 10%N "dev-1" (Some "ping") (JObj []) in
  let h1 :=
    status_history (Some "t0ken") 10%N
      [enqueue_A; DevicePoll (fun _ => 200%Z) (auth_1 5 [report uuid_A true None])] db_1 in
  let h2 :=
    status_history (Some "t0ken") 10%N
      [enqueue_A;
       DevicePoll (fun _ => 200%Z) (auth_1 5 []);
       DevicePoll (fun _ => 300%Z) (auth_1 5 [report uuid_A true None]);
       DevicePoll (fun _ => 400%Z) (auth_1 5 [report uuid_A false None])] db_1 in
  changes h1 = [queued; done]
  /\ is_prefix (changes h1) [queued; sent; done] = false
  /\ is_prefix (changes h1) [queued; sent; failed] = false
  /\ changes h2 = [queued; sent; done; failed]
  /\ is_prefix (changes h2) [queued; sent; done] = false
  /\ is_prefix (changes h2) [queued; sent; failed] = false.
Proof.
  vm_compute. repeat split; reflexivity.
Qed.

(** C2, amended: over any run of requests served one after the other,
    from a table with unique command ids, the status of a command never
    moves backward in the order queued < sent < done, failed (its history
    is sorted by rank), and a command that appears during the run appears
    as queued. The state sent may be skipped, and done and failed may
    replace each other. *)
Theorem status_never_moves_backward tok u reqs db :
  unique_ids (device_commands db) ->
  StronglySorted rank_le (status_history tok u reqs db)
  /\ (status_of u db = None ->
      forall s, hd_error (status_history tok u reqs db) = Some s -> s = queued).
Proof.
  revert db. induction reqs as [|r rest IH]; intros db Hkey.
  - simpl. split.
    + destruct (status_of u db); simpl; repeat constructor.
    + intros ->. simpl. discriminate.
  - destruct (handle_commands tok r db Hkey) as [Hstep Hkey'].
    destruct (IH _ Hkey') as [IHs IHq]. simpl. split.
    + destruct (status_of u db) as [s0|] eqn:Hs; simpl; [|exact IHs].
      constructor; [exact IHs|].
      pose proof (status_history_bound tok u (r :: rest) db s0 Hkey Hs) as Hb.
      simpl in Hb. rewrite Hs in Hb. simpl in Hb.
      inversion Hb; assumption.
    + intros Hnone. rewrite Hnone. simpl. intros s Hhd.
      specialize (Hstep u). unfold status_of in Hnone.
      destruct (find_command u (device_commands db)); [discriminate|].
      destruct Hstep as [Habs|[c' [Ec' Hq]]].
      * apply IHq; [|exact Hhd]. unfold status_of. rewrite Habs. reflexivity.
      * destruct rest as [|r' rest']; simpl in Hhd;
          unfold status_of in Hhd; rewrite Ec' in Hhd; simpl in Hhd;
          injection Hhd as <-; exact Hq.
Qed.

Lemma status_never_moves_backward_witness :
  unique_ids (device_commands db_1)
  /\ StronglySorted rank_le
       (status_history (Some "t0ken") 10%N
          [AdminEnqueue (Some "Bearer t0ken") 100 10%N "dev-1" (Some "ping") (JObj []);
           DevicePoll (fun _ => 200%Z) (auth_1 5 []);
           DevicePoll (fun _ => 300%Z) (auth_1 5 [report uuid_A true None])] db_1).
Proof.
  assert (unique_ids (device_commands db_1)) as Hkey by constructor.
  split; [exact Hkey|].
  exact (proj1 (status_never_moves_backward (Some "t0ken") 10%N _ db_1 Hkey)).
Defined.

(** ** C5: device authentication *)

(** C5, as stated, fails on two points. A secret of 16 characters
    presented for a deviceId that has no row is refused, although no hash
    is stored for it and the secret is long enough. And when the row exists
    without a secret, what the bootstrap persists is the secret itself, 16
    characters of plain text, not a digest of it. *)
Lemma findDeviceForAuth_no_row_and_plain_text :
  String.length secret_16 = 16
  /\ findDeviceForAuth "dev-9" secret_16 ∅ = Some (None, ∅)
  /\ option_map fst (findDeviceForAuth "dev-2" secret_16 {[ "dev-2" := device_2 ]})
     = Some (Some ("dev-2", Some secret_16))
  /\ match findDeviceForAuth "dev-2" secret_16 {[ "dev-2" := device_2 ]} with
     | Some (_, devs') => option_map device_secret (devs' !! "dev-2")
     | None => None
     end = Some (Some "0123456789abcdef").
Proof.
  split; [reflexivity|]. split; [reflexivity|]. split; vm_compute; reflexivity.
Qed.

(** C5, amended, for a deviceId and a secret given as text.
    [findDeviceForAuth] succeeds exactly when a row exists for the deviceId
    and either (a) its stored secret is non-empty and is the supplied
    secret, compared as text, or (b) it has no stored secret and the
    supplied secret is non-empty, longer than 8 characters and free of the
    code unit 0. It throws, which the poll handler answers with 500,
    exactly when the database refuses a statement: the lookup of a
    deviceId that has no row and holds the code unit 0, or, in case (b),
    the storing of a secret that holds it. In every other case it returns
    null, for Unauthorized. Case (a), every null and every exception leave
    the table unchanged; case (b) stores the supplied secret itself in the
    row, after which a call with any other secret returns null and changes
    nothing. *)
Theorem findDeviceForAuth_plain_secret deviceId s devs :
  let r := findDeviceForAuth deviceId s devs in
  ((exists dev devs', r = Some (Some dev, devs')) <->
   exists d, devs !! deviceId = Some d
     /\ ((truthy_str (device_secret d) = true /\ device_secret d = Some s)
         \/ (truthy_str (device_secret d) = false /\ s <> "" /\ 8 < String.length s
             /\ text_in s = true)))
  /\ (r = None <->
      (devs !! deviceId = None /\ text_in deviceId = false)
      \/ exists d, devs !! deviceId = Some d /\ truthy_str (device_secret d) = false
                   /\ s <> "" /\ 8 < String.length s /\ text_in s = false)
  /\ (forall res devs', r = Some (res, devs') ->
      (res = None -> devs' = devs)
      /\ (forall d, devs !! deviceId = Some d -> truthy_str (device_secret d) = true ->
          devs' = devs))
  /\ (forall d dev devs',
        devs !! deviceId = Some d -> truthy_str (device_secret d) = false ->
        r = Some (Some dev, devs') ->
        dev = (deviceId, Some s)
        /\ devs' = <[deviceId := set_device_secret (Some s) d]> devs
        /\ forall s', s' <> s ->
             findDeviceForAuth deviceId s' devs' = Some (None, devs')).
Proof.
  cbn zeta. split; [|split; [|split]].
  - split.
    + intros [dev [devs' H]]. apply findDeviceForAuth_some in H.
      destruct H as [[_ [H|[d [Hd [Ht [Hs _]]]]]]|[d [Hd [Ht [Hs [Hl [Hx _]]]]]]].
      * discriminate H.
      * exists d. tauto.
      * exists d. tauto.
    + intros [d [Hd H]]. unfold findDeviceForAuth, select_device.
      rewrite (key_in_row _ _ _ Hd), Hd.
      destruct H as [[Ht Hs]|[Ht [Hs [Hl Hx]]]]; rewrite Ht; cbn [andb negb].
      * apply opt_str_eqb_true in Hs. rewrite Hs. eauto.
      * apply String.eqb_neq in Hs. apply Nat.ltb_lt in Hl. rewrite Hs, Hl, Hx.
        cbn [andb negb]. eauto.
  - unfold findDeviceForAuth, select_device, key_in.
    destruct (devs !! deviceId) as [d|] eqn:Hd.
    + destruct (truthy_str (device_secret d)) eqn:Ht; cbn [andb negb].
      * destruct (opt_str_eqb (device_secret d) s); (split; [discriminate|]);
          intros [[H _]|[d0 [E [Ht0 _]]]]; try discriminate H;
          injection E as <-; congruence.
      * destruct (String.eqb_spec s "") as [Es|Es]; cbn [andb negb].
        { split; [discriminate|].
          intros [[H _]|[d0 [_ [_ [Hs _]]]]]; [discriminate H|contradiction]. }
        destruct (8 <? String.length s)%nat eqn:El.
        -- apply Nat.ltb_lt in El. destruct (text_in s) eqn:Hx.
           ++ split; [discriminate|].
              intros [[H _]|[d0 [_ [_ [_ [_ H]]]]]]; discriminate H.
           ++ split; [|reflexivity]. intros _. right. exists d. tauto.
        -- apply Nat.ltb_ge in El. split; [discriminate|].
           intros [[H _]|[d0 [_ [_ [_ [Hl _]]]]]]; [discriminate H|lia].
    + destruct (text_in deviceId) eqn:Hx.
      * split; [discriminate|].
        intros [[_ H]|[d0 [H _]]]; discriminate H.
      * split; [|reflexivity]. intros _. left. tauto.
  - intros res devs' H. apply findDeviceForAuth_some in H.
    destruct H as [[-> _]|[d [Hd [Ht [_ [_ [_ [-> _]]]]]]]].
    + split; reflexivity.
    + split; [discriminate|]. intros d0 E Ht0. congruence.
  - intros d dev devs' Hd Ht H. apply findDeviceForAuth_some in H.
    destruct H as [[_ [H|[d0 [E [Ht0 _]]]]]|[d0 [E [_ [Hs [_ [_ [Hres ->]]]]]]]].
    + discriminate H.
    + congruence.
    + assert (d0 = d) as -> by congruence. injection Hres as <-.
      split; [reflexivity|]. split; [reflexivity|].
      intros s' Hs'. unfold findDeviceForAuth, select_device, key_in.
      rewrite lookup_insert_eq. cbn [set_device_secret device_secret truthy_str].
      apply String.eqb_neq in Hs. rewrite Hs. cbn [negb andb opt_str_eqb].
      destruct (String.eqb_spec s s') as [E'|_]; [congruence|reflexivity].
Qed.

Lemma findDeviceForAuth_plain_secret_witness :
  exists dev devs',
    findDeviceForAuth "dev-2" secret_16 {[ "dev-2" := device_2 ]} = Some (Some dev, devs').
Proof.
  apply (proj2 (proj1 (findDeviceForAuth_plain_secret "dev-2" secret_16
                         {[ "dev-2" := device_2 ]}))).
  exists device_2. split; [reflexivity|]. right.
  split; [reflexivity|]. split; [discriminate|]. split; [|reflexivity].
  unfold secret_16. simpl. lia.
Defined.

(** ** Requests that do not write to [devices] *)

Lemma guarded_devices {A : Type} (g : gate) (h : Db -> reply A * Db) db :
  (forall db0, devices (snd (h db0)) = devices db0) ->
  devices (snd (guarded g h db)) = devices db.
Proof.
  intros Hh. destruct g; simpl; [apply Hh|reflexivity].
Qed.

Lemma enqueue_devices now fresh id kind payload db :
  devices (snd (enqueue now fresh id kind payload db)) = devices db.
Proof.
  destruct (enqueue_cases now fresh id kind payload db) as [[-> _]|[_ [_ [_ H]]]];
    [reflexivity|].
  apply insert_command_some in H. destruct H as [d [j [_ [_ [_ [_ ->]]]]]]. reflexivity.
Qed.

Lemma post_note_devices now id note createdBy db :
  devices (snd (post_note now id note createdBy db)) = devices db.
Proof.
  destruct (post_note_cases now id note createdBy db) as [[-> _]|[d [_ [_ ->]]]];
    reflexivity.
Qed.

Lemma get_device_devices id db : devices (snd (get_device id db)) = devices db.
Proof. rewrite get_device_same. reflexivity. Qed.

Create HintDb devices_kept.
#[local] Hint Resolve enqueue_devices post_note_devices get_device_devices : devices_kept.

(** Closes the cases of the admin requests that leave [devices] alone. *)
Ltac devices_kept H :=
  rewrite guarded_devices by auto with devices_kept; exact H.

(** The [devices] table after a register call. *)
Lemma register_devices now ip req db :
  devices (snd (register now ip req db))
  = if truthy_str (g_deviceId req) && truthy_str (g_deviceSecret req)
       && upsert_accepted ip req
    then upsert_device now ip (or_default (g_deviceId req) "") (g_info req)
           (g_deviceSecret req) (devices db)
    else devices db.
Proof.
  unfold register.
  destruct (truthy_str (g_deviceId req)); cbn [negb orb andb]; [|reflexivity].
  destruct (truthy_str (g_deviceSecret req)); cbn [negb orb andb]; [|reflexivity].
  destruct (upsert_accepted ip req); cbn [negb]; [|reflexivity].
  destruct (jsonb_param (register_body req)); reflexivity.
Qed.

(** ** C9: who may overwrite a recorded secret *)


Lemma poll_devices clock req db :
  devices (snd (poll clock req db)) = devices db
  \/ exists res,
       findDeviceForAuth (or_default (p_deviceId req) "")
         (or_default (p_deviceSecret req) "") (devices db)
       = Some (res, devices (snd (poll clock req db))).
Proof.
  unfold poll.
  destruct (negb (truthy_str (p_deviceId req)) || negb (truthy_str (p_deviceSecret req)));
    [left; reflexivity|].
  destruct (findDeviceForAuth _ _ _) as [[[dev|] devs]|]; [| |left; reflexivity].
  - right. exists (Some dev).
    destruct (record_results _ _ _ _ _) as [[|] cmds]; [|reflexivity].
    destruct (takeNextBatch _ _ _ _) as [rows cmds']. reflexivity.
  - right. exists None. reflexivity.
Qed.




(** ** C10: polling for a device that has no row *)





(** ** C7: enqueuing a command *)

(** C7, as stated, fails: enqueuing for the deviceId ghost, which has no
    row, with a valid kind and payload, is answered with 500, a server
    error, not with NotFound; no command row is created. *)
Lemma enqueue_unknown_device_is_server_error :
  devices db_1 !! "ghost" = None
  /\ enqueue 100 10%N "ghost" (Some "ping") (JObj []) db_1
     = (JsonError 500 "server", db_1)
  /\ kind_of_code 500 = ServerError.
Proof.
  split; [reflexivity|]. split; [|reflexivity]. vm_compute. reflexivity.
Qed.

Lemma jsonb_param_refused payload :
  typeof_object payload = true ->
  (jsonb_param payload = None <->
   payload = JNull
   \/ (exists x items, payload = JArr (x :: items))
   \/ (exists fields, payload = JObj fields /\ json_text_in (json_wire payload) = false)).
Proof.
  intros Ho. destruct payload as [| |b|n|s|[|x items]|fields]; try discriminate Ho.
  - split; [tauto|reflexivity].
  - split; [discriminate|].
    intros [H|[[x [l H]]|[f [H _]]]]; discriminate H.
  - split; [|reflexivity]. intros _. right. left. eauto.
  - unfold jsonb_param. destruct (json_text_in (json_wire (JObj fields))) eqn:E.
    + split; [discriminate|].
      intros [H|[[x [l H]]|[f [_ H]]]]; discriminate H.
    + split; [|reflexivity]. intros _. right. right. exists fields. tauto.
Qed.

(** C7, amended, for a kind given as text. The kind and the payload are
    checked first: an empty or missing kind, or a payload whose typeof is
    not object, is answered with 400 and nothing is inserted. Past that
    check the reply is 500 and no command row is created when the insert
    fails: on the foreign key, for a deviceId that has no row (there is no
    404); on the kind, when it holds the code unit 0; on the payload, when
    it is null, a non-empty array, or an object with that code unit in a
    string or a key; on the primary key. Otherwise, with a non-empty kind
    and a payload that the database takes, an existing device and a fresh
    id, the reply is ok and one command is appended, with status queued,
    created_at the time of the call, sent_at, done_at and error empty, and
    as payload what jsonb keeps of the one given. *)
Theorem enqueue_outcomes now fresh id kind payload db :
  (truthy_str kind = false \/ typeof_object payload = false ->
   enqueue now fresh id kind payload db = (JsonError 400 "kind/payload required", db))
  /\ (truthy_str kind = true -> typeof_object payload = true ->
      devices db !! id = None
      \/ text_in (or_default kind "") = false
      \/ jsonb_param payload = None
      \/ find_command fresh (device_commands db) <> None ->
      enqueue now fresh id kind payload db = (JsonError 500 "server", db))
  /\ (typeof_object payload = true ->
      (jsonb_param payload = None <->
       payload = JNull
       \/ (exists x items, payload = JArr (x :: items))
       \/ (exists fields,
             payload = JObj fields /\ json_text_in (json_wire payload) = false)))
  /\ (forall k j,
        kind = Some k -> k <> "" -> text_in k = true ->
        typeof_object payload = true -> jsonb_param payload = Some j ->
        is_Some (devices db !! id) ->
        find_command fresh (device_commands db) = None ->
        enqueue now fresh id kind payload db
        = (Json200 tt,
           set_commands
             (device_commands db
                ++ [mkCommand fresh id k j queued now None None None])
             db)).
Proof.
  split; [|split; [|split]].
  - unfold enqueue. intros [H|H]; rewrite H; simpl; [reflexivity|].
    rewrite orb_true_r. reflexivity.
  - intros Hk Hp Hfail. unfold enqueue. rewrite Hk, Hp. cbn [negb orb].
    destruct (insert_command _ _ _ _ _ _) as [db'|] eqn:Hins; [|reflexivity].
    exfalso. apply insert_command_some in Hins.
    destruct Hins as [d [j [Hd [Ht [Hj [Hf _]]]]]].
    destruct Hfail as [H|[H|[H|H]]]; try congruence.
    apply H. apply find_command_absent. exact Hf.
  - apply jsonb_param_refused.
  - intros k j -> Hk Ht Hp Hj [d Hd] Hfresh. unfold enqueue.
    assert (truthy_str (Some k) = true) as Tk by (apply truthy_str_true; eauto).
    rewrite Tk, Hp, (or_default_nonempty k Hk). cbn [negb orb].
    unfold insert_command. rewrite Hd, Ht, Hj. cbn [negb].
    apply find_command_absent in Hfresh. rewrite Hfresh. reflexivity.
Qed.

Lemma enqueue_outcomes_witness :
  enqueue 100 10%N "dev-1" (Some "ping") (JObj [("n", JStr "1")]) db_1
  = (Json200 tt,
     set_commands
       [mkCommand 10%N "dev-1" "ping" (JObj [("n", JStr "1")]) queued 100 None None None]
       db_1).
Proof.
  apply (proj2 (proj2 (proj2 (enqueue_outcomes 100 10%N "dev-1" (Some "ping")
                                (JObj [("n", JStr "1")]) db_1)))
           "ping" (JObj [("n", JStr "1")]) eq_refl).
  - discriminate.
  - reflexivity.
  - reflexivity.
  - reflexivity.
  - exists device_1. reflexivity.
  - reflexivity.
Defined.

(** ** C8: admin authentication *)

(** C8, as stated, fails for the server that has the command queue: with
    no ADMIN_TOKEN configured its [adminAuth] lets every request through,
    so a request without any credential enqueues a command for dev-1. *)
Lemma adminAuth_open_without_token :
  adminAuth None None = Next
  /\ adminAuth None (Some "Bearer anything") = Next
  /\ fst (guarded (adminAuth None None)
            (enqueue 100 10%N "dev-1" (Some "ping") (JObj [])) db_1)
     = Json200 tt
  /\ List.length
       (device_commands
          (handle None (AdminEnqueue None 100 10%N "dev-1" (Some "ping") (JObj [])) db_1))
     = 1.
Proof.
  vm_compute. repeat split; reflexivity.
Qed.

(** C8, amended: in the earlier server, [adminAuth] answers 503 when no
    admin token is configured, lets a request through exactly when a token
    is configured and the Authorization header is Bearer, one space and
    that token, and answers 401 otherwise; a request that is not let
    through never reaches the handler. In the server with the command
    queue, [adminAuth] lets a request through when no admin token is
    configured, or when the configured token equals the header with a
    leading Bearer and the surrounding blanks removed, and answers 401
    otherwise (never 503); there too a rejected request never reaches the
    handler. *)
Theorem adminAuth_outcomes tok auth :
  (truthy_str tok = false ->
   Legacy.adminAuth tok auth = Reject 503 "admin_not_configured")
  /\ (Legacy.adminAuth tok auth = Next <->
      exists t, tok = Some t /\ t <> "" /\ auth = Some ("Bearer " ++ t)%string)
  /\ (truthy_str tok = true -> Legacy.adminAuth tok auth <> Next ->
      Legacy.adminAuth tok auth = Reject 401 "unauthorized")
  /\ (forall (A : Type) (h : Legacy.Db -> reply A * Legacy.Db) ldb,
        Legacy.adminAuth tok auth <> Next ->
        snd (Legacy.guarded (Legacy.adminAuth tok auth) h ldb) = ldb
        /\ exists code error,
             fst (Legacy.guarded (Legacy.adminAuth tok auth) h ldb) = JsonError code error
             /\ (code = 401 \/ code = 503))
  /\ (adminAuth tok auth = Next <->
      truthy_str tok = false
      \/ tok = Some (trim (strip_bearer (or_default auth ""))))
  /\ (adminAuth tok auth <> Next -> adminAuth tok auth = Reject 401 "unauthorized")
  /\ (forall (A : Type) (h : Db -> reply A * Db) db,
        adminAuth tok auth <> Next ->
        guarded (adminAuth tok auth) h db = (JsonError 401 "unauthorized", db)).
Proof.
  assert (Legacy.adminAuth tok auth = Next <->
          exists t, tok = Some t /\ t <> "" /\ auth = Some ("Bearer " ++ t)%string) as HL.
  { unfold Legacy.adminAuth. split.
    - destruct (or_default tok "" =? "") eqn:E; [discriminate|].
      apply String.eqb_neq in E.
      destruct (or_default auth "" =? ("Bearer " ++ or_default tok "")%string) eqn:Eh;
        [|discriminate].
      apply String.eqb_eq in Eh. intros _.
      destruct tok as [t|]; simpl in E; [|contradiction].
      destruct (t =? "") eqn:Et; [contradiction|].
      exists t. split; [reflexivity|]. split; [apply String.eqb_neq; exact Et|].
      simpl in Eh. rewrite Et in Eh.
      destruct auth as [a|]; simpl in Eh; [|discriminate].
      destruct (a =? "") eqn:Ea; [discriminate|]. congruence.
    - intros [t [-> [Ht ->]]]. simpl.
      apply String.eqb_neq in Ht. rewrite Ht. simpl. rewrite Ht.
      rewrite String.eqb_refl. reflexivity. }
  assert (Legacy.adminAuth tok auth <> Next ->
          Legacy.adminAuth tok auth = Reject 503 "admin_not_configured"
          \/ Legacy.adminAuth tok auth = Reject 401 "unauthorized") as HLr.
  { unfold Legacy.adminAuth. destruct (or_default tok "" =? ""); [tauto|].
    destruct (or_default auth "" =? ("Bearer " ++ or_default tok "")%string); tauto. }
  assert (adminAuth tok auth <> Next -> adminAuth tok auth = Reject 401 "unauthorized")
    as HMr.
  { unfold adminAuth.
    destruct (negb (truthy_str tok)
              || opt_str_eqb tok (trim (strip_bearer (or_default auth "")))); tauto. }
  split; [|split; [|split; [|split; [|split; [|split]]]]].
  - intros Ht. unfold Legacy.adminAuth.
    destruct tok as [t|]; simpl in *; [|reflexivity].
    destruct (t =? "") eqn:Et; [|discriminate]. reflexivity.
  - exact HL.
  - intros Ht Hne. destruct (HLr Hne) as [H|H]; [|exact H].
    exfalso. unfold Legacy.adminAuth in H.
    apply truthy_str_true in Ht. destruct Ht as [t [-> Hnt]]. simpl in H.
    apply String.eqb_neq in Hnt. rewrite Hnt in H. simpl in H. rewrite Hnt in H.
    destruct (or_default auth "" =? ("Bearer " ++ t)%string); discriminate.
  - intros A h ldb Hne. destruct (HLr Hne) as [H|H]; rewrite H; simpl.
    + split; [reflexivity|]. exists 503, "admin_not_configured". tauto.
    + split; [reflexivity|]. exists 401, "unauthorized". tauto.
  - unfold adminAuth. split.
    + destruct (truthy_str tok) eqn:Et; simpl; [|tauto].
      destruct (opt_str_eqb tok (trim (strip_bearer (or_default auth "")))) eqn:E;
        [|discriminate].
      apply opt_str_eqb_true in E. tauto.
    + intros [H|H].
      * rewrite H. reflexivity.
      * apply opt_str_eqb_true in H. rewrite H, orb_true_r. reflexivity.
  - exact HMr.
  - intros A h db Hne. rewrite (HMr Hne). reflexivity.
Qed.

(** ** Witness of C3 and delivery at most once in a sequential run *)

Lemma poll_never_returns_reported_witness :
  let cB := mkCommand 11%N "dev-1" "update" (JObj []) queued 101 None None None in
  let db := set_commands [command_A sent (Some 200%Z) None None; cB] db_1 in
  let req := auth_1 5 [report uuid_A true None] in
  fst (poll (fun _ => 300%Z) req db) = Json200 [returning cB]
  /\ In (report uuid_A true None) (p_results req)
  /\ uuid_in uuid_A <> Some (d_id (returning cB)).
Proof.
  intros cB db req.
  assert (fst (poll (fun _ => 300%Z) req db) = Json200 [returning cB]) as Hf
    by (vm_compute; reflexivity).
  split; [exact Hf|]. split; [left; reflexivity|].
  destruct (poll (fun _ => 300%Z) req db) as [r db'] eqn:E. simpl in Hf. subst r.
  apply (proj2 (poll_never_returns_reported (fun _ => 300%Z) req db [returning cB] db' E)
           (mkResult (Some uuid_A) (JBool true) None) uuid_A (returning cB)).
  - left. reflexivity.
  - reflexivity.
  - left. reflexivity.
Defined.

Lemma find_command_present u cmds c :
  In c cmds -> cmd_id c = u -> exists c0, find_command u cmds = Some c0.
Proof.
  intros Hc E. destruct (find_command u cmds) as [c0|] eqn:F; [exists c0; reflexivity|].
  unfold find_command in F. apply (find_none _ _ F) in Hc.
  apply N.eqb_neq in Hc. contradiction.
Qed.

(** In a run where requests are served one after the other, a command
    returned by one batch is not returned by a later batch, for any device
    and whatever result reports come in between. *)
Lemma takeNextBatch_delivers_once now deviceId limit cmds now' deviceId' limit' cmds2 :
  unique_ids cmds ->
  advances (snd (takeNextBatch now deviceId limit cmds)) cmds2 ->
  map cmd_id cmds2 = map cmd_id cmds ->
  forall d1 d2,
    In d1 (fst (takeNextBatch now deviceId limit cmds)) ->
    In d2 (fst (takeNextBatch now' deviceId' limit' cmds2)) ->
    d_id d1 <> d_id d2.
Proof.
  intros Hkey Hadv Hids d1 d2 H1 H2 E.
  assert (unique_ids cmds2) as Hkey2 by (unfold unique_ids; rewrite Hids; exact Hkey).
  apply takeNextBatch_returns_queued in H2.
  destruct H2 as [c2 [Hc2 [Eid2 [_ Hq2]]]].
  unfold takeNextBatch in H1, Hadv. simpl in H1, Hadv.
  apply in_map_iff in H1. destruct H1 as [c1 [Ed1 Hc1]].
  apply filter_In in Hc1. destruct Hc1 as [Hc1 Hin1].
  destruct (find_command_present (cmd_id c1) cmds c1 Hc1 eq_refl) as [c0 F0].
  pose proof (find_command_in _ _ _ F0) as [Hc0 E0].
  assert (c0 = c1) as -> by (apply (unique_ids_inj cmds); assumption).
  specialize (Hadv (cmd_id c1)).
  rewrite find_command_map in Hadv
    by (intros c; destruct (id_in _ c); reflexivity).
  rewrite F0 in Hadv. simpl in Hadv. rewrite Hin1 in Hadv.
  destruct Hadv as [c' [F' Hrank]]. simpl in Hrank.
  pose proof (find_command_in _ _ _ F') as [Hc' E'].
  assert (c' = c2) as ->.
  { apply (unique_ids_inj cmds2); try assumption.
    rewrite E', Eid2, <- E, <- Ed1. reflexivity. }
  rewrite Hq2 in Hrank. simpl in Hrank. lia.
Qed.

(** ** Instances at concrete requests *)

Lemma adminAuth_outcomes_witness :
  Legacy.adminAuth None (Some "Bearer t0ken") = Reject 503 "admin_not_configured"
  /\ Legacy.adminAuth (Some "t0ken") (Some "Bearer t0ken") = Next
  /\ adminAuth (Some "t0ken") (Some "Bearer nope") = Reject 401 "unauthorized".
Proof.
  split; [|split].
  - apply (proj1 (adminAuth_outcomes None (Some "Bearer t0ken"))). reflexivity.
  - apply (proj1 (proj2 (adminAuth_outcomes (Some "t0ken") (Some "Bearer t0ken")))).
    exists "t0ken". split; [reflexivity|]. split; [discriminate|reflexivity].
  - apply (proj1 (proj2 (proj2 (proj2 (proj2 (proj2
             (adminAuth_outcomes (Some "t0ken") (Some "Bearer nope")))))))).
    discriminate.
Defined.

(** * Further properties of the code *)

(** ** Blanks: [trim] *)

Lemma trim_start_fixed a r : is_space a = false -> trim_start (String a r) = String a r.
Proof. intros H. simpl. rewrite H. reflexivity. Qed.

Lemma trim_start_head s :
  trim_start s = EmptyString
  \/ exists a r, trim_start s = String a r /\ is_space a = false.
Proof.
  induction s as [|a r IH]; simpl; [left; reflexivity|].
  destruct (is_space a) eqn:E; [exact IH|].
  right. exists a, r. split; [reflexivity|exact E].
Qed.

Lemma trim_end_head a r :
  is_space a = false -> exists r', trim_end (String a r) = String a r'.
Proof.
  intros H. simpl. destruct (trim_end r) as [|b r'].
  - rewrite H. exists EmptyString. reflexivity.
  - exists (String b r'). reflexivity.
Qed.

Lemma trim_end_idem s : trim_end (trim_end s) = trim_end s.
Proof.
  induction s as [|a r IH]; simpl; [reflexivity|].
  destruct (trim_end r) as [|b r'] eqn:E.
  - destruct (is_space a) eqn:Ea; simpl; [reflexivity|]. rewrite Ea. reflexivity.
  - remember (String b r') as t eqn:Et. simpl. rewrite IH, Et. reflexivity.
Qed.

Lemma trim_idem s : trim (trim s) = trim s.
Proof.
  unfold trim. destruct (trim_start_head s) as [E|[a [r [E Ha]]]]; rewrite E.
  - reflexivity.
  - destruct (trim_end_head a r Ha) as [r' E']. rewrite E'.
    rewrite trim_start_fixed by exact Ha. rewrite <- E'. apply trim_end_idem.
Qed.

Lemma in_chars_append c s1 s2 :
  In c (list_ascii_of_string (s1 ++ s2))
  <-> In c (list_ascii_of_string s1) \/ In c (list_ascii_of_string s2).
Proof.
  induction s1 as [|a r IH]; simpl; [tauto|]. rewrite IH. tauto.
Qed.

Lemma trim_start_chars c s :
  In c (list_ascii_of_string (trim_start s)) -> In c (list_ascii_of_string s).
Proof.
  induction s as [|a r IH]; simpl; [tauto|].
  destruct (is_space a); simpl; tauto.
Qed.

Lemma trim_end_chars c s :
  In c (list_ascii_of_string (trim_end s)) -> In c (list_ascii_of_string s).
Proof.
  induction s as [|a r IH]; simpl; [tauto|].
  destruct (trim_end r) as [|b r'].
  - destruct (is_space a); simpl; tauto.
  - simpl in *. tauto.
Qed.

Lemma trim_chars c s :
  In c (list_ascii_of_string (trim s)) -> In c (list_ascii_of_string s).
Proof.
  unfold trim. intros H. apply trim_start_chars, trim_end_chars. exact H.
Qed.

(** ** The dashboard script: [escapeHtml] and the pager *)

Lemma escape_char_cases c :
  (escape_char c = String c EmptyString
   /\ c <> "&"%char /\ c <> "<"%char /\ c <> ">"%char /\ c <> "034"%char /\ c <> "'"%char)
  \/ (c = "&"%char /\ escape_char c = "&amp;")
  \/ (c = "<"%char /\ escape_char c = "&lt;")
  \/ (c = ">"%char /\ escape_char c = "&gt;")
  \/ (c = "034"%char /\ escape_char c = "&quot;")
  \/ (c = "'"%char /\ escape_char c = "&#39;").
Proof.
  unfold escape_char.
  destruct (Ascii.eqb_spec c "&"); [subst; tauto|].
  destruct (Ascii.eqb_spec c "<"); [subst; tauto|].
  destruct (Ascii.eqb_spec c ">"); [subst; tauto|].
  destruct (Ascii.eqb_spec c "034"); [subst; tauto|].
  destruct (Ascii.eqb_spec c "'"); [subst; tauto|].
  left. tauto.
Qed.

(** X1: the text that [escapeHtml] returns holds no angle bracket and no
    quote, single or double, whatever the input. *)
Theorem escapeHtml_no_markup s c :
  In c (list_ascii_of_string (escapeHtml s)) ->
  c <> "<"%char /\ c <> ">"%char /\ c <> "034"%char /\ c <> "'"%char.
Proof.
  induction s as [|a r IH]; simpl; [tauto|].
  rewrite in_chars_append. intros [H|H]; [|apply IH; exact H].
  destruct (escape_char_cases a)
    as [[E Hn]|[[_ E]|[[_ E]|[[_ E]|[[_ E]|[_ E]]]]]]; rewrite E in H; simpl in H.
  - destruct H as [<-|[]]. tauto.
  - repeat (destruct H as [<-|H]; [repeat split; discriminate|]). destruct H.
  - repeat (destruct H as [<-|H]; [repeat split; discriminate|]). destruct H.
  - repeat (destruct H as [<-|H]; [repeat split; discriminate|]). destruct H.
  - repeat (destruct H as [<-|H]; [repeat split; discriminate|]). destruct H.
  - repeat (destruct H as [<-|H]; [repeat split; discriminate|]). destruct H.
Qed.

Lemma escapeHtml_no_markup_witness :
  In "t"%char (list_ascii_of_string (escapeHtml "<b>"))
  /\ "t"%char <> "<"%char.
Proof.
  assert (In "t"%char (list_ascii_of_string (escapeHtml "<b>"))) as H
    by (simpl; tauto).
  split; [exact H|].
  exact (proj1 (escapeHtml_no_markup "<b>" "t"%char H)).
Defined.

(** X2: [escapeHtml] loses nothing: two texts with the same escaped form
    are the same text. *)
Theorem escapeHtml_injective s1 s2 :
  escapeHtml s1 = escapeHtml s2 -> s1 = s2.
Proof.
  revert s2. induction s1 as [|a r1 IH]; intros [|b r2]; simpl; intros H.
  - reflexivity.
  - exfalso.
    destruct (escape_char_cases b)
      as [[E _]|[[_ E]|[[_ E]|[[_ E]|[[_ E]|[_ E]]]]]]; rewrite E in H; discriminate H.
  - exfalso.
    destruct (escape_char_cases a)
      as [[E _]|[[_ E]|[[_ E]|[[_ E]|[[_ E]|[_ E]]]]]]; rewrite E in H; discriminate H.
  - destruct (escape_char_cases a)
      as [[Ea Ha]|[[Ha Ea]|[[Ha Ea]|[[Ha Ea]|[[Ha Ea]|[Ha Ea]]]]]];
    destruct (escape_char_cases b)
      as [[Eb Hb]|[[Hb Eb]|[[Hb Eb]|[[Hb Eb]|[[Hb Eb]|[Hb Eb]]]]]];
    rewrite Ea, Eb in H; simpl in H;
    try discriminate H;
    try (injection H as H; f_equal; [congruence|apply IH; exact H]);
    try (injection H as Hc H; exfalso; intuition congruence);
    try (injection H as Hc H; f_equal; [exact Hc|apply IH; exact H]).
Qed.

Lemma escapeHtml_injective_witness :
  escapeHtml "a&b" = escapeHtml "a&b" /\ "a&b" = "a&b".
Proof.
  split; [reflexivity|]. exact (escapeHtml_injective "a&b" "a&b" eq_refl).
Defined.

(** X3: whatever buttons of the pager are clicked, in any order, the
    page number of the dashboard never drops below 1. *)
Theorem pager_page_at_least_one clicks :
  (1 <= fold_left pager_click clicks 1)%Z.
Proof.
  assert (forall p, (1 <= p)%Z -> (1 <= fold_left pager_click clicks p)%Z) as H.
  { induction clicks as [|c l IH]; intros p Hp; simpl; [exact Hp|].
    apply IH. destruct c; simpl; [lia| |lia].
    destruct (1 <? p)%Z eqn:E; [apply Z.ltb_lt in E; lia|exact Hp]. }
  apply H. lia.
Qed.

(** ** Paging parameters *)

Lemma to_double_exact z : (Z.abs z < 2 ^ 53)%Z -> to_double z = Int z.
Proof.
  intros H. unfold to_double. apply Z.ltb_lt in H. rewrite H. reflexivity.
Qed.

Lemma to_double_not_nan z : to_double z <> NaN.
Proof.
  unfold to_double. cbv zeta.
  destruct (Z.abs z <? 2 ^ 53)%Z; [discriminate|].
  destruct (2 ^ 1024 <=? _)%Z; discriminate.
Qed.

Lemma to_double_from_0 z : (0 <= z)%Z -> num_from 0 (to_double z).
Proof.
  intros H. unfold to_double, num_from. cbv zeta.
  destruct (Z.abs z <? 2 ^ 53)%Z; [right; eauto|].
  destruct (2 ^ 1024 <=? _)%Z.
  - left. f_equal. apply Z.ltb_ge. exact H.
  - right. eexists. split; [reflexivity|].
    apply Z.mul_nonneg_nonneg; [lia|].
    apply Z.mul_nonneg_nonneg; [|apply Z.pow_nonneg; lia].
    assert (0 <= Z.abs z / 2 ^ (Z.log2 (Z.abs z) - 52))%Z as Hq.
    { apply Z_div_nonneg_nonneg; [lia|apply Z.pow_nonneg; lia]. }
    destruct (_ <? _)%Z; [exact Hq|].
    destruct (_ <? _)%Z; [lia|].
    destruct (Z.even _); lia.
Qed.

Lemma math_max_from a x : math_max a x = NaN \/ num_from a (math_max a x).
Proof.
  destruct x as [|[|]|z]; simpl; [left; reflexivity|right..].
  - right. exists a. split; [reflexivity|lia].
  - left. reflexivity.
  - right. exists (Z.max a z). split; [reflexivity|lia].
Qed.

Lemma math_max_nan a x : math_max a x = NaN <-> x = NaN.
Proof. destruct x as [|[|]|z]; simpl; split; congruence. Qed.

Lemma math_min_nan a x : math_min a x = NaN <-> x = NaN.
Proof. destruct x as [|[|]|z]; simpl; split; congruence. Qed.

Lemma clamp_within a b x :
  (a <= b)%Z ->
  math_max a (math_min b x) = NaN \/ num_within a b (math_max a (math_min b x)).
Proof.
  intros Hab. destruct x as [|[|]|z]; simpl; [left; reflexivity|right..].
  - exists a. split; [reflexivity|lia].
  - exists (Z.max a b). split; [reflexivity|lia].
  - exists (Z.max a (Z.min b z)). split; [reflexivity|lia].
Qed.

Lemma num_or_not_nan x d : num_or x d <> NaN.
Proof.
  destruct x as [|b|z]; simpl; [discriminate|discriminate|].
  destruct (z =? 0)%Z; discriminate.
Qed.

(** The offset [(page - 1) * limit] of a page from 1 and a limit from 1. *)
Lemma offset_from_0 page limit l :
  num_from 1 page -> limit = Int l -> (1 <= l)%Z ->
  num_from 0 (times (minus_one page) limit).
Proof.
  intros [->|[p [-> Hp]]] -> Hl.
  - left. simpl.
    assert ((l =? 0)%Z = false) as -> by (apply Z.eqb_neq; lia).
    assert ((l <? 0)%Z = false) as -> by (apply Z.ltb_ge; lia). reflexivity.
  - simpl. destruct (to_double_from_0 (p - 1)) as [E|[v [E Hv]]]; [lia| |]; rewrite E.
    + left. simpl.
      assert ((l =? 0)%Z = false) as -> by (apply Z.eqb_neq; lia).
      assert ((l <? 0)%Z = false) as -> by (apply Z.ltb_ge; lia). reflexivity.
    + simpl. apply to_double_from_0. nia.
Qed.

Lemma offset_exact p l :
  (1 <= p <= 2 ^ 45)%Z -> (1 <= l <= 200)%Z ->
  times (minus_one (Int p)) (Int l) = Int ((p - 1) * l).
Proof.
  intros Hp Hl.
  assert (2 ^ 45 = 35184372088832)%Z as E45 by reflexivity.
  assert (2 ^ 53 = 9007199254740992)%Z as E53 by reflexivity.
  rewrite E45 in Hp. simpl.
  rewrite (to_double_exact (p - 1)) by (rewrite E53; lia). simpl.
  apply to_double_exact. rewrite E53. nia.
Qed.

(** X4: in the admin listing of the server with the command queue, the
    page that reaches the query is NaN, plus infinity or an integer from 1
    on, the limit is NaN or an integer between 1 and 200, and the offset
    is NaN, plus infinity or an integer from 0 on, never negative. For a
    page up to 2^45 the offset is exactly (page - 1) * limit; beyond, it
    is that product rounded as floats round. Absent or empty parameters
    give page 1 and limit 25. A parameter that does not start with an
    integer is not replaced by a default: it reaches the query as NaN, and
    so does the offset. The limit of the events listing is NaN or between
    1 and 200, and 50 by default. *)
Theorem admin_list_params_bounds page limit :
  let lp := admin_list_params page limit in
  (lp_page lp = NaN \/ num_from 1 (lp_page lp))
  /\ (lp_limit lp = NaN \/ num_within 1 200 (lp_limit lp))
  /\ (lp_offset lp = NaN \/ num_from 0 (lp_offset lp))
  /\ (forall p l, lp_page lp = Int p -> lp_limit lp = Int l -> (p <= 2 ^ 45)%Z ->
      lp_offset lp = Int ((p - 1) * l))
  /\ (truthy_str page = false -> lp_page lp = Int 1)
  /\ (truthy_str limit = false -> lp_limit lp = Int 25)
  /\ (lp_page lp = NaN <-> parseInt10 (or_default page "1") = NaN)
  /\ (lp_limit lp = NaN <-> parseInt10 (or_default limit "25") = NaN)
  /\ (lp_offset lp = NaN <-> lp_page lp = NaN \/ lp_limit lp = NaN)
  /\ (events_limit limit = NaN \/ num_within 1 200 (events_limit limit))
  /\ (truthy_str limit = false -> events_limit limit = Int 50).
Proof.
  unfold admin_list_params, events_limit. cbn [lp_page lp_limit lp_offset].
  assert (forall o d, truthy_str o = false -> or_default o d = d) as Hdef.
  { intros [s|] d; simpl; [|reflexivity].
    destruct (s =? ""); [reflexivity|discriminate]. }
  set (pg := math_max 1 (parseInt10 (or_default page "1"))).
  set (lm := math_max 1 (math_min 200 (parseInt10 (or_default limit "25")))).
  assert (pg = NaN \/ num_from 1 pg) as Hpg by apply math_max_from.
  assert (lm = NaN \/ num_within 1 200 lm) as Hlm by (apply clamp_within; lia).
  assert (times (minus_one pg) lm = NaN <-> pg = NaN \/ lm = NaN) as Hnan.
  { split.
    - intros H. destruct Hpg as [E|Hp]; [left; exact E|].
      destruct Hlm as [E|[l [El Hl]]]; [right; exact E|].
      exfalso. destruct (offset_from_0 pg lm l Hp El) as [E|[o [E _]]];
        [lia|rewrite E in H; discriminate H..].
    - intros [->| ->]; [reflexivity|].
      destruct (minus_one pg) as [|b|z]; reflexivity. }
  split; [exact Hpg|]. split; [exact Hlm|]. split.
  { destruct Hpg as [E|Hp]; [left; apply Hnan; tauto|].
    destruct Hlm as [E|[l [El Hl]]]; [left; apply Hnan; tauto|].
    right. apply (offset_from_0 pg lm l Hp El). lia. }
  split.
  { intros p l Ep El Hp. rewrite Ep, El.
    destruct Hpg as [E|[E|[p0 [E Hp0]]]]; try congruence.
    destruct Hlm as [E'|[l0 [E' Hl0]]]; try congruence.
    apply offset_exact; [|congruence]. split; [congruence|exact Hp]. }
  split; [intros H; unfold pg; rewrite (Hdef _ _ H); reflexivity|].
  split; [intros H; unfold lm; rewrite (Hdef _ _ H); reflexivity|].
  split; [apply math_max_nan|].
  split; [unfold lm; rewrite math_max_nan; apply math_min_nan|].
  split; [exact Hnan|].
  split; [apply clamp_within; lia|].
  intros H. rewrite (Hdef _ _ H). reflexivity.
Qed.

(** Beyond 2^53 the page and the offset are rounded: the parameters
    page=9007199254740993 and limit=3 reach the query as page
    9007199254740992 and offset 27021597764222972. *)
Example admin_list_params_rounded :
  admin_list_params (Some "9007199254740993") (Some "3")
  = mkListParams (Int 9007199254740992) (Int 3) (Int 27021597764222972).
Proof. vm_compute. reflexivity. Qed.

(** X5: in the earlier server no paging parameter is ever NaN or
    negative, whatever the query holds. The admin listing has a page that
    is plus infinity or an integer from 1 on, a limit between 1 and 100
    and an offset that is plus infinity or an integer from 0 on, exactly
    (page - 1) * limit for a page up to 2^45; the public listing has a
    limit between 1 and 200 and an offset from 0 on; the events listing
    has a limit between 1 and 500. A parameter that is absent, not a
    number or zero is replaced by its default. *)
Theorem legacy_list_params_bounds page limit offset :
  let lp := Legacy.admin_list_params page limit in
  num_from 1 (lp_page lp)
  /\ num_within 1 100 (lp_limit lp)
  /\ num_from 0 (lp_offset lp)
  /\ (forall p l, lp_page lp = Int p -> lp_limit lp = Int l -> (p <= 2 ^ 45)%Z ->
      lp_offset lp = Int ((p - 1) * l))
  /\ num_within 1 200 (fst (Legacy.public_list_params limit offset))
  /\ num_from 0 (snd (Legacy.public_list_params limit offset))
  /\ num_within 1 500 (Legacy.events_limit limit)
  /\ ((parseInt page = NaN \/ parseInt page = Int 0) -> lp_page lp = Int 1)
  /\ ((parseInt limit = NaN \/ parseInt limit = Int 0) ->
      lp_limit lp = Int 25
      /\ fst (Legacy.public_list_params limit offset) = Int 50
      /\ Legacy.events_limit limit = Int 100).
Proof.
  unfold Legacy.admin_list_params, Legacy.public_list_params, Legacy.events_limit.
  cbn [lp_page lp_limit lp_offset fst snd].
  assert (forall a x d, num_from a (math_max a (num_or x d))) as Hfrom.
  { intros a x d. destruct (math_max_from a (num_or x d)) as [E|H]; [|exact H].
    apply math_max_nan in E. destruct (num_or_not_nan _ _ E). }
  assert (forall a b x d, (a <= b)%Z ->
            num_within a b (math_max a (math_min b (num_or x d)))) as Hwithin.
  { intros a b x d Hab. destruct (clamp_within a b (num_or x d) Hab) as [E|H]; [|exact H].
    apply math_max_nan, math_min_nan in E. destruct (num_or_not_nan _ _ E). }
  set (pg := math_max 1 (num_or (parseInt page) 1)).
  set (lm := math_max 1 (math_min 100 (num_or (parseInt limit) 25))).
  assert (num_from 1 pg) as Hpg by apply Hfrom.
  assert (num_within 1 100 lm) as Hlm by (apply Hwithin; lia).
  split; [exact Hpg|]. split; [exact Hlm|]. split.
  { destruct Hlm as [l [El Hl]]. apply (offset_from_0 pg lm l Hpg El). lia. }
  split.
  { intros p l Ep El Hp. rewrite Ep, El.
    destruct Hpg as [E|[p0 [E Hp0]]]; try congruence.
    destruct Hlm as [l0 [E' Hl0]].
    apply offset_exact; [split; [congruence|exact Hp]|]. 
    assert (l0 = l) as <- by congruence. lia. }
  split; [apply Hwithin; lia|]. split; [apply Hfrom|]. split; [apply Hwithin; lia|].
  split.
  - intros [H|H]; unfold pg; rewrite H; reflexivity.
  - intros [H|H]; unfold lm; rewrite H; repeat split; reflexivity.
Qed.

(** ** The address of the caller: [getClientIp] *)

Lemma before_comma_no_comma s :
  ~ In ","%char (list_ascii_of_string (Legacy.before_comma s)).
Proof.
  induction s as [|a r IH]; simpl; [tauto|].
  destruct (Ascii.eqb_spec a ","); simpl; [tauto|].
  intros [H|H]; [congruence|exact (IH H)].
Qed.

Lemma before_comma_split s :
  exists rest,
    s = (Legacy.before_comma s ++ rest)%string
    /\ (rest = "" \/ exists r, rest = String "," r).
Proof.
  induction s as [|a r [rest [E H]]]; simpl.
  - exists "". split; [reflexivity|left; reflexivity].
  - destruct (Ascii.eqb_spec a ",") as [->|_].
    + exists (String "," r). split; [reflexivity|right; eauto].
    + exists rest. split; [exact (f_equal (String a) E)|exact H].
Qed.

Lemma strip_prefix_spec pat s r :
  Legacy.strip_prefix pat s = Some r <-> s = (pat ++ r)%string.
Proof.
  revert s. induction pat as [|p pat IH]; intros s.
  - change ("" ++ r)%string with r. simpl. split; congruence.
  - change (String p pat ++ r)%string with (String p (pat ++ r)%string). simpl.
    destruct s as [|a s']; [split; discriminate|].
    destruct (Ascii.eqb_spec a p) as [->|Hne].
    + rewrite IH. split; congruence.
    + split; [discriminate|]. intros H. injection H as H _. contradiction.
Qed.

Lemma remove_first_absent pat s :
  (forall a b, s <> (a ++ pat ++ b)%string) -> Legacy.remove_first pat s = s.
Proof.
  induction s as [|c s' IH]; intros Hno.
  - simpl. destruct (Legacy.strip_prefix pat "") as [r|] eqn:E; [|reflexivity].
    apply strip_prefix_spec in E. destruct (Hno "" r). exact E.
  - simpl. destruct (Legacy.strip_prefix pat (String c s')) as [r|] eqn:E.
    + apply strip_prefix_spec in E. destruct (Hno "" r). exact E.
    + f_equal. apply IH. intros a b H. apply (Hno (String c a) b).
      exact (f_equal (String c) H).
Qed.

Lemma remove_first_occurrence pat a b :
  (forall a' b', (a ++ pat ++ b = a' ++ pat ++ b')%string ->
                 String.length a <= String.length a') ->
  Legacy.remove_first pat (a ++ pat ++ b)%string = (a ++ b)%string.
Proof.
  induction a as [|c a IH]; intros Hmin.
  - change ("" ++ pat ++ b)%string with (pat ++ b)%string.
    change ("" ++ b)%string with b.
    assert (Legacy.strip_prefix pat (pat ++ b)%string = Some b) as E
      by (apply strip_prefix_spec; reflexivity).
    destruct (pat ++ b)%string; simpl in *; rewrite E; reflexivity.
  - change (String c a ++ pat ++ b)%string with (String c (a ++ pat ++ b)%string).
    change (String c a ++ b)%string with (String c (a ++ b)%string).
    simpl. destruct (Legacy.strip_prefix pat (String c (a ++ pat ++ b))) as [r|] eqn:E.
    + apply strip_prefix_spec in E. specialize (Hmin "" r E). simpl in Hmin. lia.
    + f_equal. apply IH. intros a' b' H.
      specialize (Hmin (String c a') b' (f_equal (String c) H)). simpl in Hmin. lia.
Qed.

(** X6: when the request carries a non-empty x-forwarded-for header,
    [getClientIp] answers from the header alone, whatever the socket
    address is: the text before the first comma of the header, with the
    blanks around it removed. Without that header it answers the socket
    address with the first occurrence of ::ffff: taken out, wherever that
    occurrence is; an address that holds no ::ffff: is answered as it is,
    and an absent address as the empty text. *)
Theorem getClientIp_sources xf remoteAddress :
  (truthy_str xf = true ->
   exists entry rest,
     or_default xf "" = (entry ++ rest)%string
     /\ ~ In ","%char (list_ascii_of_string entry)
     /\ (rest = "" \/ exists r, rest = String "," r)
     /\ (forall other, Legacy.getClientIp xf other = trim entry)
     /\ ~ In ","%char (list_ascii_of_string (Legacy.getClientIp xf remoteAddress))
     /\ trim (Legacy.getClientIp xf remoteAddress) = Legacy.getClientIp xf remoteAddress)
  /\ (truthy_str xf = false ->
      ((forall a b, or_default remoteAddress "" <> (a ++ "::ffff:" ++ b)%string) ->
       Legacy.getClientIp xf remoteAddress = or_default remoteAddress "")
      /\ (forall a b,
            or_default remoteAddress "" = (a ++ "::ffff:" ++ b)%string ->
            (forall a' b', or_default remoteAddress "" = (a' ++ "::ffff:" ++ b')%string ->
                           String.length a <= String.length a') ->
            Legacy.getClientIp xf remoteAddress = (a ++ b)%string)
      /\ (truthy_str remoteAddress = false -> Legacy.getClientIp xf remoteAddress = "")).
Proof.
  unfold Legacy.getClientIp. split; intros Hx; rewrite Hx.
  - destruct (before_comma_split (or_default xf "")) as [rest [E Hrest]].
    exists (Legacy.before_comma (or_default xf "")), rest.
    split; [exact E|]. split; [apply before_comma_no_comma|].
    split; [exact Hrest|]. split; [reflexivity|]. split.
    + intros H. apply trim_chars in H. exact (before_comma_no_comma _ H).
    + apply trim_idem.
  - split; [apply remove_first_absent|]. split.
    + intros a b E Hmin. rewrite E. apply remove_first_occurrence.
      intros a' b' E'. apply (Hmin a' b'). rewrite E. exact E'.
    + intros Hr. destruct remoteAddress as [s|]; simpl in *; [|reflexivity].
      destruct (s =? ""); [reflexivity|discriminate].
Qed.

(** The occurrence that goes need not be a prefix. *)
Example getClientIp_inner_occurrence :
  Legacy.getClientIp None (Some "::ffff:10.0.0.7") = "10.0.0.7"
  /\ Legacy.getClientIp None (Some "2001:db8::ffff:1") = "2001:db81"
  /\ Legacy.getClientIp (Some " 10.1.1.1 , 10.2.2.2") (Some "::1") = "10.1.1.1".
Proof. repeat split; reflexivity. Qed.

(** ** Registration *)

Lemma register_ok now ip req db :
  fst (register now ip req db) = Json200 tt ->
  exists id s,
    g_deviceId req = Some id /\ id <> "" /\ g_deviceSecret req = Some s /\ s <> ""
    /\ upsert_accepted ip req = true
    /\ snd (register now ip req db)
       = add_event (mkEvent id "register" now)
           (set_devices (upsert_device now ip id (g_info req) (Some s) (devices db)) db).
Proof.
  intros H.
  destruct (register_cases now ip req db)
    as [[_ [code [error E]]]|[id [s [Hid [Hne [Hs [Hns [Hup [[_ E]|[_ E]]]]]]]]]].
  - rewrite E in H. discriminate H.
  - rewrite E in H. discriminate H.
  - exists id, s. rewrite E. tauto.
Qed.

Lemma upsert_device_lookup now ip id i s devs :
  exists d,
    upsert_device now ip id i (Some s) devs !! id = Some d
    /\ device_id d = id /\ info d = i /\ device_secret d = Some s
    /\ last_seen_at d = Some now /\ updated_at d = Some now /\ ip_last d = ip
    /\ match devs !! id with
       | Some d0 => status d = status d0 /\ first_seen_at d = first_seen_at d0
       | None => status d = "active" /\ first_seen_at d = Some now
       end.
Proof.
  unfold upsert_device. destruct (devs !! id) as [d0|];
    rewrite lookup_insert_eq; eexists; split; try reflexivity; simpl; tauto.
Qed.

Lemma upsert_device_other now ip id i s devs k :
  k <> id -> upsert_device now ip id i s devs !! k = devs !! k.
Proof.
  intros Hne. unfold upsert_device.
  destruct (devs !! id); apply lookup_insert_ne; congruence.
Qed.

(** X7: after a register call that was answered with ok, the device
    authenticates in poll with the secret it registered and with no other
    text: the lookup returns the device exactly for that secret, returns
    null for any other, never fails, and leaves the table as it is. *)
Theorem register_then_authenticates now ip req db id s s' :
  g_deviceId req = Some id ->
  g_deviceSecret req = Some s ->
  fst (register now ip req db) = Json200 tt ->
  (findDeviceForAuth id s' (devices (snd (register now ip req db)))
   = Some (Some (id, Some s), devices (snd (register now ip req db)))
   <-> s' = s)
  /\ (s' <> s ->
      findDeviceForAuth id s' (devices (snd (register now ip req db)))
      = Some (None, devices (snd (register now ip req db)))).
Proof.
  intros Hid Hs Hok.
  destruct (register_ok now ip req db Hok) as [id0 [s0 [Hid0 [Hne [Hs0 [Hns [_ ->]]]]]]].
  assert (id0 = id) as -> by congruence. assert (s0 = s) as -> by congruence.
  cbn [add_event set_devices devices].
  destruct (upsert_device_lookup now ip id (g_info req) s (devices db))
    as [d [Hd [Hdid [_ [Hsec _]]]]].
  unfold findDeviceForAuth, select_device. rewrite (key_in_row _ _ _ Hd), Hd, Hsec, Hdid.
  apply String.eqb_neq in Hns. cbn [truthy_str opt_str_eqb]. rewrite Hns.
  cbn [negb andb].
  destruct (String.eqb_spec s s') as [->|Hdiff]; cbn [andb].
  - split; [tauto|]. intros H. destruct (H eq_refl).
  - split; [|reflexivity]. split; [discriminate|congruence].
Qed.

Lemma register_then_authenticates_witness :
  let req := mkRegister (Some "dev-7") (Some "first-secret") no_info [] in
  findDeviceForAuth "dev-7" "first-secret" (devices (snd (register 500 None req db_1)))
  = Some (Some ("dev-7", Some "first-secret"), devices (snd (register 500 None req db_1))).
Proof.
  intros req.
  apply (proj1 (register_then_authenticates 500 None req db_1
                  "dev-7" "first-secret" "first-secret" eq_refl eq_refl eq_refl)).
  reflexivity.
Defined.



(** ** The earlier server: heartbeat and status *)

Section LegacyServer.

Variable sha256 : string -> string.
Variable inet_in : string -> bool.

Lemma legacy_register_accepted now ip req ldb id' :
  fst (Legacy.register sha256 inet_in now ip req ldb) = Json200 id' ->
  exists id s,
    g_deviceId req = Some id /\ id <> "" /\ g_deviceSecret req = Some s /\ s <> ""
    /\ id' = id
    /\ Legacy.inet_ok inet_in (Legacy.or_null (Some ip)) = true
    /\ exists d,
         Legacy.devices (snd (Legacy.register sha256 inet_in now ip req ldb)) !! id = Some d
         /\ Legacy.device_secret_hash d = Some (sha256 s)
         /\ Legacy.status d = "active".
Proof.
  unfold Legacy.register.
  destruct (truthy_str (g_deviceId req)) eqn:Eid; [|intros H; discriminate H].
  destruct (truthy_str (g_deviceSecret req)) eqn:Es; [|intros H; discriminate H].
  cbn [negb orb].
  destruct (negb (truthy_str (app_version (g_info req)))
            || negb (truthy_str (os_name (g_info req)))
            || negb (truthy_str (os_version (g_info req)))
            || negb (truthy_str (arch (g_info req)))
            || negb (truthy_str (hostname (g_info req)))); [intros H; discriminate H|].
  destruct (negb (text_in _ && info_text_in _)); [intros H; discriminate H|].
  destruct (Legacy.inet_ok inet_in (Legacy.or_null (Some ip))) eqn:Ei;
    [|intros H; discriminate H].
  cbn [negb fst snd]. intros H. injection H as H.
  apply truthy_str_true in Eid. destruct Eid as [id [Hid Hne]].
  apply truthy_str_true in Es. destruct Es as [s [Hs Hns]].
  exists id, s. rewrite Hid, Hs in *.
  assert (or_default (Some id) "" = id) as Eoid
    by (apply truthy_str_some, truthy_str_true; eauto).
  assert (or_default (Some s) "" = s) as Eos
    by (apply truthy_str_some, truthy_str_true; eauto).
  rewrite Eoid in *. rewrite Eos.
  repeat (split; [first [reflexivity|assumption|congruence]|]).
  cbn [Legacy.devices]. unfold Legacy.upsert_device.
  destruct (Legacy.devices ldb !! id); rewrite lookup_insert_eq;
    eexists; repeat split; reflexivity.
Qed.

(** X9: a heartbeat is accepted exactly when the deviceId and the secret
    are non-empty, the address reads as an inet value and the device has a
    row whose stored hash is the hash of the secret. With a non-empty
    deviceId and secret and such an address, a wrong secret gets 403, and
    so does a device that has no row, unless its deviceId holds the code
    unit 0, which the database refuses (500). Every reply other than ok
    leaves the tables unchanged. An accepted heartbeat sets the device
    active and last seen now, keeps its hash and metadata, touches no
    other row and creates none. *)
Theorem heartbeat_outcomes now ip deviceId deviceSecret ldb :
  let r := Legacy.heartbeat sha256 inet_in now ip deviceId deviceSecret ldb in
  (fst r = Json200 tt <->
   exists id s d,
     deviceId = Some id /\ id <> "" /\ deviceSecret = Some s /\ s <> ""
     /\ Legacy.inet_ok inet_in (Legacy.or_null (Some ip)) = true
     /\ Legacy.devices ldb !! id = Some d
     /\ Legacy.device_secret_hash d = Some (sha256 s))
  /\ (fst r <> Json200 tt -> snd r = ldb)
  /\ (forall id s,
        deviceId = Some id -> id <> "" -> deviceSecret = Some s -> s <> "" ->
        Legacy.inet_ok inet_in (Legacy.or_null (Some ip)) = true ->
        (forall d, Legacy.devices ldb !! id = Some d ->
                   Legacy.device_secret_hash d <> Some (sha256 s)) ->
        fst r = if key_in id (Legacy.devices ldb)
                then JsonError 403 "invalid_device_or_secret"
                else JsonError 500 "invalid byte sequence for encoding UTF8: 0x00")
  /\ (forall id,
        fst r = Json200 tt -> deviceId = Some id ->
        exists d d',
          Legacy.devices ldb !! id = Some d
          /\ Legacy.devices (snd r) !! id = Some d'
          /\ Legacy.status d' = "active" /\ Legacy.last_seen_at d' = Some now
          /\ Legacy.device_secret_hash d' = Legacy.device_secret_hash d
          /\ Legacy.info d' = Legacy.info d)
  /\ (forall k,
        deviceId <> Some k -> Legacy.devices (snd r) !! k = Legacy.devices ldb !! k)
  /\ (forall k, Legacy.devices ldb !! k = None -> Legacy.devices (snd r) !! k = None).
Proof.
  unfold Legacy.heartbeat. cbn zeta.
  destruct (truthy_str deviceId) eqn:Eid.
  2:{ cbn [negb orb fst snd].
      split; [split; [discriminate|]|].
      - intros [id [s [d [Hid [Hne _]]]]].
        assert (truthy_str deviceId = true) by (apply truthy_str_true; eauto).
        congruence.
      - split; [reflexivity|]. split.
        + intros id s Hid Hne. assert (truthy_str deviceId = true)
            by (apply truthy_str_true; eauto). congruence.
        + split; [discriminate|]. split; [reflexivity|auto]. }
  destruct (truthy_str deviceSecret) eqn:Es.
  2:{ cbn [negb orb fst snd].
      split; [split; [discriminate|]|].
      - intros [id [s [d [_ [_ [Hs [Hns _]]]]]]].
        assert (truthy_str deviceSecret = true) by (apply truthy_str_true; eauto).
        congruence.
      - split; [reflexivity|]. split.
        + intros id s _ _ Hs Hns. assert (truthy_str deviceSecret = true)
            by (apply truthy_str_true; eauto). congruence.
        + split; [discriminate|]. split; [reflexivity|auto]. }
  cbn [negb orb].
  apply truthy_str_true in Eid. destruct Eid as [id [-> Hne]].
  apply truthy_str_true in Es. destruct Es as [s [-> Hns]].
  rewrite (or_default_nonempty id Hne), (or_default_nonempty s Hns).
  destruct (key_in id (Legacy.devices ldb)) eqn:Ek; cbn [negb fst snd].
  2:{ assert (Legacy.devices ldb !! id = None) as Hd.
      { unfold key_in in Ek. destruct (Legacy.devices ldb !! id); [discriminate|].
        reflexivity. }
      split; [split; [discriminate|]|].
      - intros [id0 [s0 [d [Hid0 [_ [_ [_ [_ [Hd0 _]]]]]]]]].
        injection Hid0 as <-. congruence.
      - split; [reflexivity|]. split.
        + intros id0 s0 Hid0 _ _ _ _ _. injection Hid0 as <-. rewrite Ek. reflexivity.
        + split; [discriminate|]. split; [reflexivity|auto]. }
  destruct (Legacy.inet_ok inet_in (Legacy.or_null (Some ip))) eqn:Ei; cbn [negb fst snd].
  2:{ split; [split; [discriminate|]|].
      - intros [id0 [s0 [d [_ [_ [_ [_ [H _]]]]]]]]. discriminate H.
      - split; [reflexivity|]. split; [intros; discriminate|].
        split; [discriminate|]. split; [reflexivity|auto]. }
  destruct (Legacy.devices ldb !! id) as [d|] eqn:Hd.
  2:{ cbn [fst snd]. split; [split; [discriminate|]|].
      - intros [id0 [s0 [d [Hid0 [_ [_ [_ [_ [Hd0 _]]]]]]]]].
        injection Hid0 as <-. congruence.
      - split; [reflexivity|]. split.
        + intros id0 s0 Hid0 _ _ _ _ _. injection Hid0 as <-. rewrite Ek. reflexivity.
        + split; [discriminate|]. split; [reflexivity|auto]. }
  destruct (opt_str_eqb (Legacy.device_secret_hash d) (sha256 s)) eqn:Eh; cbn [fst snd].
  - apply opt_str_eqb_true in Eh. split; [split; [intros _|reflexivity]|].
    + exists id, s, d. tauto.
    + split; [intros H; destruct (H eq_refl)|]. split.
      * intros id0 s0 Hid0 _ Hs0 _ _ Hno. injection Hid0 as <-. injection Hs0 as <-.
        destruct (Hno d Hd Eh).
      * split.
        -- intros id0 _ Hid0. injection Hid0 as <-. exists d. eexists.
           split; [exact Hd|]. cbn [Legacy.devices]. rewrite lookup_insert_eq.
           split; [reflexivity|]. repeat split.
        -- split.
           ++ intros k Hk. cbn [Legacy.devices]. apply lookup_insert_ne. congruence.
           ++ intros k Hk. cbn [Legacy.devices]. rewrite lookup_insert_ne; [exact Hk|].
              intros ->. congruence.
  - assert (Legacy.device_secret_hash d <> Some (sha256 s)) as Hno
      by (intros E; apply opt_str_eqb_true in E; congruence).
    split; [split; [discriminate|]|].
    + intros [id0 [s0 [d0 [Hid0 [_ [Hs0 [_ [_ [Hd0 Hh]]]]]]]]].
      injection Hid0 as <-. injection Hs0 as <-. congruence.
    + split; [reflexivity|]. split.
      * intros id0 s0 Hid0 _ _ _ _ _. injection Hid0 as <-. rewrite Ek. reflexivity.
      * split; [discriminate|]. split; [reflexivity|auto].
Qed.

End LegacyServer.

Section LegacyFlows.

Variable sha256 : string -> string.
Variable inet_in : string -> bool.

Lemma heartbeat_known_device now ip id s ldb d :
  id <> "" -> s <> "" ->
  Legacy.inet_ok inet_in (Legacy.or_null (Some ip)) = true ->
  Legacy.devices ldb !! id = Some d ->
  fst (Legacy.heartbeat sha256 inet_in now ip (Some id) (Some s) ldb)
  = if opt_str_eqb (Legacy.device_secret_hash d) (sha256 s)
    then Json200 tt
    else JsonError 403 "invalid_device_or_secret".
Proof.
  intros Hne Hns Hi Hd. unfold Legacy.heartbeat.
  assert (truthy_str (Some id) = true) as Ti by (apply truthy_str_true; eauto).
  assert (truthy_str (Some s) = true) as Ts by (apply truthy_str_true; eauto).
  rewrite Ti, Ts, (truthy_str_some id Ti), (truthy_str_some s Ts), Hi,
    (key_in_row _ _ _ Hd), Hd.
  cbn [negb orb]. destruct (opt_str_eqb _ _); reflexivity.
Qed.

(** X10: in the earlier server, a device whose register call was
    accepted is accepted by a heartbeat that presents the same deviceId
    and secret from the same address, and a heartbeat that presents a
    secret with another hash gets 403. *)
Theorem legacy_register_then_heartbeat now ip req ldb id' now2 :
  fst (Legacy.register sha256 inet_in now ip req ldb) = Json200 id' ->
  fst (Legacy.heartbeat sha256 inet_in now2 ip (g_deviceId req) (g_deviceSecret req)
         (snd (Legacy.register sha256 inet_in now ip req ldb)))
  = Json200 tt
  /\ (forall s2,
        s2 <> "" ->
        sha256 s2 <> sha256 (or_default (g_deviceSecret req) "") ->
        fst (Legacy.heartbeat sha256 inet_in now2 ip (g_deviceId req) (Some s2)
               (snd (Legacy.register sha256 inet_in now ip req ldb)))
        = JsonError 403 "invalid_device_or_secret").
Proof.
  intros Hreg.
  destruct (legacy_register_accepted sha256 inet_in now ip req ldb id' Hreg)
    as [id [s [Hid [Hne [Hs [Hns [_ [Hi [d [Hd [Hh _]]]]]]]]]]].
  rewrite Hid, Hs. split.
  - rewrite (heartbeat_known_device now2 ip id s _ d Hne Hns Hi Hd), Hh.
    simpl. rewrite String.eqb_refl. reflexivity.
  - intros s2 Hns2 Hdiff.
    rewrite (heartbeat_known_device now2 ip id s2 _ d Hne Hns2 Hi Hd), Hh.
    simpl. destruct (String.eqb_spec (sha256 s) (sha256 s2)) as [E|_]; [|reflexivity].
    exfalso. apply Hdiff. rewrite <- E.
    assert (truthy_str (Some s) = true) as Ts by (apply truthy_str_true; eauto).
    rewrite (truthy_str_some s Ts). reflexivity.
Qed.

(** X11: in the earlier server the status of every device stays one of
    active, disabled and retired: a register call, a heartbeat and an
    admin status update each keep that property, whatever they are
    given. *)
Theorem legacy_status_stays_known ldb :
  legacy_statuses_known ldb ->
  (forall now ip req,
     legacy_statuses_known (snd (Legacy.register sha256 inet_in now ip req ldb)))
  /\ (forall now ip deviceId deviceSecret,
        legacy_statuses_known
          (snd (Legacy.heartbeat sha256 inet_in now ip deviceId deviceSecret ldb)))
  /\ (forall now id st, legacy_statuses_known (snd (Legacy.set_status now id st ldb))).
Proof.
  intros Hk.
  assert (forall m : gmap string Legacy.Device, forall id d,
            known_status (Legacy.status d) ->
            (forall k d0, Legacy.devices ldb !! k = Some d0 ->
                          known_status (Legacy.status d0)) ->
            forall k d0, <[id := d]> (Legacy.devices ldb) !! k = Some d0 ->
                         known_status (Legacy.status d0)) as Hins.
  { intros _ id d Hd Hall k d0. rewrite lookup_insert.
    destruct (decide (id = k)); [intros E; injection E as <-; exact Hd|apply Hall]. }
  assert (known_status "active") as Hact by (left; reflexivity).
  split; [|split].
  - intros now ip req. unfold Legacy.register.
    destruct (_ || _); [exact Hk|].
    destruct (negb _); [exact Hk|].
    destruct (negb _); [exact Hk|].
    cbn [snd]. intros k d0. cbn [Legacy.devices]. unfold Legacy.upsert_device.
    destruct (Legacy.devices ldb !! _); apply (Hins ∅); auto.
  - intros now ip deviceId deviceSecret. unfold Legacy.heartbeat.
    destruct (_ || _); [exact Hk|].
    destruct (negb _); [exact Hk|].
    destruct (negb _); [exact Hk|].
    destruct (Legacy.devices ldb !! _) as [d|]; [|exact Hk].
    destruct (opt_str_eqb _ _); [|exact Hk].
    cbn [snd]. intros k d0. cbn [Legacy.devices]. apply (Hins ∅); auto.
  - intros now id st. unfold Legacy.set_status.
    destruct ((trim (or_default st "") =? "active")
              || (trim (or_default st "") =? "disabled")
              || (trim (or_default st "") =? "retired")) eqn:E; cbn [negb snd];
      [|exact Hk].
    destruct (key_in id (Legacy.devices ldb)); cbn [negb snd]; [|exact Hk].
    assert (known_status (trim (or_default st ""))) as Hs.
    { apply orb_true_iff in E. destruct E as [E|E].
      - apply orb_true_iff in E. destruct E as [E|E]; apply String.eqb_eq in E.
        + left. exact E.
        + right. left. exact E.
      - apply String.eqb_eq in E. right. right. exact E. }
    intros k d0. cbn [Legacy.devices]. rewrite lookup_alter.
    destruct (decide (id = k)) as [->|Hne]; [|apply Hk].
    destruct (Legacy.devices ldb !! k) as [d|]; simpl; [|discriminate].
    intros H. injection H as <-. exact Hs.
Qed.

End LegacyFlows.

Lemma legacy_register_then_heartbeat_witness :
  let req :=
    mkRegister (Some "dev-1") (Some "first-secret")
      (mkDeviceInfo (Some "1.0") None (Some "linux") (Some "6.1") (Some "x64")
         (Some "host") None) [] in
  let ldb := Legacy.mkDb ∅ [] in
  fst (Legacy.heartbeat (fun s => s) (fun _ => true) 20 "10.0.0.1"
         (Some "dev-1") (Some "first-secret")
         (snd (Legacy.register (fun s => s) (fun _ => true) 10 "10.0.0.1" req ldb)))
  = Json200 tt.
Proof.
  intros req ldb.
  exact (proj1 (legacy_register_then_heartbeat (fun s => s) (fun _ => true)
                  10 "10.0.0.1" req ldb "dev-1" 20 eq_refl)).
Defined.

Lemma legacy_status_stays_known_witness :
  legacy_statuses_known (Legacy.mkDb ∅ [])
  /\ legacy_statuses_known
       (snd (Legacy.set_status 10 "dev-1" (Some " retired ") (Legacy.mkDb ∅ []))).
Proof.
  assert (legacy_statuses_known (Legacy.mkDb ∅ [])) as H.
  { intros k d Hd. cbn [Legacy.devices] in Hd. rewrite lookup_empty in Hd.
    discriminate Hd. }
  split; [exact H|].
  exact (proj2 (proj2 (legacy_status_stays_known (fun s => s) (fun _ => true) _ H))
           10%Z "dev-1" (Some " retired ")).
Defined.

(** ** Admin writes: status and notes *)

Lemma alter_absent {A : Type} (f : A -> A) (m : gmap string A) k :
  m !! k = None -> alter f k m = m.
Proof.
  intros H. apply map_eq. intros j. rewrite lookup_alter.
  destruct (decide (k = j)) as [->|_]; [rewrite H|]; reflexivity.
Qed.

(** X12: the status update of the server with the command queue does
    not validate the status. An empty or missing status is answered with
    400. Any other text is stored as it is, with the reply ok, provided
    the database takes it; a status that holds the code unit 0, or a
    deviceId that has no row and holds it, is answered with 500. A reply
    other than ok changes nothing. With the reply ok the row of the device
    gets that text as status and the time of the call as updated_at and
    keeps the rest, and for a deviceId without a row nothing changes; the
    other rows and the commands stay in every case. *)
Theorem set_status_takes_any_text now id st db :
  (truthy_str st = false ->
   set_status now id st db = (JsonError 400 "status required", db))
  /\ (forall s, st = Some s -> s <> "" ->
      fst (set_status now id st db)
      = if key_in id (devices db) && text_in s
        then Json200 tt
        else JsonError 500 "server")
  /\ (fst (set_status now id st db) <> Json200 tt -> snd (set_status now id st db) = db)
  /\ (fst (set_status now id st db) = Json200 tt ->
      (devices db !! id = None -> snd (set_status now id st db) = db)
      /\ (forall d, devices db !! id = Some d ->
          devices (snd (set_status now id st db)) !! id
          = Some (mkDevice (device_id d) (info d) (device_secret d) (or_default st "")
                    (first_seen_at d) (last_seen_at d) (Some now) (ip_last d))))
  /\ (forall k, k <> id ->
      devices (snd (set_status now id st db)) !! k = devices db !! k)
  /\ device_commands (snd (set_status now id st db)) = device_commands db.
Proof.
  split; [|split; [|split; [|split; [|split]]]].
  - unfold set_status. intros H. rewrite H. reflexivity.
  - intros s -> Hs. unfold set_status.
    assert (truthy_str (Some s) = true) as Ts by (apply truthy_str_true; eauto).
    rewrite Ts, (truthy_str_some s Ts). cbn [negb].
    destruct (key_in id (devices db) && text_in s); reflexivity.
  - destruct (set_status_cases now id st db) as [[E _]|[s [_ [_ [_ [_ E]]]]]];
      [intros _; exact E|].
    rewrite E. intros H. destruct (H eq_refl).
  - destruct (set_status_cases now id st db)
      as [[_ [code [error E]]]|[s [-> [Hs [_ [_ E]]]]]];
      [rewrite E; discriminate|].
    rewrite E, (or_default_nonempty s Hs). intros _. cbn [snd set_devices devices]. split.
    + intros Hnone. rewrite (alter_absent _ _ _ Hnone). destruct db. reflexivity.
    + intros d Hd. rewrite lookup_alter. destruct (decide (id = id)); [|congruence].
      rewrite Hd. reflexivity.
  - intros k Hk.
    destruct (set_status_cases now id st db) as [[-> _]|[s [_ [_ [_ [_ ->]]]]]];
      [reflexivity|].
    cbn [snd set_devices devices]. rewrite lookup_alter.
    destruct (decide (id = k)); [congruence|reflexivity].
  - apply set_status_tables.
Qed.

Lemma set_status_takes_any_text_witness :
  fst (set_status 700 "dev-1" (Some "banana") db_1) = Json200 tt
  /\ option_map status
       (devices (snd (set_status 700 "dev-1" (Some "banana") db_1)) !! "dev-1")
     = Some "banana".
Proof.
  assert (fst (set_status 700 "dev-1" (Some "banana") db_1) = Json200 tt) as Hok.
  { rewrite (proj1 (proj2 (set_status_takes_any_text 700 "dev-1" (Some "banana") db_1))
               "banana" eq_refl ltac:(discriminate)).
    reflexivity. }
  split; [exact Hok|].
  rewrite (proj2 (proj1 (proj2 (proj2 (proj2
             (set_status_takes_any_text 700 "dev-1" (Some "banana") db_1)))) Hok)
             device_1 eq_refl).
  reflexivity.
Defined.

Lemma known_status_eqb s :
  ((s =? "active") || (s =? "disabled") || (s =? "retired")) = true <-> known_status s.
Proof.
  unfold known_status. rewrite !orb_true_iff, !String.eqb_eq. tauto.
Qed.

(** X13: the status update of the earlier server stores a status only
    when, with the blanks around it removed, it is active, disabled or
    retired, and what it stores is the text without the blanks. Any other
    status is answered with 400. A valid status for a deviceId that has
    no row is answered with ok and changes nothing, unless the deviceId
    holds the code unit 0, which the database refuses (500). A reply
    other than ok changes nothing; an accepted update keeps the hash of
    the device and leaves the other rows as they are. *)
Theorem legacy_set_status_validates now id st ldb :
  let r := Legacy.set_status now id st ldb in
  (~ known_status (trim (or_default st "")) ->
   r = (JsonError 400 "invalid_status", ldb))
  /\ (known_status (trim (or_default st "")) ->
      fst r = if key_in id (Legacy.devices ldb)
              then Json200 tt
              else JsonError 500 "invalid byte sequence for encoding UTF8: 0x00")
  /\ (fst r <> Json200 tt -> snd r = ldb)
  /\ (fst r = Json200 tt ->
      known_status (trim (or_default st ""))
      /\ (Legacy.devices ldb !! id = None -> snd r = ldb)
      /\ (forall d, Legacy.devices ldb !! id = Some d ->
          exists d',
            Legacy.devices (snd r) !! id = Some d'
            /\ Legacy.status d' = trim (or_default st "")
            /\ trim (Legacy.status d') = Legacy.status d'
            /\ Legacy.device_secret_hash d' = Legacy.device_secret_hash d))
  /\ (forall k, k <> id -> Legacy.devices (snd r) !! k = Legacy.devices ldb !! k).
Proof.
  unfold Legacy.set_status. cbn zeta.
  set (s := trim (or_default st "")).
  pose proof (known_status_eqb s) as Hk.
  destruct ((s =? "active") || (s =? "disabled") || (s =? "retired")); cbn [negb].
  - assert (known_status s) as Hs by (apply Hk; reflexivity).
    destruct (key_in id (Legacy.devices ldb)); cbn [negb fst snd Legacy.devices].
    + split; [tauto|]. split; [reflexivity|]. split; [intros H; destruct (H eq_refl)|].
      split.
      * intros _. split; [exact Hs|]. split.
        -- intros Hnone. rewrite (alter_absent _ _ _ Hnone). destruct ldb. reflexivity.
        -- intros d Hd. rewrite lookup_alter. destruct (decide (id = id)); [|congruence].
           rewrite Hd. simpl. eexists. split; [reflexivity|]. cbn [Legacy.status].
           split; [reflexivity|]. split; [apply trim_idem|reflexivity].
      * intros k Hne. rewrite lookup_alter. destruct (decide (id = k)); [congruence|].
        reflexivity.
    + split; [tauto|]. split; [reflexivity|]. split; [reflexivity|].
      split; [discriminate|reflexivity].
  - assert (~ known_status s) as Hs by (intros H; apply Hk in H; discriminate H).
    cbn [fst snd]. split; [reflexivity|]. split; [tauto|]. split; [reflexivity|].
    split; [discriminate|reflexivity].
Qed.

Lemma legacy_set_status_validates_witness :
  ~ known_status (trim (or_default (Some "banana") ""))
  /\ Legacy.set_status 10 "dev-1" (Some "banana") (Legacy.mkDb ∅ [])
     = (JsonError 400 "invalid_status", Legacy.mkDb ∅ []).
Proof.
  assert (~ known_status (trim (or_default (Some "banana") ""))) as H.
  { intros [H|[H|H]]; discriminate H. }
  split; [exact H|].
  exact (proj1 (legacy_set_status_validates 10 "dev-1" (Some "banana") (Legacy.mkDb ∅ []))
           H).
Defined.

Lemma blank_note_check note :
  negb (truthy_str note) || (trim (or_default note "") =? "")
  = (trim (or_default note "") =? "").
Proof.
  destruct note as [s|]; simpl; [|reflexivity].
  destruct (s =? ""); reflexivity.
Qed.

(** X14: a note is stored only for a device that has a row, and what is
    stored is the text with the blanks around it removed, never empty, with
    the author defaulting to admin. A note that is missing or all blanks
    is answered with 400, a note for a deviceId without a row with 500, and
    in both cases nothing is stored. *)
Theorem post_note_stores_trimmed now id note createdBy db :
  (fst (post_note now id note createdBy db) = Json200 tt ->
   exists n,
     snd (post_note now id note createdBy db) = add_note n db
     /\ n = mkNote id (trim (or_default note "")) (or_default createdBy "admin") now
     /\ note_text n <> "" /\ trim (note_text n) = note_text n
     /\ is_Some (devices db !! id))
  /\ (fst (post_note now id note createdBy db) <> Json200 tt ->
      snd (post_note now id note createdBy db) = db)
  /\ (trim (or_default note "") = "" ->
      fst (post_note now id note createdBy db) = JsonError 400 "note required")
  /\ (trim (or_default note "") <> "" -> devices db !! id = None ->
      fst (post_note now id note createdBy db) = JsonError 500 "server").
Proof.
  unfold post_note. rewrite blank_note_check.
  destruct (String.eqb_spec (trim (or_default note "")) "") as [E|E].
  - cbn [fst snd]. split; [discriminate|]. split; [reflexivity|].
    split; [reflexivity|]. intros H. destruct (H E).
  - destruct (devices db !! id) as [d|] eqn:Hd; cbn [fst snd].
    + destruct (text_in _ && text_in _); cbn [fst snd].
      * split.
        -- intros _. eexists. split; [reflexivity|]. split; [reflexivity|].
           cbn [note_text]. split; [exact E|]. split; [apply trim_idem|]. eauto.
        -- split; [intros H; destruct (H eq_refl)|]. split; [intros H; destruct (E H)|].
           intros _ H. discriminate H.
      * split; [discriminate|]. split; [reflexivity|].
        split; [intros H; destruct (E H)|]. intros _ H. discriminate H.
    + split; [discriminate|]. split; [reflexivity|].
      split; [intros H; destruct (E H)|]. reflexivity.
Qed.

Lemma post_note_stores_trimmed_witness :
  device_notes (snd (post_note 800 "dev-1" (Some "  call back  ") None db_1))
  = [mkNote "dev-1" "call back" "admin" 800].
Proof.
  destruct (proj1 (post_note_stores_trimmed 800 "dev-1" (Some "  call back  ") None db_1)
              eq_refl) as [n [Hdb [Hn _]]].
  rewrite Hdb, Hn. reflexivity.
Defined.

(** ** What the admin sees of a device *)

(** X15: right after a register call that was answered with ok, the
    device detail of the admin API shows the deviceId, the metadata and
    the address of that call, with last seen and updated at the time of
    the call; and it shows the same whatever secret the call presented:
    the secret is not part of the reply. For a deviceId that has no row
    the detail answers 404, or 500 when the deviceId holds the code unit
    0, which makes the lookup fail. *)
Theorem device_detail_after_register now ip req db id :
  g_deviceId req = Some id ->
  fst (register now ip req db) = Json200 tt ->
  (exists v,
     device_detail id (snd (register now ip req db)) = Json200 v
     /\ v_deviceId v = id
     /\ v_appVersion v = app_version (g_info req)
     /\ v_tauriVersion v = tauri_version (g_info req)
     /\ v_osName v = os_name (g_info req)
     /\ v_osVersion v = os_version (g_info req)
     /\ v_arch v = arch (g_info req)
     /\ v_hostname v = hostname (g_info req)
     /\ v_username v = username (g_info req)
     /\ v_ipLast v = ip
     /\ v_lastSeenAt v = Some now /\ v_updatedAt v = Some now)
  /\ (forall s2,
      let req2 := mkRegister (Some id) (Some s2) (g_info req) (g_others req) in
      fst (register now ip req2 db) = Json200 tt ->
      device_detail id (snd (register now ip req2 db))
      = device_detail id (snd (register now ip req db)))
  /\ (forall k, devices db !! k = None -> k <> id ->
      device_detail k (snd (register now ip req db))
      = if text_in k then JsonError 404 "not found" else JsonError 500 "server").
Proof.
  intros Hid Hok.
  destruct (register_ok now ip req db Hok) as [id0 [s [Hid0 [Hne [Hs [Hns [_ E]]]]]]].
  assert (id0 = id) as -> by congruence. clear Hid0.
  rewrite E. unfold device_detail, get_device, select_device.
  cbn [add_event set_devices devices].
  split; [|split].
  - destruct (upsert_device_lookup now ip id (g_info req) s (devices db))
      as [d [Hd [H1 [H2 [_ [H4 [H5 [H6 _]]]]]]]].
    rewrite (key_in_row _ _ _ Hd), Hd. cbn [fst]. eexists. split; [reflexivity|].
    unfold mapDevice. cbn. rewrite H1, H2, H4, H5, H6. repeat split.
  - intros s2 Hok2.
    destruct (register_ok now ip _ db Hok2) as [id2 [s2' [Hid2 [_ [Hs2 [_ [_ E2]]]]]]].
    assert (id2 = id) as -> by (simpl in Hid2; congruence).
    rewrite E2. cbn [add_event set_devices devices g_info].
    unfold upsert_device, key_in.
    destruct (devices db !! id); rewrite !lookup_insert_eq; reflexivity.
  - intros k Hk Hkid. unfold key_in.
    rewrite upsert_device_other by exact Hkid. rewrite Hk.
    destruct (text_in k); reflexivity.
Qed.

Lemma device_detail_after_register_witness :
  let req := mkRegister (Some "dev-7") (Some "first-secret") no_info [] in
  device_detail "dev-7"
    (snd (register 500 None (mkRegister (Some "dev-7") (Some "another-one") no_info []) db_1))
  = device_detail "dev-7" (snd (register 500 None req db_1)).
Proof.
  intros req.
  exact (proj1 (proj2 (device_detail_after_register 500 None req db_1 "dev-7"
                         eq_refl eq_refl))
           "another-one" eq_refl).
Defined.

(** ** Polling: refusals, isolation of devices, batch sizes *)

Lemma findDeviceForAuth_refusal deviceId s devs devs' :
  findDeviceForAuth deviceId s devs = Some (None, devs') -> devs' = devs.
Proof.
  intros H. apply findDeviceForAuth_some in H.
  destruct H as [[-> _]|[d [_ [_ [_ [_ [_ [H _]]]]]]]]; [reflexivity|discriminate H].
Qed.

Lemma poll_ok_inv clock req db rows db' :
  poll clock req db = (Json200 rows, db') ->
  exists cmds1,
    record_results clock 0 (or_default (p_deviceId req) "") (p_results req)
      (device_commands db) = (true, cmds1)
    /\ takeNextBatch (clock (List.length (p_results req)))
         (or_default (p_deviceId req) "")
         (clamp_max match p_max req with Some m => m | None => 5%Z end) cmds1
       = (rows, device_commands db').
Proof.
  unfold poll. intros H.
  destruct (negb (truthy_str (p_deviceId req)) || negb (truthy_str (p_deviceSecret req)));
    [discriminate|].
  destruct (findDeviceForAuth _ _ _) as [[[dev|] devs]|]; [|discriminate|discriminate].
  change (device_commands (set_devices devs db)) with (device_commands db) in H.
  destruct (record_results _ _ _ _ _) as [[|] cmds] eqn:Hrec; [|discriminate].
  destruct (takeNextBatch _ _ _ _) as [rows0 cmds0] eqn:Htake.
  injection H as <- <-. exists cmds. split; [reflexivity|exact Htake].
Qed.

(** The table a poll leaves: the one it found, or what the results loop
    made of it, or what the dispatch made of that. *)
Lemma poll_commands_shape clock req db :
  device_commands (snd (poll clock req db)) = device_commands db
  \/ exists b cmds1,
       record_results clock 0 (or_default (p_deviceId req) "") (p_results req)
         (device_commands db) = (b, cmds1)
       /\ ((b = false /\ device_commands (snd (poll clock req db)) = cmds1
            /\ fst (poll clock req db) = JsonError 500 "server")
           \/ (b = true
               /\ exists rows,
                    fst (poll clock req db) = Json200 rows
                    /\ takeNextBatch (clock (List.length (p_results req)))
                         (or_default (p_deviceId req) "")
                         (clamp_max match p_max req with Some m => m | None => 5%Z end)
                         cmds1
                       = (rows, device_commands (snd (poll clock req db))))).
Proof.
  unfold poll.
  destruct (negb (truthy_str (p_deviceId req)) || negb (truthy_str (p_deviceSecret req)));
    [left; reflexivity|].
  destruct (findDeviceForAuth _ _ _) as [[[dev|] devs]|];
    [|left; reflexivity|left; reflexivity].
  change (device_commands (set_devices devs db)) with (device_commands db).
  destruct (record_results _ _ _ _ _) as [[|] cmds] eqn:Hrec; right.
  - exists true, cmds. split; [reflexivity|]. right. split; [reflexivity|].
    destruct (takeNextBatch _ _ _ _) as [rows0 cmds0] eqn:Htake.
    exists rows0. split; reflexivity.
  - exists false, cmds. split; [reflexivity|]. left. repeat split.
Qed.

(** X16: a poll that is answered with 400 or 401 changes nothing, in any
    table; and a poll that presents a secret other than the non-empty one
    recorded for the device is answered with 401. *)
Theorem poll_refused_changes_nothing clock req db :
  (forall code error,
     fst (poll clock req db) = JsonError code error -> code <> 500 ->
     snd (poll clock req db) = db /\ (code = 400 \/ code = 401))
  /\ (forall id s d,
        p_deviceId req = Some id -> id <> "" ->
        p_deviceSecret req = Some s -> s <> "" ->
        devices db !! id = Some d ->
        truthy_str (device_secret d) = true -> device_secret d <> Some s ->
        poll clock req db = (JsonError 401 "unauthorized", db)).
Proof.
  split.
  - unfold poll. intros code error.
    destruct (negb (truthy_str (p_deviceId req)) || negb (truthy_str (p_deviceSecret req))).
    { cbn [fst snd]. intros H _. injection H as <- _. tauto. }
    destruct (findDeviceForAuth _ _ _) as [[[dev|] devs]|] eqn:Hauth.
    + destruct (record_results _ _ _ _ _) as [[|] cmds].
      * destruct (takeNextBatch _ _ _ _). cbn [fst]. discriminate.
      * cbn [fst]. intros H Hc. injection H as <- _. congruence.
    + cbn [fst snd]. intros H _. injection H as <- _. split; [|tauto].
      rewrite (findDeviceForAuth_refusal _ _ _ _ Hauth).
      apply set_devices_same.
    + cbn [fst]. intros H Hc. injection H as <- _. congruence.
  - intros id s d Hid Hne Hs Hns Hd Ht Hdiff. unfold poll. rewrite Hid, Hs.
    assert (truthy_str (Some id) = true) as Ti by (apply truthy_str_true; eauto).
    assert (truthy_str (Some s) = true) as Ts by (apply truthy_str_true; eauto).
    rewrite Ti, Ts, (truthy_str_some id Ti), (truthy_str_some s Ts).
    cbn [negb orb]. unfold findDeviceForAuth, select_device.
    rewrite (key_in_row _ _ _ Hd), Hd, Ht.
    assert (opt_str_eqb (device_secret d) s = false) as ->.
    { destruct (opt_str_eqb (device_secret d) s) eqn:E; [|reflexivity].
      apply opt_str_eqb_true in E. contradiction. }
    cbn [negb andb]. rewrite set_devices_same. reflexivity.
Qed.

Lemma poll_refused_changes_nothing_witness :
  poll (fun _ => 200%Z) (mkPoll (Some "dev-1") (Some "guess-guess-guess") None []) db_1
  = (JsonError 401 "unauthorized", db_1).
Proof.
  apply (proj2 (poll_refused_changes_nothing (fun _ => 200%Z)
                  (mkPoll (Some "dev-1") (Some "guess-guess-guess") None []) db_1)
           "dev-1" "guess-guess-guess" device_1).
  - reflexivity.
  - discriminate.
  - reflexivity.
  - discriminate.
  - reflexivity.
  - reflexivity.
  - discriminate.
Defined.

Lemma recordResult_other_device now commandId deviceId ok err cmds cmds' c :
  recordResult now commandId deviceId ok err cmds = Some cmds' ->
  In c cmds -> cmd_device_id c <> deviceId -> In c cmds'.
Proof.
  intros H Hc Hdev. apply recordResult_some in H. destruct H as [u [_ ->]].
  apply in_map_iff. exists c.
  split; [|exact Hc].
  destruct (result_matches u deviceId c) eqn:E; [|reflexivity].
  apply result_matches_true in E. tauto.
Qed.

Lemma record_results_other_device clock i deviceId results cmds b cmds' c :
  record_results clock i deviceId results cmds = (b, cmds') ->
  In c cmds -> cmd_device_id c <> deviceId -> In c cmds'.
Proof.
  revert i cmds. induction results as [|r rest IH]; intros i cmds H Hc Hdev; simpl in H.
  - injection H as _ <-. exact Hc.
  - destruct r as [e|]; [|apply (IH _ _ H Hc Hdev)].
    destruct (negb (truthy_str (r_id e))); [apply (IH _ _ H Hc Hdev)|].
    destruct (recordResult _ _ _ _ _ _) as [cmds1|] eqn:Hrec.
    + apply (IH _ _ H); [|exact Hdev].
      apply (recordResult_other_device _ _ _ _ _ _ _ _ Hrec Hc Hdev).
    + injection H as _ <-. exact Hc.
Qed.

Lemma takeNextBatch_other_device now deviceId limit cmds c :
  unique_ids cmds -> In c cmds -> cmd_device_id c <> deviceId ->
  In c (snd (takeNextBatch now deviceId limit cmds))
  /\ ~ In (cmd_id c) (map d_id (fst (takeNextBatch now deviceId limit cmds))).
Proof.
  intros Hkey Hc Hdev.
  assert (~ In (cmd_id c) (select_queued_ids deviceId limit cmds)) as Hnot.
  { intros Hin. apply (selected_is_queued _ _ _ _ Hkey Hc) in Hin.
    apply is_queued_for_true in Hin. tauto. }
  split.
  - unfold takeNextBatch. cbn [snd]. apply in_map_iff. exists c. split; [|exact Hc].
    destruct (id_in _ c) eqn:E; [|reflexivity].
    apply id_in_true in E. contradiction.
  - intros Hin. apply Hnot. apply (returned_id_iff now); assumption.
Qed.

(** X17: a poll acts on the commands of the polling device only. With
    unique command ids, every command of another device is in the table
    afterwards exactly as it was, whatever ids the results list names, and
    is never part of the batch the poll returns. *)
Theorem poll_leaves_other_devices clock req db c :
  unique_ids (device_commands db) ->
  In c (device_commands db) ->
  cmd_device_id c <> or_default (p_deviceId req) "" ->
  In c (device_commands (snd (poll clock req db)))
  /\ (forall rows, fst (poll clock req db) = Json200 rows ->
      ~ In (cmd_id c) (map d_id rows)).
Proof.
  intros Hkey Hc Hdev.
  destruct (poll_commands_shape clock req db)
    as [E|[b [cmds1 [Hrec [[-> [E Hf]]|[-> [rows [Hf Htake]]]]]]]].
  - rewrite E. split; [exact Hc|]. intros rows Hrows.
    destruct (poll clock req db) as [r db'] eqn:Hp. cbn [fst snd] in *. subst r.
    destruct (poll_ok_inv _ _ _ _ _ Hp) as [cmds1 [Hrec Htake]].
    pose proof (record_results_other_device _ _ _ _ _ _ _ c Hrec Hc Hdev) as Hc1.
    assert (unique_ids cmds1) as Hkey1.
    { unfold unique_ids. destruct (record_results_advances _ _ _ _ _ _ _ Hrec) as [_ ->].
      exact Hkey. }
    pose proof (takeNextBatch_other_device
                  (clock (List.length (p_results req)))
                  (or_default (p_deviceId req) "")
                  (clamp_max match p_max req with Some m => m | None => 5%Z end)
                  cmds1 c Hkey1 Hc1 Hdev) as [_ Hno].
    rewrite Htake in Hno. exact Hno.
  - rewrite E, Hf. split; [|discriminate].
    apply (record_results_other_device _ _ _ _ _ _ _ c Hrec Hc Hdev).
  - pose proof (record_results_other_device _ _ _ _ _ _ _ c Hrec Hc Hdev) as Hc1.
    assert (unique_ids cmds1) as Hkey1.
    { unfold unique_ids. destruct (record_results_advances _ _ _ _ _ _ _ Hrec) as [_ ->].
      exact Hkey. }
    pose proof (takeNextBatch_other_device
                  (clock (List.length (p_results req)))
                  (or_default (p_deviceId req) "")
                  (clamp_max match p_max req with Some m => m | None => 5%Z end)
                  cmds1 c Hkey1 Hc1 Hdev) as [Hin Hno].
    rewrite Htake in Hin, Hno. cbn [fst snd] in Hin, Hno.
    split; [exact Hin|]. rewrite Hf. intros rows0 E. injection E as <-. exact Hno.
Qed.

Lemma takeNextBatch_length now deviceId limit cmds :
  unique_ids cmds ->
  List.length (fst (takeNextBatch now deviceId limit cmds))
  = Nat.min (Z.to_nat limit) (count_queued deviceId cmds).
Proof.
  intros Hkey. unfold takeNextBatch, count_queued. cbn [fst].
  rewrite length_map, <- (length_map cmd_id).
  rewrite (Permutation_length (returned_ids deviceId limit cmds Hkey)).
  apply length_ids.
Qed.

(** X18: a poll that is answered with a batch returns at most 20
    commands, and at most 5 when the request names no count. When the
    results list is empty the batch has exactly min(clamp(max), number of
    commands queued for the device) commands, so a request for zero or for
    a negative count still takes one command when one is queued. *)
Theorem poll_batch_size clock req db rows db' :
  unique_ids (device_commands db) ->
  poll clock req db = (Json200 rows, db') ->
  List.length rows <= 20
  /\ (p_max req = None -> List.length rows <= 5)
  /\ (p_results req = [] ->
      List.length rows
      = Nat.min (Z.to_nat (clamp_max match p_max req with Some m => m | None => 5%Z end))
          (count_queued (or_default (p_deviceId req) "") (device_commands db))
      /\ (1 <= count_queued (or_default (p_deviceId req) "") (device_commands db) ->
          1 <= List.length rows)).
Proof.
  intros Hkey Hp. destruct (poll_ok_inv _ _ _ _ _ Hp) as [cmds1 [Hrec Htake]].
  assert (unique_ids cmds1) as Hkey1.
  { unfold unique_ids. destruct (record_results_advances _ _ _ _ _ _ _ Hrec) as [_ ->].
    exact Hkey. }
  pose proof (takeNextBatch_length
                (clock (List.length (p_results req)))
                (or_default (p_deviceId req) "")
                (clamp_max match p_max req with Some m => m | None => 5%Z end)
                cmds1 Hkey1) as Hlen.
  rewrite Htake in Hlen. cbn [fst] in Hlen.
  split; [|split].
  - rewrite Hlen. unfold clamp_max. lia.
  - intros Hm. rewrite Hlen, Hm. unfold clamp_max. lia.
  - intros Hnil. rewrite Hnil in Hrec. simpl in Hrec. injection Hrec as <-.
    split; [exact Hlen|]. rewrite Hlen. unfold clamp_max. lia.
Qed.

Lemma mark_sent_not_queued now c deviceId : is_queued_for deviceId (mark_sent now c) = false.
Proof. unfold is_queued_for. simpl. apply andb_false_r. Qed.

Lemma batch_accounting now deviceId dev ids (l : list Command) :
  (forall c, In c l -> id_in ids c = true -> is_queued_for deviceId c = true) ->
  List.length (List.filter (is_queued_for dev)
                 (map (fun c => if id_in ids c then mark_sent now c else c) l))
  + (if dev =? deviceId then List.length (List.filter (id_in ids) l) else 0)
  = List.length (List.filter (is_queued_for dev) l).
Proof.
  induction l as [|c l IH]; intros Hsel; simpl.
  - destruct (dev =? deviceId); reflexivity.
  - assert (forall c0, In c0 l -> id_in ids c0 = true -> is_queued_for deviceId c0 = true)
      as Hsel' by (intros c0 H0; apply Hsel; right; exact H0).
    specialize (IH Hsel').
    destruct (id_in ids c) eqn:E.
    + rewrite mark_sent_not_queued.
      pose proof (Hsel c (or_introl eq_refl) E) as Hq.
      destruct (String.eqb_spec dev deviceId) as [->|Hne].
      * rewrite Hq. simpl. lia.
      * assert (is_queued_for dev c = false) as ->.
        { apply is_queued_for_true in Hq. destruct Hq as [Hd _].
          unfold is_queued_for. rewrite Hd.
          destruct (String.eqb_spec deviceId dev); [congruence|reflexivity]. }
        lia.
    + destruct (is_queued_for dev c); simpl; lia.
Qed.

(** X19: taking a batch moves commands out of the queue of the device
    and out of no other: with unique command ids, the number of commands
    queued for the device afterwards plus the number returned is the
    number that was queued before, and the number queued for any other
    device is unchanged. A batch at least as large as the queue empties
    it. *)
Theorem takeNextBatch_queue_accounting now deviceId limit cmds :
  unique_ids cmds ->
  count_queued deviceId (snd (takeNextBatch now deviceId limit cmds))
  + List.length (fst (takeNextBatch now deviceId limit cmds))
  = count_queued deviceId cmds
  /\ (forall dev, dev <> deviceId ->
      count_queued dev (snd (takeNextBatch now deviceId limit cmds))
      = count_queued dev cmds)
  /\ (count_queued deviceId cmds <= Z.to_nat limit ->
      count_queued deviceId (snd (takeNextBatch now deviceId limit cmds)) = 0).
Proof.
  intros Hkey.
  assert (forall c, In c cmds ->
            id_in (select_queued_ids deviceId limit cmds) c = true ->
            is_queued_for deviceId c = true) as Hsel.
  { intros c Hc Hin. apply id_in_true in Hin.
    apply (selected_is_queued _ _ _ _ Hkey Hc Hin). }
  assert (count_queued deviceId (snd (takeNextBatch now deviceId limit cmds))
          + List.length (fst (takeNextBatch now deviceId limit cmds))
          = count_queued deviceId cmds) as Hsum.
  { pose proof (batch_accounting now deviceId deviceId _ cmds Hsel) as H.
    rewrite String.eqb_refl in H.
    unfold takeNextBatch, count_queued. cbn [fst snd]. rewrite length_map. exact H. }
  split; [exact Hsum|]. split.
  - intros dev Hne.
    pose proof (batch_accounting now deviceId dev _ cmds Hsel) as H.
    destruct (String.eqb_spec dev deviceId); [contradiction|].
    unfold takeNextBatch, count_queued. cbn [snd]. lia.
  - intros Hle. rewrite (takeNextBatch_length now deviceId limit cmds Hkey) in Hsum. lia.
Qed.

Lemma poll_batch_size_witness :
  let cA := mkCommand 10%N "dev-1" "ping" (JObj []) queued 100 None None None in
  let db := set_commands [cA] db_1 in
  unique_ids (device_commands db)
  /\ fst (poll (fun _ => 200%Z) (auth_1 0 []) db) = Json200 [returning cA]
  /\ List.length [returning cA] <= 20.
Proof.
  intros cA db.
  assert (unique_ids (device_commands db)) as Hkey.
  { unfold unique_ids. simpl. constructor; [intros []|constructor]. }
  assert (fst (poll (fun _ => 200%Z) (auth_1 0 []) db) = Json200 [returning cA]) as Hf
    by (vm_compute; reflexivity).
  split; [exact Hkey|]. split; [exact Hf|].
  destruct (poll (fun _ => 200%Z) (auth_1 0 []) db) as [r db'] eqn:E.
  cbn [fst] in Hf. subst r.
  exact (proj1 (poll_batch_size (fun _ => 200%Z) (auth_1 0 []) db
                  [returning cA] db' Hkey E)).
Defined.

Lemma takeNextBatch_queue_accounting_witness :
  let cA := mkCommand 10%N "dev-1" "ping" (JObj []) queued 100 None None None in
  let cB := mkCommand 11%N "dev-1" "update" (JObj []) queued 101 None None None in
  unique_ids [cA; cB]
  /\ count_queued "dev-1" (snd (takeNextBatch 200 "dev-1" 1 [cA; cB]))
     + List.length (fst (takeNextBatch 200 "dev-1" 1 [cA; cB]))
     = count_queued "dev-1" [cA; cB].
Proof.
  intros cA cB.
  assert (unique_ids [cA; cB]) as Hkey.
  { unfold unique_ids. simpl. constructor.
    - intros [H|[]]. discriminate H.
    - constructor; [intros []|constructor]. }
  split; [exact Hkey|].
  exact (proj1 (takeNextBatch_queue_accounting 200 "dev-1" 1 [cA; cB] Hkey)).
Defined.

Lemma poll_leaves_other_devices_witness :
  let cX := mkCommand 12%N "dev-2" "wipe" (JObj []) queued 90 None None None in
  let db := set_commands [cX] db_1 in
  let req := auth_1 5 [report "00000000-0000-0000-0000-00000000000c" true None] in
  unique_ids (device_commands db)
  /\ In cX (device_commands db)
  /\ In cX (device_commands (snd (poll (fun _ => 200%Z) req db))).
Proof.
  intros cX db req.
  assert (unique_ids (device_commands db)) as Hkey.
  { unfold unique_ids. simpl. constructor; [intros []|constructor]. }
  assert (In cX (device_commands db)) as Hin by (left; reflexivity).
  split; [exact Hkey|]. split; [exact Hin|].
  apply (proj1 (poll_leaves_other_devices (fun _ => 200%Z) req db cX Hkey Hin
                  ltac:(discriminate))).
Defined.

(** ** Delivery over runs *)

Lemma run_commands tok reqs db :
  unique_ids (device_commands db) ->
  unique_ids (device_commands (run tok reqs db))
  /\ (forall u c,
        find_command u (device_commands db) = Some c ->
        exists c',
          find_command u (device_commands (run tok reqs db)) = Some c'
          /\ rank (cmd_status c) <= rank (cmd_status c')).
Proof.
  revert db. induction reqs as [|r rest IH]; intros db Hkey; simpl.
  - split; [exact Hkey|]. intros u c H. exists c. split; [exact H|lia].
  - destruct (handle_commands tok r db Hkey) as [Hstep Hkey'].
    destruct (IH _ Hkey') as [Hk Hmono]. split; [exact Hk|].
    intros u c H. specialize (Hstep u). rewrite H in Hstep.
    destruct Hstep as [c1 [H1 Hle1]]. destruct (Hmono u c1 H1) as [c2 [H2 Hle2]].
    exists c2. split; [exact H2|lia].
Qed.

Lemma id_in_same_id ids c1 c2 : cmd_id c1 = cmd_id c2 -> id_in ids c1 = id_in ids c2.
Proof. unfold id_in. intros ->. reflexivity. Qed.

Lemma poll_marks_sent clock req db rows db' d :
  poll clock req db = (Json200 rows, db') ->
  In d rows ->
  exists c', find_command (d_id d) (device_commands db') = Some c'
             /\ cmd_status c' = sent.
Proof.
  intros Hp Hd. destruct (poll_ok_inv _ _ _ _ _ Hp) as [cmds1 [_ Htake]].
  unfold takeNextBatch in Htake. injection Htake as Hrows Hcmds.
  rewrite <- Hrows in Hd. apply in_map_iff in Hd. destruct Hd as [c [<- Hc]].
  apply filter_In in Hc. destruct Hc as [Hc Hin]. cbn [d_id returning].
  destruct (find_command_present (cmd_id c) cmds1 c Hc eq_refl) as [c0 F0].
  pose proof (find_command_in _ _ _ F0) as [_ E0].
  rewrite <- Hcmds.
  rewrite find_command_map by (intros x; destruct (id_in _ x); reflexivity).
  rewrite F0. cbn [option_map]. rewrite (id_in_same_id _ c0 c E0), Hin.
  eexists. split; reflexivity.
Qed.

Lemma poll_returns_were_queued clock req db rows db' d c0 :
  unique_ids (device_commands db) ->
  poll clock req db = (Json200 rows, db') ->
  In d rows ->
  find_command (d_id d) (device_commands db) = Some c0 ->
  rank (cmd_status c0) = 0.
Proof.
  intros Hkey Hp Hd F0. destruct (poll_ok_inv _ _ _ _ _ Hp) as [cmds1 [Hrec Htake]].
  destruct (record_results_advances _ _ _ _ _ _ _ Hrec) as [Hadv Hids].
  assert (unique_ids cmds1) as Hkey1 by (unfold unique_ids; rewrite Hids; exact Hkey).
  specialize (Hadv (d_id d)). rewrite F0 in Hadv. destruct Hadv as [c1 [F1 Hle]].
  pose proof (takeNextBatch_returns_queued
                (clock (List.length (p_results req)))
                (or_default (p_deviceId req) "")
                (clamp_max match p_max req with Some m => m | None => 5%Z end)
                cmds1 d) as Hq.
  rewrite Htake in Hq. destruct (Hq Hd) as [c [Hc [Eid [_ Est]]]].
  pose proof (find_command_in _ _ _ F1) as [Hc1 E1].
  assert (c1 = c) as -> by (apply (unique_ids_inj cmds1); congruence).
  rewrite Est in Hle. simpl in Hle. lia.
Qed.

(** X20: no command is delivered twice. In a run of requests served one
    after the other, from a table with unique command ids, a command
    returned by one poll is not returned by any later poll, of any device,
    whatever requests are served in between. *)
Theorem poll_delivers_at_most_once tok clock1 req1 db rows1 db1 reqs clock2 req2 rows2 db2 :
  unique_ids (device_commands db) ->
  poll clock1 req1 db = (Json200 rows1, db1) ->
  poll clock2 req2 (run tok reqs db1) = (Json200 rows2, db2) ->
  forall d1 d2, In d1 rows1 -> In d2 rows2 -> d_id d1 <> d_id d2.
Proof.
  intros Hkey Hp1 Hp2 d1 d2 H1 H2 E.
  destruct (poll_marks_sent _ _ _ _ _ _ Hp1 H1) as [c1 [F1 Hsent]].
  assert (unique_ids (device_commands db1)) as Hkey1.
  { unfold unique_ids. destruct (poll_commands clock1 req1 db Hkey) as [_ Hids].
    rewrite Hp1 in Hids. cbn [snd] in Hids. rewrite Hids. exact Hkey. }
  destruct (run_commands tok reqs db1 Hkey1) as [Hkey2 Hmono].
  destruct (Hmono _ _ F1) as [c2 [F2 Hle]].
  rewrite E in F2.
  pose proof (poll_returns_were_queued _ _ _ _ _ _ _ Hkey2 Hp2 H2 F2) as H0.
  rewrite Hsent in Hle. simpl in Hle. lia.
Qed.

Lemma poll_delivers_at_most_once_witness :
  let cA := mkCommand 10%N "dev-1" "ping" (JObj []) queued 100 None None None in
  let cB := mkCommand 11%N "dev-1" "update" (JObj []) queued 101 None None None in
  let db := set_commands [cA; cB] db_1 in
  let db1 := snd (poll (fun _ => 200%Z) (auth_1 1 []) db) in
  fst (poll (fun _ => 200%Z) (auth_1 1 []) db) = Json200 [returning cA]
  /\ fst (poll (fun _ => 300%Z) (auth_1 5 []) (run None [] db1)) = Json200 [returning cB]
  /\ d_id (returning cA) <> d_id (returning cB).
Proof.
  intros cA cB db db1.
  assert (unique_ids (device_commands db)) as Hkey.
  { unfold unique_ids. simpl. constructor.
    - intros [H|[]]. discriminate H.
    - constructor; [intros []|constructor]. }
  assert (fst (poll (fun _ => 200%Z) (auth_1 1 []) db) = Json200 [returning cA]) as Hf1
    by (vm_compute; reflexivity).
  assert (fst (poll (fun _ => 300%Z) (auth_1 5 []) (run None [] db1))
          = Json200 [returning cB]) as Hf2 by (vm_compute; reflexivity).
  split; [exact Hf1|]. split; [exact Hf2|].
  assert (poll (fun _ => 200%Z) (auth_1 1 []) db = (Json200 [returning cA], db1)) as Hp1.
  { unfold db1. rewrite <- Hf1. apply surjective_pairing. }
  assert (poll (fun _ => 300%Z) (auth_1 5 []) (run None [] db1)
          = (Json200 [returning cB],
             snd (poll (fun _ => 300%Z) (auth_1 5 []) (run None [] db1)))) as Hp2.
  { rewrite <- Hf2. apply surjective_pairing. }
  apply (poll_delivers_at_most_once None _ _ db _ db1 [] _ _ _ _ Hkey Hp1 Hp2);
    left; reflexivity.
Defined.

Lemma filter_none_of_count deviceId cmds :
  count_queued deviceId cmds = 0 -> List.filter (is_queued_for deviceId) cmds = [].
Proof.
  unfold count_queued. destruct (List.filter _ cmds); [reflexivity|discriminate].
Qed.

Lemma filter_fresh_id fresh cmds :
  find_command fresh cmds = None -> List.filter (id_in [fresh]) cmds = [].
Proof.
  induction cmds as [|c l IH]; intros H; [reflexivity|].
  unfold find_command in H. simpl in H.
  destruct (cmd_id c =? fresh)%N eqn:E; [discriminate|].
  assert (id_in [fresh] c = false) as Hc
    by (unfold id_in; simpl; rewrite E; reflexivity).
  cbn [List.filter]. rewrite Hc. apply IH. exact H.
Qed.

(** X21: a command enqueued for a device whose queue is empty is what
    the next poll of that device receives. When the enqueue is answered
    with ok, for a device that has its secret on record, one command has
    been appended, with the fresh id, the deviceId and the kind of the
    call and as payload what jsonb keeps of the one given; and a poll of
    the device with that secret and no results, whatever count it asks
    for, returns exactly that command. *)
Theorem enqueue_then_poll_delivers now fresh id kind payload db d s clock max :
  id <> "" ->
  devices db !! id = Some d -> device_secret d = Some s -> s <> "" ->
  count_queued id (device_commands db) = 0 ->
  fst (enqueue now fresh id kind payload db) = Json200 tt ->
  exists c,
    device_commands (snd (enqueue now fresh id kind payload db))
    = device_commands db ++ [c]
    /\ cmd_id c = fresh /\ cmd_device_id c = id /\ kind = Some (cmd_kind c)
    /\ cmd_status c = queued
    /\ jsonb_param payload = Some (cmd_payload c)
    /\ fst (poll clock (mkPoll (Some id) (Some s) max [])
              (snd (enqueue now fresh id kind payload db)))
       = Json200 [returning c].
Proof.
  intros Hid Hd Hsec Hs Hempty Hok.
  assert (truthy_str (Some id) = true) as Ti by (apply truthy_str_true; eauto).
  assert (truthy_str (Some s) = true) as Ts by (apply truthy_str_true; eauto).
  destruct (enqueue_cases now fresh id kind payload db)
    as [[_ [code [error E]]]|[_ [Tk [_ Hins]]]]; [rewrite E in Hok; discriminate Hok|].
  apply truthy_str_true in Tk. destruct Tk as [k [-> Hk]].
  rewrite (or_default_nonempty k Hk) in Hins.
  apply insert_command_some in Hins.
  destruct Hins as [d0 [j [_ [_ [Hj [Hfresh ->]]]]]].
  set (new := mkCommand fresh id k j queued now None None None).
  exists new. cbn [set_commands device_commands].
  repeat (split; [first [reflexivity|exact Hj]|]).
  unfold poll. cbn [p_deviceId p_deviceSecret p_max p_results].
  rewrite Ti, Ts, (truthy_str_some id Ti), (truthy_str_some s Ts).
  cbn [negb orb set_commands devices]. unfold findDeviceForAuth, select_device.
  rewrite (key_in_row _ _ _ Hd), Hd, Hsec, Ts.
  cbn [opt_str_eqb]. rewrite String.eqb_refl.
  cbn [andb record_results set_devices device_commands List.length].
  set (limit := clamp_max match max with Some m => m | None => 5%Z end).
  assert (exists n, Z.to_nat limit = S n) as [n Hn].
  { exists (Z.to_nat limit - 1). unfold limit, clamp_max. lia. }
  assert (select_queued_ids id limit (device_commands db ++ [new]) = [fresh]) as Hids.
  { unfold select_queued_ids. rewrite List.filter_app.
    rewrite (filter_none_of_count _ _ Hempty). cbn [app List.filter].
    assert (is_queued_for id new = true) as ->
      by (apply is_queued_for_true; split; reflexivity).
    rewrite Hn. cbn [order_by_created_at fold_right insert_by_created_at firstn].
    rewrite firstn_nil. reflexivity. }
  unfold takeNextBatch.
  change (device_commands (set_commands (device_commands db ++ [new]) db))
    with (device_commands db ++ [new]).
  rewrite Hids. cbn [fst].
  apply find_command_absent in Hfresh.
  rewrite List.filter_app, (filter_fresh_id _ _ Hfresh). cbn [app List.filter].
  unfold id_in at 1. cbn [existsb cmd_id new]. rewrite N.eqb_refl. reflexivity.
Qed.

Lemma enqueue_then_poll_delivers_witness :
  fst (poll (fun _ => 200%Z) (mkPoll (Some "dev-1") (Some "secret-one-123") None [])
         (snd (enqueue 100 10%N "dev-1" (Some "ping") (JObj []) db_1)))
  = Json200 [mkDelivered 10%N "ping" (JObj [])].
Proof.
  destruct (enqueue_then_poll_delivers 100 10%N "dev-1" (Some "ping") (JObj []) db_1
              device_1 "secret-one-123" (fun _ => 200%Z) None
              ltac:(discriminate) eq_refl eq_refl ltac:(discriminate) eq_refl eq_refl)
    as [c [Hc [Hid [_ [Hk [_ [Hp Hpoll]]]]]]].
  rewrite Hpoll. unfold returning. rewrite Hid.
  injection Hk as <-. injection Hp as <-. reflexivity.
Defined.

(** ** Referential integrity *)

Lemma findDeviceForAuth_keeps_rows deviceId s devs res devs' k :
  findDeviceForAuth deviceId s devs = Some (res, devs') ->
  is_Some (devs !! k) -> is_Some (devs' !! k).
Proof.
  intros H Hk. apply findDeviceForAuth_some in H.
  destruct H as [[-> _]|[d [_ [_ [_ [_ [_ [_ ->]]]]]]]]; [exact Hk|].
  rewrite lookup_insert. destruct (decide (deviceId = k)); [eauto|exact Hk].
Qed.

Lemma handle_keeps_rows tok r db k :
  is_Some (devices db !! k) -> is_Some (devices (handle tok r db) !! k).
Proof.
  intros Hk.
  destruct r as [now ip req|clock req|auth now fresh id kind payload
                |auth now id st|auth now id note createdBy|auth id]; simpl.
  - rewrite register_devices.
    destruct (truthy_str (g_deviceId req) && truthy_str (g_deviceSecret req)
              && upsert_accepted ip req); [|exact Hk].
    unfold upsert_device.
    destruct (devices db !! or_default (g_deviceId req) "");
      rewrite lookup_insert; destruct (decide (_ = k)); eauto.
  - destruct (poll_devices clock req db) as [->|[res H]]; [exact Hk|].
    apply (findDeviceForAuth_keeps_rows _ _ _ _ _ _ H Hk).
  - devices_kept Hk.
  - destruct (adminAuth tok auth); simpl; [|exact Hk].
    destruct (set_status_cases now id st db) as [[-> _]|[s [_ [_ [_ [_ ->]]]]]];
      [exact Hk|].
    cbn [snd set_devices devices]. rewrite lookup_alter.
    destruct (decide (id = k)); [|exact Hk].
    destruct Hk as [d Hd]. subst k. rewrite Hd. simpl. eauto.
  - devices_kept Hk.
  - devices_kept Hk.
Qed.

Lemma record_results_devices clock i deviceId results cmds b cmds' c' :
  record_results clock i deviceId results cmds = (b, cmds') ->
  In c' cmds' -> exists c, In c cmds /\ cmd_device_id c' = cmd_device_id c.
Proof.
  revert i cmds. induction results as [|r rest IH]; intros i cmds H Hc; simpl in H.
  - injection H as _ <-. eauto.
  - destruct r as [e|]; [|apply (IH _ _ H Hc)].
    destruct (negb (truthy_str (r_id e))); [apply (IH _ _ H Hc)|].
    destruct (recordResult _ _ _ _ _ _) as [cmds1|] eqn:Hrec.
    + destruct (IH _ _ H Hc) as [c1 [Hc1 E1]].
      destruct (recordResult_in _ _ _ _ _ _ _ _ Hrec Hc1)
        as [u [c [_ [Hin [[_ ->]|[_ ->]]]]]]; exists c; split; try exact Hin;
        rewrite E1; reflexivity.
    + injection H as _ <-. eauto.
Qed.

Lemma poll_command_devices clock req db c' :
  In c' (device_commands (snd (poll clock req db))) ->
  exists c, In c (device_commands db) /\ cmd_device_id c' = cmd_device_id c.
Proof.
  intros Hc.
  destruct (poll_commands_shape clock req db)
    as [E|[b [cmds1 [Hrec [[-> [E _]]|[-> [rows [_ Htake]]]]]]]].
  - rewrite E in Hc. eauto.
  - rewrite E in Hc. apply (record_results_devices _ _ _ _ _ _ _ _ Hrec Hc).
  - unfold takeNextBatch in Htake. injection Htake as _ Hcmds. rewrite <- Hcmds in Hc.
    apply in_map_iff in Hc. destruct Hc as [c1 [E1 Hc1]].
    destruct (record_results_devices _ _ _ _ _ _ _ _ Hrec Hc1) as [c [Hin E]].
    exists c. split; [exact Hin|]. rewrite <- E, <- E1.
    destruct (id_in _ c1); reflexivity.
Qed.

(** X22: no request leaves a command or a note without its device: when
    every command and every note belongs to a device that has a row, the
    same holds after any request, because a command or a note is inserted
    only for a device that has a row and no request removes a row. *)
Theorem handle_keeps_references tok r db :
  references_ok db -> references_ok (handle tok r db).
Proof.
  intros [Hcmd Hnote].
  assert (forall db', (forall c', In c' (device_commands db') ->
                         exists c, In c (device_commands db)
                                   /\ cmd_device_id c' = cmd_device_id c) ->
                      (forall k, is_Some (devices db !! k) -> is_Some (devices db' !! k)) ->
                      forall c', In c' (device_commands db') ->
                                 is_Some (devices db' !! cmd_device_id c')) as Hc.
  { intros db' Hfrom Hrows c' Hin. destruct (Hfrom c' Hin) as [c [Hc0 ->]].
    apply Hrows, Hcmd, Hc0. }
  assert (forall db', device_notes db' = device_notes db ->
                      (forall k, is_Some (devices db !! k) -> is_Some (devices db' !! k)) ->
                      forall n, In n (device_notes db') ->
                                is_Some (devices db' !! note_device_id n)) as Hn.
  { intros db' E Hrows n Hin. rewrite E in Hin. apply Hrows, Hnote, Hin. }
  pose proof (handle_keeps_rows tok r db) as Hrows. unfold references_ok.
  destruct r as [now ip req|clock req|auth now fresh id kind payload
                |auth now id st|auth now id note createdBy|auth id]; simpl in *.
  - destruct (register_tables now ip req db) as [E1 E2].
    split; [apply Hc; [rewrite E1; eauto|exact Hrows]|apply Hn; [exact E2|exact Hrows]].
  - split.
    + apply Hc; [apply poll_command_devices|exact Hrows].
    + apply Hn; [|exact Hrows]. unfold poll.
      destruct (_ || _); [reflexivity|].
      destruct (findDeviceForAuth _ _ _) as [[[dev|] devs]|]; [|reflexivity|reflexivity].
      destruct (record_results _ _ _ _ _) as [[|] cmds]; [|reflexivity].
      destruct (takeNextBatch _ _ _ _). reflexivity.
  - destruct (adminAuth tok auth); cbn [guarded snd] in *; [|split; assumption].
    destruct (enqueue_cases now fresh id kind payload db) as [[-> _]|[_ [_ [_ Hins]]]];
      [split; assumption|].
    apply insert_command_some in Hins. destruct Hins as [d [j [Hd [_ [_ [_ E]]]]]].
    rewrite E in *. cbn [set_commands device_commands devices device_notes] in *. split.
    + intros c' Hin. apply in_app_or in Hin. destruct Hin as [Hin|[<-|[]]].
      * apply Hcmd, Hin.
      * cbn [cmd_device_id]. rewrite Hd. eauto.
    + exact Hnote.
  - destruct (adminAuth tok auth); cbn [guarded snd] in *; [|split; assumption].
    destruct (set_status_tables now id st db) as [E1 E2].
    split; [apply Hc; [rewrite E1; eauto|exact Hrows]|apply Hn; [exact E2|exact Hrows]].
  - destruct (adminAuth tok auth); cbn [guarded snd] in *; [|split; assumption].
    destruct (post_note_cases now id note createdBy db) as [[-> _]|[d [Hd [_ E]]]];
      [split; assumption|].
    rewrite E in *. cbn [snd add_note device_commands devices device_notes] in *. split.
    + exact Hcmd.
    + intros n Hin. apply in_app_or in Hin. destruct Hin as [Hin|[<-|[]]].
      * apply Hnote, Hin.
      * cbn [note_device_id]. rewrite Hd. eauto.
  - destruct (adminAuth tok auth); cbn [guarded snd] in *; [|split; assumption].
    rewrite get_device_same. split; assumption.
Qed.

Lemma handle_keeps_references_witness :
  references_ok db_1
  /\ references_ok
       (handle None (AdminEnqueue None 100 10%N "dev-1" (Some "ping") (JObj [])) db_1).
Proof.
  assert (references_ok db_1) as H by (split; intros x []).
  split; [exact H|]. apply handle_keeps_references. exact H.
Defined.

(** ** A result entry whose id is not a uuid *)

Lemma recordResult_no_new_sent now commandId deviceId ok err cmds cmds' c' :
  recordResult now commandId deviceId ok err cmds = Some cmds' ->
  In c' cmds' -> cmd_status c' = sent -> In c' cmds.
Proof.
  intros H Hin Hs.
  destruct (recordResult_in _ _ _ _ _ _ _ _ H Hin) as [u [c [_ [Hc [[_ E]|[_ E]]]]]].
  - subst c'. simpl in Hs. destruct ok; discriminate.
  - subst c'. exact Hc.
Qed.

Lemma record_results_no_new_sent clock i deviceId results cmds b cmds' c' :
  record_results clock i deviceId results cmds = (b, cmds') ->
  In c' cmds' -> cmd_status c' = sent -> In c' cmds.
Proof.
  revert i cmds. induction results as [|r rest IH]; intros i cmds H Hin Hs; simpl in H.
  - injection H as _ <-. exact Hin.
  - destruct r as [e|]; [|apply (IH _ _ H Hin Hs)].
    destruct (negb (truthy_str (r_id e))); [apply (IH _ _ H Hin Hs)|].
    destruct (recordResult _ _ _ _ _ _) as [cmds1|] eqn:Hrec.
    + apply (recordResult_no_new_sent _ _ _ _ _ _ _ _ Hrec); [|exact Hs].
      apply (IH _ _ H Hin Hs).
    + injection H as _ <-. exact Hin.
Qed.

(** X23: a results list that holds an entry whose id is not empty and
    does not read as a uuid makes the poll fail: the reply is never a
    batch, and no command is moved to sent by that call (a command that is
    sent afterwards was in the table, sent, before). *)
Theorem poll_malformed_result_id clock req db e s :
  In (Some e) (p_results req) ->
  r_id e = Some s -> s <> "" -> uuid_in s = None ->
  (forall rows, fst (poll clock req db) <> Json200 rows)
  /\ (forall c', In c' (device_commands (snd (poll clock req db))) ->
                 cmd_status c' = sent -> In c' (device_commands db)).
Proof.
  intros He Hs Hne Hu.
  assert (forall rows, fst (poll clock req db) <> Json200 rows) as Hfail.
  { intros rows Hf. destruct (poll clock req db) as [r db'] eqn:Hp.
    cbn [fst] in Hf. subst r.
    destruct (poll_ok_inv _ _ _ _ _ Hp) as [cmds1 [Hrec _]].
    apply record_results_reported in Hrec. destruct Hrec as [_ Hrep].
    destruct (Hrep e s He Hs Hne) as [u [Hu' _]]. congruence. }
  split; [exact Hfail|].
  intros c' Hin Hsent.
  destruct (poll_commands_shape clock req db)
    as [E|[b [cmds1 [Hrec [[-> [E _]]|[-> [rows [Hf _]]]]]]]].
  - rewrite E in Hin. exact Hin.
  - rewrite E in Hin. apply (record_results_no_new_sent _ _ _ _ _ _ _ _ Hrec Hin Hsent).
  - destruct (Hfail rows Hf).
Qed.

Lemma poll_malformed_result_id_witness :
  let cA := mkCommand 10%N "dev-1" "ping" (JObj []) queued 100 None None None in
  let db := set_commands [cA] db_1 in
  let req := auth_1 5 [report "not-a-uuid" true None] in
  uuid_in "not-a-uuid" = None
  /\ fst (poll (fun _ => 200%Z) req db) <> Json200 [returning cA].
Proof.
  intros cA db req. split; [reflexivity|].
  apply (proj1 (poll_malformed_result_id (fun _ => 200%Z) req db
                  (mkResult (Some "not-a-uuid") (JBool true) None) "not-a-uuid"
                  (or_introl eq_refl) eq_refl ltac:(discriminate) eq_refl)).
Defined.
